(** * Fashion-feedback synthesis engine

    A shallow embedding of the three scoring services of the backend
    ([rules_engine.py], [color_service.py], [style_engine.py], with the
    part of [clip_service.py] they call) and the properties the design
    document states about them.

    Python's [float] is IEEE-754 binary64; it is modelled by Rocq's
    primitive [float], which is the same format with the same
    round-to-nearest-even operations.  A decimal literal such as [0.9]
    denotes, in both languages, the binary64 value nearest to it.
    Python's [int] is [Z]; [str] is [string]; a list is a [list]; the
    style cache, a [dict] keyed by strings, is a [gmap]. *)

From Stdlib Require Import ZArith List String Ascii Floats Lia Bool DecimalString HexadecimalString.
From stdpp Require Import base option list gmap strings.

Set Warnings "-inexact-float".
Set Default Proof Using "Type".

(** ** Python values and builtins *)

Module Py.

(** The exceptions the modelled code can raise.  Every public method
    catches [Exception], so only the fact that one was raised matters. *)
Inductive exn : Set :=
| ZeroDivisionError
| OverflowError
| TypeError
| AttributeError
| ValueError.

Inductive result (A : Type) : Type :=
| Ok (a : A)
| Raise (e : exn).
Arguments Ok {A} a.
Arguments Raise {A} e.

#[global] Instance result_ret : MRet result := fun A a => Ok a.
#[global] Instance result_bind : MBind result :=
  fun A B f m => match m with Ok a => f a | Raise e => Raise e end.

(** [x > y] on floats, written as in the source. *)
Notation "x >? y" := (PrimFloat.ltb y x) (only parsing) : float_scope.

(** An integer read as the (non-normalised) binary number [z * 2^0]. *)
Definition Z2SF (z : Z) : spec_float :=
  match z with
  | Z0 => S754_zero false
  | Zpos p => S754_finite false p 0
  | Zneg p => S754_finite true p 0
  end.

(** [float(z)]: the binary64 nearest to [z]. *)
Definition float_of_Z (z : Z) : float :=
  SF2Prim (binary_normalize prec emax z 0 false).

(** [a / b] on two [int]s: the correctly rounded quotient, or an
    exception when [b] is zero or the quotient is out of range. *)
Definition true_div (a b : Z) : result float :=
  if (b =? 0)%Z then Raise ZeroDivisionError
  else
    match SFdiv prec emax (Z2SF a) (Z2SF b) with
    | S754_infinity _ => Raise OverflowError
    | q => Ok (SF2Prim q)
    end.

(** [x in l] for a list of strings. *)
Definition str_in (x : string) (l : list string) : bool :=
  existsb (String.eqb x) l.

(** [max(l)] on a non-empty list: the first largest element. *)
Definition py_max (l : list float) : float :=
  match l with
  | [] => nan
  | x :: rest => fold_left (fun best y => if (y >? best)%float then y else best) rest x
  end.

(** [min(a, b)]: [b] when it is smaller, [a] otherwise. *)
Definition py_min (a b : float) : float :=
  if (b <? a)%float then b else a.

(** [numpy]'s summation of a contiguous array of doubles
    ([DOUBLE_pairwise_sum], with [PW_BLOCKSIZE = 128]).  Fewer than
    eight elements are added in order, starting from [-0.0].  Up to
    128 elements are added into eight running sums [r[0..7]], element
    [i] into [r[i mod 8]], as long as whole groups of eight remain;
    the running sums are combined as
    [((r0 + r1) + (r2 + r3)) + ((r4 + r5) + (r6 + r7))] and the
    remaining elements added in order.  A longer array is split at
    [n / 2] rounded down to a multiple of eight and the sums of the
    two parts are added. *)
Definition PW_BLOCKSIZE : nat := 128.

(** [r[j] += a[j]] for each position [j]. *)
Fixpoint add_each (r a : list float) : list float :=
  match r, a with
  | x :: r, y :: a => (x + y)%float :: add_each r a
  | _, _ => r
  end.

(** The unrolled loop: [groups] times, the next eight elements are
    added to the running sums. *)
Fixpoint unrolled_loop (groups : nat) (r a : list float) : list float * list float :=
  match groups with
  | O => (r, a)
  | S groups => unrolled_loop groups (add_each r (firstn 8 a)) (skipn 8 a)
  end.

Definition combine_sums (r : list float) : float :=
  match r with
  | [r0; r1; r2; r3; r4; r5; r6; r7] =>
      (((r0 + r1) + (r2 + r3)) + ((r4 + r5) + (r6 + r7)))%float
  | _ => nan
  end.

(** The sum of a block of at least eight elements. *)
Definition block_sum (a : list float) : float :=
  let n := length a in
  let '(r, rest) := unrolled_loop ((n - n mod 8) / 8 - 1) (firstn 8 a) (skipn 8 a) in
  fold_left PrimFloat.add rest (combine_sums r).

(** The recursion halves the array, so a depth of [length a] is never
    exhausted. *)
Fixpoint pairwise_sum (depth : nat) (a : list float) : float :=
  let n := length a in
  if (n <? 8)%nat then fold_left PrimFloat.add a (- 0)%float
  else if (n <=? PW_BLOCKSIZE)%nat then block_sum a
  else
    match depth with
    | O => block_sum a
    | S depth =>
        let n2 := (n / 2)%nat in
        let n2 := (n2 - n2 mod 8)%nat in
        (pairwise_sum depth (firstn n2 a) + pairwise_sum depth (skipn n2 a))%float
    end.

(** [numpy.sum] of a list of floats: the reduction starts from the
    identity [0.0] and adds the pairwise sum of the array to it. *)
Definition np_sum (l : list float) : float :=
  (0 + pairwise_sum (length l) l)%float.

(** [numpy.mean] of a list of floats: the sum divided by the number of
    elements. *)
Definition np_mean (l : list float) : float :=
  (np_sum l / float_of_Z (Z.of_nat (length l)))%float.

(** Python slicing [l[i:j]] with its treatment of negative and
    out-of-range bounds. *)
Definition slice_index (n i : Z) : nat :=
  Z.to_nat (Z.max 0 (Z.min n (if (i <? 0)%Z then i + n else i))).

Definition py_slice {A} (l : list A) (i j : Z) : list A :=
  let n := Z.of_nat (length l) in
  let lo := slice_index n i in
  let hi := slice_index n j in
  firstn (hi - lo) (skipn lo l).

(** [int(x)] on a float: truncation towards zero; [None] for NaN and
    the infinities, where Python raises. *)
Definition int_of_float (x : float) : option Z :=
  match Prim2SF x with
  | S754_zero _ => Some 0%Z
  | S754_finite s m e =>
      let a := match e with
               | Zneg p => Z.shiftr (Zpos m) (Zpos p)
               | _ => Z.shiftl (Zpos m) e
               end in
      Some (if s then (- a)%Z else a)
  | _ => None
  end.

(** Decimal rendering of an [int]. *)
Definition str_of_Z (z : Z) : string :=
  DecimalString.NilZero.string_of_int (Z.to_int z).

(** [f"{x:.1%}"]: [x * 100] with one digit after the point, rounded
    half-to-even on the exact binary value, followed by a percent sign. *)
Definition format_pct1 (x : float) : string :=
  match Prim2SF (x * 100)%float with
  | S754_nan => "nan%"
  | S754_infinity s => if s then "-inf%" else "inf%"
  | S754_zero s => if s then "-0.0%" else "0.0%"
  | S754_finite s m e =>
      let num := match e with Zneg _ => (Zpos m * 10)%Z | _ => (Zpos m * 10 * 2 ^ e)%Z end in
      let den := match e with Zneg p => (2 ^ Zpos p)%Z | _ => 1%Z end in
      let q := (num / den)%Z in
      let r := (num mod den)%Z in
      let q := match (2 * r ?= den)%Z with
               | Lt => q
               | Gt => (q + 1)%Z
               | Eq => if Z.even q then q else (q + 1)%Z
               end in
      (if s then "-" else "") +:+ str_of_Z (q / 10) +:+ "." +:+ str_of_Z (q mod 10) +:+ "%"
  end.

(** [numpy.argmax] of a list of floats: the index of the first NaN if
    there is one, of the first largest element otherwise; [None] on the
    empty list, where numpy raises. *)
Fixpoint argmax_from (mp : float) (max_ind i : nat) (l : list float) : nat :=
  match l with
  | [] => max_ind
  | x :: rest =>
      if negb (x <=? mp)%float then
        if is_nan x then i else argmax_from x i (S i) rest
      else argmax_from mp max_ind (S i) rest
  end.

Definition np_argmax (l : list float) : option nat :=
  match l with
  | [] => None
  | x :: rest => Some (if is_nan x then 0%nat else argmax_from x 0 1 rest)
  end.

End Py.
Import Py.

(** ** Shared data contract *)

(** A detection of the object detector: bounding box [(x1, y1, x2, y2)],
    class name and confidence. *)
Record Detection : Type := {
  bbox : Z * Z * Z * Z;
  class : string;
  confidence : float
}.

(** A segmentation result; the mask itself is never read. *)
Record SegmentationResult : Type := {
  seg_bbox : Z * Z * Z * Z;
  seg_class : string;
  seg_confidence : float
}.

Record FeedbackItem : Type := {
  type : string;
  message : string;
  fb_confidence : float;
  priority : string;
  actionable : bool
}.

(** The values a preference dictionary can hold. *)
Inductive PyValue : Type :=
| PyStr (s : string)
| PyFloat (x : float)
| PyBool (b : bool)
| PyNone.

(** [user_prefs: Optional[Dict[str, Any]]]. *)
Abbreviation UserPrefs := (option (gmap string PyValue)).

(** ** rules_engine.py *)

Module RulesEngine.

Record ProportionRule : Type := {
  ideal_ratio : float;
  tolerance : float
}.

(** [self.proportion_rules], one entry per key. *)
Definition shirt_length : ProportionRule := {| ideal_ratio := 0.4; tolerance := 0.1 |}.
Definition pants_length : ProportionRule := {| ideal_ratio := 0.6; tolerance := 0.1 |}.
Definition waist_position : ProportionRule := {| ideal_ratio := 0.5; tolerance := 0.05 |}.

(** [_create_feedback]; [actionable] defaults to [True] at the call
    sites that omit it. *)
Definition _create_feedback (feedback_type message : string) (confidence : float)
    (priority : string) (actionable : bool) : FeedbackItem :=
  {| type := feedback_type;
     message := message;
     fb_confidence := confidence;
     priority := priority;
     actionable := actionable |}.

Fixpoint _find_person_detection (detections : list Detection) : option Detection :=
  match detections with
  | [] => None
  | detection :: rest =>
      if String.eqb (class detection) "person" then Some detection
      else _find_person_detection rest
  end.

(** [bbox[3] - bbox[1]]. *)
Definition bbox_height (b : Z * Z * Z * Z) : Z :=
  let '(_, y1, _, y2) := b in (y2 - y1)%Z.

(** The body of the loop of [_analyze_garment_proportions], for one
    detection, with the feedback accumulated so far. *)
Definition garment_proportions_step (person_height : Z) (detection : Detection)
    (feedback : list FeedbackItem) : result (list FeedbackItem) :=
  if str_in (class detection) ["shirt"; "pants"; "dress"] then
    let garment_bbox := bbox detection in
    let garment_height := bbox_height garment_bbox in
    garment_ratio ← true_div garment_height person_height;
    if String.eqb (class detection) "shirt" then
      let ideal_ratio := ideal_ratio shirt_length in
      let tolerance := tolerance shirt_length in
      if (abs (garment_ratio - ideal_ratio) >? tolerance)%float then
        if (garment_ratio >? ideal_ratio + tolerance)%float then
          Ok (feedback ++ [_create_feedback "proportion"
                "The shirt appears too long for your body proportions"
                0.8 "medium" true])
        else
          Ok (feedback ++ [_create_feedback "proportion"
                "The shirt appears too short for your body proportions"
                0.8 "medium" true])
      else
        Ok (feedback ++ [_create_feedback "proportion"
              "The shirt length is well-proportioned for your body"
              0.9 "low" false])
    else if String.eqb (class detection) "pants" then
      let ideal_ratio := ideal_ratio pants_length in
      let tolerance := tolerance pants_length in
      if (abs (garment_ratio - ideal_ratio) >? tolerance)%float then
        if (garment_ratio >? ideal_ratio + tolerance)%float then
          Ok (feedback ++ [_create_feedback "proportion"
                "The pants appear too long for your body proportions"
                0.8 "medium" true])
        else
          Ok (feedback ++ [_create_feedback "proportion"
                "The pants appear too short for your body proportions"
                0.8 "medium" true])
      else
        Ok (feedback ++ [_create_feedback "proportion"
              "The pants length is well-proportioned for your body"
              0.9 "low" false])
    else Ok feedback
  else Ok feedback.

Fixpoint garment_proportions_loop (person_height : Z) (detections : list Detection)
    (feedback : list FeedbackItem) : result (list FeedbackItem) :=
  match detections with
  | [] => Ok feedback
  | detection :: rest =>
      feedback ← garment_proportions_step person_height detection feedback;
      garment_proportions_loop person_height rest feedback
  end.

Definition _analyze_garment_proportions (detections : list Detection)
    (person_detection : Detection) (user_prefs : UserPrefs)
    : result (list FeedbackItem) :=
  let feedback := [] in
  let person_bbox := bbox person_detection in
  let person_height := bbox_height person_bbox in
  garment_proportions_loop person_height detections feedback.

(** [user_prefs.get("fit_preferences", "fitted") if user_prefs else "fitted"];
    an empty dictionary is falsy. *)
Definition fit_preference_of (user_prefs : UserPrefs) : PyValue :=
  match user_prefs with
  | Some prefs =>
      if bool_decide (prefs = ∅) then PyStr "fitted"
      else default (PyStr "fitted") (prefs !! "fit_preferences")
  | None => PyStr "fitted"
  end.

Definition fit_quality_step (detection : Detection) (feedback : list FeedbackItem)
    : list FeedbackItem :=
  if str_in (class detection) ["shirt"; "pants"; "dress"] then
    let confidence := confidence detection in
    if (confidence >? 0.9)%float then
      feedback ++ [_create_feedback "fit"
        ("The " +:+ class detection +:+ " appears to fit well")
        0.85 "low" false]
    else if (confidence >? 0.7)%float then
      feedback ++ [_create_feedback "fit"
        ("The " +:+ class detection +:+ " fit could be improved")
        0.75 "medium" true]
    else
      feedback ++ [_create_feedback "fit"
        ("The " +:+ class detection +:+ " doesn't appear to fit properly")
        0.65 "high" true]
  else feedback.

Definition _analyze_fit_quality (detections : list Detection)
    (person_detection : Detection) (user_prefs : UserPrefs) : list FeedbackItem :=
  let feedback := [] in
  let fit_preference := fit_preference_of user_prefs in
  fold_left (fun feedback detection => fit_quality_step detection feedback)
    detections feedback.

Definition _analyze_outfit_balance (detections : list Detection)
    (person_detection : Detection) (user_prefs : UserPrefs) : list FeedbackItem :=
  let feedback := [] in
  let garment_types :=
    map class
      (List.filter (fun det => str_in (class det) ["shirt"; "pants"; "dress"; "skirt"; "jacket"])
         detections) in
  if (2 <=? length garment_types)%nat then
    let feedback :=
      if str_in "shirt" garment_types && str_in "pants" garment_types then
        feedback ++ [_create_feedback "style"
          "Good basic outfit coordination with shirt and pants"
          0.8 "low" false]
      else if str_in "dress" garment_types then
        feedback ++ [_create_feedback "style"
          "Dress provides a cohesive, coordinated look"
          0.85 "low" false]
      else feedback in
    if str_in "jacket" garment_types then
      feedback ++ [_create_feedback "style"
        "Good use of layering with the jacket"
        0.8 "medium" false]
    else feedback
  else
    feedback ++ [_create_feedback "style"
      "Consider adding more pieces for a complete outfit"
      0.7 "medium" true].

(** The body of [analyze_proportions] inside its [try]. *)
Definition analyze_proportions_body (detections : list Detection)
    (segmentation_results : list SegmentationResult) (user_prefs : UserPrefs)
    : result (list FeedbackItem) :=
  let feedback := [] in
  match _find_person_detection detections with
  | None =>
      Ok [_create_feedback "general" "No person detected in the image" 0.5 "low" true]
  | Some person_detection =>
      garment_feedback ← _analyze_garment_proportions detections person_detection user_prefs;
      let feedback := feedback ++ garment_feedback in
      let fit_feedback := _analyze_fit_quality detections person_detection user_prefs in
      let feedback := feedback ++ fit_feedback in
      let balance_feedback := _analyze_outfit_balance detections person_detection user_prefs in
      let feedback := feedback ++ balance_feedback in
      Ok feedback
  end.

Definition analyze_proportions (detections : list Detection)
    (segmentation_results : list SegmentationResult) (user_prefs : UserPrefs)
    : list FeedbackItem :=
  match analyze_proportions_body detections segmentation_results user_prefs with
  | Ok feedback => feedback
  | Raise _ =>
      [_create_feedback "general" "Error analyzing proportions" 0.5 "low" true]
  end.

End RulesEngine.

(** ** color_service.py *)

Module ColorService.

(** One pixel of the 8-bit HSV image: hue, saturation, value. *)
Abbreviation Pixel := (Z * Z * Z)%type.

(** The decoded HSV image, as rows of pixels. *)
Abbreviation Image := (list (list Pixel)).

Record ColorSample : Type := {
  hsv : list float;
  rgb : list Z;
  hex : string
}.

(** The skin-tone dictionary; the keys ["hsv"] and ["rgb"] are present
    only when a skin tone was detected. *)
Record SkinTone : Type := {
  detected : bool;
  tone : string;
  skin_hsv : option (list float);
  skin_rgb : option (list Z)
}.

Record GarmentColor : Type := {
  garment_class : string;
  colors : list ColorSample;
  primary_color : option ColorSample
}.

(** The harmony dictionary; ["individual_scores"] is absent from the
    report returned when no skin tone was detected. *)
Record HarmonyReport : Type := {
  overall_score : float;
  individual_scores : option (list float);
  feedback : list string;
  harmony_type : string
}.

Record ColorAnalysis : Type := {
  skin_tone : SkinTone;
  garment_colors : list GarmentColor;
  harmony_analysis : HarmonyReport;
  analysis_overall_score : float
}.

(** The libraries the service calls: image decoding (PIL and OpenCV),
    k-means clustering (scikit-learn) and [colorsys].  Each returns
    [None] where the library raises. *)
Record Vision : Type := {
  (** [cv2.cvtColor(np.array(Image.open(io.BytesIO(frame))), COLOR_RGB2HSV)] *)
  decode_hsv : list Byte.byte -> option Image;
  (** [KMeans(n_clusters=3, random_state=42).fit(pixels).cluster_centers_] *)
  kmeans_centers : list Pixel -> option (list (float * float * float));
  (** [colorsys.hsv_to_rgb] *)
  colorsys_hsv_to_rgb : float -> float -> float -> option (float * float * float)
}.

(** [f"{n:02x}"]. *)
Definition format_02x (n : Z) : string :=
  let digits := HexadecimalString.NilZero.string_of_uint (N.to_hex_uint (Z.to_N (Z.abs n))) in
  if (n <? 0)%Z then "-" +:+ digits
  else if (String.length digits <? 2)%nat then "0" +:+ digits
  else digits.

Definition _rgb_to_hex (rgb : list Z) : string :=
  "#" +:+ format_02x (nth 0 rgb 0%Z) +:+ format_02x (nth 1 rgb 0%Z) +:+ format_02x (nth 2 rgb 0%Z).

Definition _classify_skin_tone (hue sat val : float) : string :=
  if (val >? 60)%float then "light"
  else if (val >? 40)%float then "medium"
  else "dark".

Definition _classify_harmony_type (score : float) : string :=
  if (score >? 0.8)%float then "excellent"
  else if (score >? 0.7)%float then "good"
  else if (score >? 0.6)%float then "neutral"
  else "poor".

Definition _generate_color_feedback (skin_tone garment_class : string)
    (harmony_score : float) : string :=
  if (harmony_score >? 0.8)%float then
    "The " +:+ garment_class +:+ " color works beautifully with your " +:+ skin_tone +:+ " skin tone"
  else if (harmony_score >? 0.7)%float then
    "The " +:+ garment_class +:+ " color complements your " +:+ skin_tone +:+ " skin tone well"
  else if (harmony_score >? 0.6)%float then
    "The " +:+ garment_class +:+ " color is acceptable with your " +:+ skin_tone +:+ " skin tone"
  else
    "Consider a different color for the " +:+ garment_class +:+
    " to better complement your " +:+ skin_tone +:+ " skin tone".

(** [_calculate_harmony_score]; unpacking a list that does not have
    three elements raises, and the handler returns [0.7]. *)
Definition _calculate_harmony_score (color1_hsv color2_hsv : list float) : float :=
  match color1_hsv, color2_hsv with
  | [h1; s1; v1], [h2; s2; v2] =>
      let hue_diff := abs (h1 - h2) in
      let hue_diff := if (hue_diff >? 180)%float then (360 - hue_diff)%float else hue_diff in
      let sat_diff := (abs (s1 - s2) / 255.0)%float in
      let val_diff := (abs (v1 - v2) / 255.0)%float in
      let harmony_score :=
        if (hue_diff <=? 30)%float then 0.9%float
        else if (abs (hue_diff - 180) <=? 30)%float then 0.8%float
        else if (abs (hue_diff - 120) <=? 30)%float then 0.7%float
        else 0.5%float in
      let harmony_score :=
        if (sat_diff <? 0.3)%float && (val_diff <? 0.3)%float
        then (harmony_score + 0.1)%float else harmony_score in
      py_min harmony_score 1.0
  | _, _ => 0.7%float
  end.

(** The loop of [_analyze_color_harmony] over the garments, threading
    the two lists it appends to. *)
Definition color_harmony_step (skin_tone : SkinTone) (skin_hsv : list float)
    (acc : list float * list string) (garment : GarmentColor)
    : list float * list string :=
  let '(harmony_scores, feedback) := acc in
  match primary_color garment with
  | Some primary =>
      let garment_hsv := hsv primary in
      let harmony_score := _calculate_harmony_score skin_hsv garment_hsv in
      let harmony_scores := harmony_scores ++ [harmony_score] in
      let garment_feedback :=
        _generate_color_feedback (tone skin_tone) (garment_class garment) harmony_score in
      (harmony_scores, feedback ++ [garment_feedback])
  | None => (harmony_scores, feedback)
  end.

Definition _analyze_color_harmony (skin_tone : SkinTone)
    (garment_colors : list GarmentColor) : HarmonyReport :=
  if negb (detected skin_tone) then
    {| overall_score := 0.5;
       individual_scores := None;
       feedback := ["Unable to detect skin tone for color analysis"];
       harmony_type := "unknown" |}
  else
    let skin_hsv := default [0; 0; 0]%float (skin_hsv skin_tone) in
    let '(harmony_scores, feedback) :=
      fold_left (color_harmony_step skin_tone skin_hsv) garment_colors ([], []) in
    let overall_score :=
      match harmony_scores with [] => 0.7%float | _ => np_mean harmony_scores end in
    {| overall_score := overall_score;
       individual_scores := Some harmony_scores;
       feedback := feedback;
       harmony_type := _classify_harmony_type overall_score |}.

Definition _mock_color_analysis : ColorAnalysis :=
  let sample := {| hsv := [210; 80; 90]%float; rgb := [46; 92; 230]%Z; hex := "#2e5ce6" |} in
  {| skin_tone := {| detected := true; tone := "medium";
                     skin_hsv := Some [15; 60; 70]%float;
                     skin_rgb := Some [179; 143; 89]%Z |};
     garment_colors := [ {| garment_class := "shirt"; colors := [sample];
                            primary_color := Some sample |} ];
     harmony_analysis :=
       {| overall_score := 0.75;
          individual_scores := Some [0.75%float];
          feedback := ["The shirt color complements your medium skin tone well"];
          harmony_type := "good" |};
     analysis_overall_score := 0.75 |}.

Section WithVision.

Variable vision : Vision.

(** [_hsv_to_rgb]; any exception yields [[0, 0, 0]]. *)
Definition _hsv_to_rgb (h s v : float) : list Z :=
  match colorsys_hsv_to_rgb vision (h / 360) (s / 255) (v / 255) with
  | Some (r, g, b) =>
      match int_of_float (r * 255), int_of_float (g * 255), int_of_float (b * 255) with
      | Some r, Some g, Some b => [r; g; b]
      | _, _, _ => [0; 0; 0]%Z
      end
  | None => [0; 0; 0]%Z
  end.

(** [cv2.inRange(hsv_image, [0, 20, 20], [30, 255, 255])] on one pixel. *)
Definition in_skin_range (p : Pixel) : bool :=
  let '(h, s, v) := p in
  ((0 <=? h) && (h <=? 30) && (20 <=? s) && (s <=? 255) && (20 <=? v) && (v <=? 255))%Z.

(** [hsv_image[skin_mask > 0]]: the matching pixels in row-major order. *)
Definition skin_pixels_of (hsv_image : Image) : list Pixel :=
  List.filter in_skin_range (concat hsv_image).

(** [_analyze_skin_tone]; each mean is over one channel of the
    matching pixels, converted to doubles.  The channel values are
    integers from 0 to 255, whose partial sums are exact in binary64 in
    whatever order numpy adds them (up to [2^45] pixels). *)
Definition _analyze_skin_tone (hsv_image : Image) : SkinTone :=
  let skin_pixels := skin_pixels_of hsv_image in
  if (length skin_pixels =? 0)%nat then
    {| detected := false; tone := "unknown"; skin_hsv := None; skin_rgb := None |}
  else
    let avg_hue := np_mean (map (fun p => float_of_Z (fst (fst p))) skin_pixels) in
    let avg_sat := np_mean (map (fun p => float_of_Z (snd (fst p))) skin_pixels) in
    let avg_val := np_mean (map (fun p => float_of_Z (snd p)) skin_pixels) in
    let skin_tone := _classify_skin_tone avg_hue avg_sat avg_val in
    {| detected := true;
       tone := skin_tone;
       skin_hsv := Some [avg_hue; avg_sat; avg_val];
       skin_rgb := Some (_hsv_to_rgb avg_hue avg_sat avg_val) |}.

(** [_extract_dominant_colors]; an exception of the clustering yields
    the empty list. *)
Definition _extract_dominant_colors (image_region : Image) : list ColorSample :=
  let pixels := concat image_region in
  match kmeans_centers vision pixels with
  | Some cluster_centers =>
      map (fun center : float * float * float =>
             let '(h, s, v) := center in
             let rgb := _hsv_to_rgb h s v in
             {| hsv := [h; s; v]; rgb := rgb; hex := _rgb_to_hex rgb |})
          cluster_centers
  | None => []
  end.

(** [_analyze_garment_colors]: one entry per segmentation result. *)
Definition _analyze_garment_colors (hsv_image : Image)
    (segmentation_results : list SegmentationResult) : list GarmentColor :=
  fold_left
    (fun garment_colors seg_result =>
       let bbox := seg_bbox seg_result in
       let '(x1, y1, x2, y2) := bbox in
       let garment_region := map (fun row => py_slice row x1 x2) (py_slice hsv_image y1 y2) in
       let dominant_colors := _extract_dominant_colors garment_region in
       garment_colors ++
         [ {| garment_class := seg_class seg_result;
              colors := dominant_colors;
              primary_color := head dominant_colors |} ])
    segmentation_results [].

(** [analyze_colors]; a frame that cannot be decoded yields the mock
    analysis. *)
Definition analyze_colors (frame : list Byte.byte)
    (segmentation_results : list SegmentationResult) : ColorAnalysis :=
  match decode_hsv vision frame with
  | Some hsv_image =>
      let skin_tone := _analyze_skin_tone hsv_image in
      let garment_colors := _analyze_garment_colors hsv_image segmentation_results in
      let harmony_analysis := _analyze_color_harmony skin_tone garment_colors in
      {| skin_tone := skin_tone;
         garment_colors := garment_colors;
         harmony_analysis := harmony_analysis;
         analysis_overall_score := overall_score harmony_analysis |}
  | None => _mock_color_analysis
  end.

End WithVision.

End ColorService.

(** ** clip_service.py *)

Module CLIPService.

Abbreviation Embedding := (list float).

(** What [encode_image] is called with: the frame bytes (from
    [match_style]) or a URL string (from the profile methods). *)
Inductive ImageInput : Type :=
| InBytes (b : list Byte.byte)
| InStr (s : string).

(** The loaded model with the numeric routines applied to its output;
    [None] where the library call raises. *)
Record CLIPModel : Type := {
  (** fetching or opening the image, preprocessing, [get_image_features] *)
  get_image_features : string -> option Embedding;
  (** [np.dot(e1 / np.linalg.norm(e1), e2 / np.linalg.norm(e2))] *)
  normalized_dot : Embedding -> Embedding -> option float
}.

Record t : Type := { model : option CLIPModel }.

Definition _mock_embedding : Embedding := repeat 0.1%float 512.

Definition _mock_similarity : float := 0.75.

(** [encode_image]; every exception yields the mock embedding.  On
    [bytes] the test [image_input.startswith('http')] raises
    [TypeError]. *)
Definition encode_image (self : t) (image_input : ImageInput) : Embedding :=
  match model self with
  | None => _mock_embedding
  | Some m =>
      match image_input with
      | InBytes _ => _mock_embedding
      | InStr s => default _mock_embedding (get_image_features m s)
      end
  end.

Definition compute_image_similarity (self : t)
    (image_embedding1 image_embedding2 : Embedding) : float :=
  match model self with
  | None => _mock_similarity
  | Some m => default _mock_similarity (normalized_dot m image_embedding1 image_embedding2)
  end.

(** The dictionary returned by [find_most_similar]. *)
Record MostSimilar : Type := {
  best_index : Z;
  best_similarity : float;
  all_similarities : list float
}.

Definition _mock_most_similar : MostSimilar :=
  {| best_index := 0;
     best_similarity := 0.85;
     all_similarities := [0.85; 0.72; 0.68; 0.91; 0.63]%float |}.

(** [find_most_similar]; [np.argmax] raises on an empty list and the
    handler returns the mock result. *)
Definition find_most_similar (self : t) (query_embedding : Embedding)
    (candidate_embeddings : list Embedding) : MostSimilar :=
  match model self with
  | None => _mock_most_similar
  | Some _ =>
      let similarities :=
        map (fun candidate => compute_image_similarity self query_embedding candidate)
            candidate_embeddings in
      match np_argmax similarities with
      | Some best_idx =>
          {| best_index := Z.of_nat best_idx;
             best_similarity := nth best_idx similarities nan;
             all_similarities := similarities |}
      | None => _mock_most_similar
      end
  end.

End CLIPService.

(** ** style_engine.py *)

Module StyleEngine.

Import CLIPService.

(** The engine's fields; [clip_service] is [None] until [initialize]. *)
Record t : Type := {
  clip_service : option CLIPService.t;
  style_cache : gmap string (list Embedding);
  similarity_threshold : float
}.

Definition __init__ : t :=
  {| clip_service := None; style_cache := ∅; similarity_threshold := 0.7 |}.

Definition initialize (self : t) (clip_service : CLIPService.t) : t :=
  {| clip_service := Some clip_service;
     style_cache := style_cache self;
     similarity_threshold := similarity_threshold self |}.

Definition set_cache (self : t) (cache : gmap string (list Embedding)) : t :=
  {| clip_service := clip_service self;
     style_cache := cache;
     similarity_threshold := similarity_threshold self |}.

Definition _create_style_feedback (message : string) (confidence : float)
    (priority : string) : FeedbackItem :=
  {| type := "style";
     message := message;
     fb_confidence := confidence;
     priority := priority;
     actionable := true |}.

(** [get_style_embeddings]: the cached list, or three mock embeddings
    that are cached on the way. *)
Definition get_style_embeddings (self : t) (style_id : string) : list Embedding * t :=
  match style_cache self !! style_id with
  | Some embeddings => (embeddings, self)
  | None =>
      let mock_embeddings :=
        [repeat 0.1%float 512; repeat 0.2%float 512; repeat 0.15%float 512] in
      (mock_embeddings, set_cache self (<[style_id := mock_embeddings]> (style_cache self)))
  end.

(** [self.clip_service.<method>]: an [AttributeError] on [None]. *)
Definition the_clip_service (self : t) : result CLIPService.t :=
  match clip_service self with
  | Some clip => Ok clip
  | None => Raise AttributeError
  end.

Definition garment_style_step (clip : CLIPService.t) (style_embeddings : list Embedding)
    (feedback : list FeedbackItem) (seg_result : SegmentationResult) : list FeedbackItem :=
  let garment_class := seg_class seg_result in
  let bbox := seg_bbox seg_result in
  let garment_embedding := repeat 0.1%float 512 in
  let similarities := map (compute_image_similarity clip garment_embedding) style_embeddings in
  let avg_similarity :=
    match similarities with [] => 0.0%float | _ => np_mean similarities end in
  if (avg_similarity >? 0.8)%float then
    feedback ++ [_create_style_feedback
      ("The " +:+ garment_class +:+ " perfectly matches your reference style")
      avg_similarity "medium"]
  else if (avg_similarity >? 0.6)%float then
    feedback ++ [_create_style_feedback
      ("The " +:+ garment_class +:+ " works well with your reference style")
      avg_similarity "low"]
  else
    feedback ++ [_create_style_feedback
      ("Consider a different " +:+ garment_class +:+ " to better match your reference style")
      avg_similarity "high"].

Definition _analyze_garment_style_match (clip : CLIPService.t)
    (frame : list Byte.byte) (segmentation_results : list SegmentationResult)
    (style_embeddings : list Embedding) : list FeedbackItem :=
  fold_left (garment_style_step clip style_embeddings) segmentation_results [].

(** The body of [match_style] inside its [try]; the cache update made
    by [get_style_embeddings] survives an exception raised after it. *)
Definition match_style_body (self : t) (frame : list Byte.byte)
    (segmentation_results : list SegmentationResult) (style_id : string)
    : result (list FeedbackItem) * t :=
  let '(style_embeddings, self) := get_style_embeddings self style_id in
  match style_embeddings with
  | [] => (Ok [_create_style_feedback "No reference style found" 0.0 "low"], self)
  | _ =>
      (clip ← the_clip_service self;
       let frame_embedding := encode_image clip (InBytes frame) in
       let similarities :=
         map (fun ref_embedding => compute_image_similarity clip frame_embedding ref_embedding)
             style_embeddings in
       let best_similarity :=
         match similarities with [] => 0.0%float | _ => py_max similarities end in
       let avg_similarity :=
         match similarities with [] => 0.0%float | _ => np_mean similarities end in
       let feedback :=
         if (best_similarity >? similarity_threshold self)%float then
           [_create_style_feedback
              ("Excellent style match! This outfit closely resembles your reference style ("
               +:+ format_pct1 best_similarity +:+ " similarity)")
              best_similarity "high"]
         else if (avg_similarity >? 0.5)%float then
           [_create_style_feedback
              ("Good style alignment. Your outfit has " +:+ format_pct1 avg_similarity
               +:+ " similarity with your reference style")
              avg_similarity "medium"]
         else
           [_create_style_feedback
              ("Consider adjusting your outfit to better match your reference style (current similarity: "
               +:+ format_pct1 avg_similarity +:+ ")")
              avg_similarity "high"] in
       match segmentation_results with
       | [] => Ok feedback
       | _ =>
           let garment_feedback :=
             _analyze_garment_style_match clip frame segmentation_results style_embeddings in
           Ok (feedback ++ garment_feedback)
       end,
       self)
  end.

Definition match_style (self : t) (frame : list Byte.byte)
    (segmentation_results : list SegmentationResult) (style_id : string)
    : list FeedbackItem * t :=
  match match_style_body self frame segmentation_results style_id with
  | (Ok feedback, self) => (feedback, self)
  | (Raise _, self) => ([_create_style_feedback "Style matching unavailable" 0.0 "low"], self)
  end.

(** The embedding loop shared by [create_style_profile] and
    [update_style_profile]. *)
Fixpoint encode_all (self : t) (image_urls : list string) (embeddings : list Embedding)
    : result (list Embedding) :=
  match image_urls with
  | [] => Ok embeddings
  | url :: rest =>
      clip ← the_clip_service self;
      let embedding := encode_image clip (InStr url) in
      encode_all self rest (embeddings ++ [embedding])
  end.

(** [create_style_profile].  [uuid_hex] is the hexadecimal form of the
    identifier drawn by [uuid.uuid4()] and [now] the value of
    [int(time.time())]; the boolean tells whether the [try] block
    completed. *)
Definition create_style_profile (self : t) (uuid_hex : string) (now : Z)
    (image_urls tags : list string) (description : option string)
    : string * bool * t :=
  let style_id := "style_" +:+ substring 0 8 uuid_hex in
  match encode_all self image_urls [] with
  | Ok embeddings =>
      (style_id, true, set_cache self (<[style_id := embeddings]> (style_cache self)))
  | Raise _ => ("style_" +:+ str_of_Z now, false, self)
  end.

Definition update_style_profile (self : t) (style_id : string)
    (new_image_urls : list string) (new_tags : option (list string)) : bool * t :=
  match encode_all self new_image_urls [] with
  | Ok new_embeddings =>
      match style_cache self !! style_id with
      | Some embeddings =>
          (true, set_cache self (<[style_id := embeddings ++ new_embeddings]> (style_cache self)))
      | None =>
          (true, set_cache self (<[style_id := new_embeddings]> (style_cache self)))
      end
  | Raise _ => (false, self)
  end.

Definition delete_style_profile (self : t) (style_id : string) : bool * t :=
  match style_cache self !! style_id with
  | Some _ => (true, set_cache self (delete style_id (style_cache self)))
  | None => (true, self)
  end.

(** [compute_similarity]: the mean similarity of the frame to the
    reference embeddings; [0.0] without references and on any exception. *)
Definition compute_similarity (self : t) (frame : list Byte.byte)
    (style_embeddings : list Embedding) : float :=
  match style_embeddings with
  | [] => 0.0%float
  | _ =>
      match the_clip_service self with
      | Ok clip =>
          let frame_embedding := encode_image clip (InBytes frame) in
          let similarities :=
            map (fun style_embedding =>
                   compute_image_similarity clip frame_embedding style_embedding)
                style_embeddings in
          match similarities with [] => 0.0%float | _ => np_mean similarities end
      | Raise _ => 0.0%float
      end
  end.

End StyleEngine.

(** ** Binary64 numbers as scaled integers *)

Module Binary64.

Local Open Scope Z_scope.

(** The value of a finite number, scaled by [2^1074] so that it is an
    integer. *)
Definition SFZ (x : spec_float) : Z :=
  match x with
  | S754_finite s m e => cond_Zopp s (Zpos m * 2 ^ (e + 1074))
  | _ => 0
  end.

Definition SFfinite (x : spec_float) : bool :=
  match x with
  | S754_zero _ | S754_finite _ _ _ => true
  | _ => false
  end.

(** The value a rounded mantissa [m1] at exponent [F] is packed into. *)
Definition pack (sx : bool) (m1 F : Z) : spec_float :=
  if m1 =? 0 then S754_zero sx
  else if m1 =? 2 ^ 53 then
    if F + 1 <=? 971 then S754_finite sx (Z.to_pos (2 ^ 52)) (F + 1) else S754_infinity sx
  else
    if F <=? 971 then S754_finite sx (Z.to_pos m1) F else S754_infinity sx.

(** The numbers 180 and 360. *)
Definition sf180 : spec_float := S754_finite false 6333186975989760 (-45).

Definition sf360 : spec_float := S754_finite false 6333186975989760 (-44).

(** The exact value of a finite number, in units of [2^-1074]. *)
Definition exact (x : float) : Z := SFZ (Prim2SF x).

(** The exact sum of a list of finite numbers, in the same units. *)
Definition exact_sum (l : list float) : Z :=
  fold_right (fun x s => exact x + s) 0 l.

(** [summed l s]: the number [s] results from adding the elements of
    [l], each once, in some order and some grouping. *)
Inductive summed : list float -> float -> Prop :=
| summed_one x : summed [x] x
| summed_add l1 l2 x y :
    summed l1 x -> summed l2 y -> summed (l1 ++ l2) (x + y)%float
| summed_perm l l' x : Permutation l l' -> summed l x -> summed l' x.

(** Zero or a positive finite number. *)
Definition SFnonneg (x : spec_float) : bool :=
  match x with
  | S754_zero _ | S754_finite false _ _ => true
  | _ => false
  end.

(** [x] is a non-negative finite number not above the integer [k]. *)
Definition nonneg_le (x : float) (k : Z) : Prop :=
  match Prim2SF x with
  | S754_zero _ => True
  | S754_finite false m e => Zpos m * 2 ^ (e + 1074) <= k * 2 ^ 1074
  | _ => False
  end.

End Binary64.

(** ** The design document's reading of the rules *)

Module Design.

Import RulesEngine.

(** The three outcomes of a proportion check. *)
Inductive ProportionVerdict : Set :=
| TooLong
| TooShort
| WellProportioned.

(** A violation is a deviation from the ideal ratio strictly greater
    than the tolerance; it is "too long" above [ideal + tolerance] and
    "too short" otherwise. *)
Definition proportion_verdict (rule : ProportionRule) (ratio : float) : ProportionVerdict :=
  if (tolerance rule <? abs (ratio - ideal_ratio rule))%float then
    if (ideal_ratio rule + tolerance rule <? ratio)%float then TooLong else TooShort
  else WellProportioned.

Definition proportion_message (garment : string) (v : ProportionVerdict) : string :=
  if String.eqb garment "shirt" then
    match v with
    | TooLong => "The shirt appears too long for your body proportions"
    | TooShort => "The shirt appears too short for your body proportions"
    | WellProportioned => "The shirt length is well-proportioned for your body"
    end
  else
    match v with
    | TooLong => "The pants appear too long for your body proportions"
    | TooShort => "The pants appear too short for your body proportions"
    | WellProportioned => "The pants length is well-proportioned for your body"
    end.

(** Violations: confidence 0.8, medium, actionable.  Within tolerance:
    confidence 0.9, low, not actionable. *)
Definition proportion_item (garment : string) (v : ProportionVerdict) : FeedbackItem :=
  match v with
  | WellProportioned =>
      {| type := "proportion"; message := proportion_message garment v;
         fb_confidence := 0.9; priority := "low"; actionable := false |}
  | _ =>
      {| type := "proportion"; message := proportion_message garment v;
         fb_confidence := 0.8; priority := "medium"; actionable := true |}
  end.

(** The rule that applies to a garment class, if any. *)
Definition rule_of (garment : string) : option ProportionRule :=
  if String.eqb garment "shirt" then Some shirt_length
  else if String.eqb garment "pants" then Some pants_length
  else None.

(** Garment height over person height. *)
Definition garment_ratio (person_detection detection : Detection) : result float :=
  true_div (bbox_height (bbox detection)) (bbox_height (bbox person_detection)).

(** The classes whose height is measured against the person's. *)
Definition is_sized_garment (detection : Detection) : bool :=
  str_in (class detection) ["shirt"; "pants"; "dress"].

(** What one detection contributes to the proportion feedback. *)
Definition proportion_feedback_of (person_detection detection : Detection)
    : list FeedbackItem :=
  match rule_of (class detection), garment_ratio person_detection detection with
  | Some rule, Ok ratio =>
      [proportion_item (class detection) (proportion_verdict rule ratio)]
  | _, _ => []
  end.

(** The three fit tiers. *)
Inductive FitTier : Set :=
| FitsWell
| CouldBeImproved
| DoesNotFit.

(** The tier as the code assigns it. *)
Definition fit_tier (confidence : float) : FitTier :=
  if (0.9 <? confidence)%float then FitsWell
  else if (0.7 <? confidence)%float then CouldBeImproved
  else DoesNotFit.

(** The tier as the document words it: above 0.9, from 0.7 to 0.9 with
    both ends, below 0.7. *)
Definition documented_fit_tier (confidence : float) : option FitTier :=
  if (0.9 <? confidence)%float then Some FitsWell
  else if (0.7 <=? confidence)%float && (confidence <=? 0.9)%float then Some CouldBeImproved
  else if (confidence <? 0.7)%float then Some DoesNotFit
  else None.

Definition fit_item (garment : string) (t : FitTier) : FeedbackItem :=
  match t with
  | FitsWell =>
      {| type := "fit"; message := "The " +:+ garment +:+ " appears to fit well";
         fb_confidence := 0.85; priority := "low"; actionable := false |}
  | CouldBeImproved =>
      {| type := "fit"; message := "The " +:+ garment +:+ " fit could be improved";
         fb_confidence := 0.75; priority := "medium"; actionable := true |}
  | DoesNotFit =>
      {| type := "fit"; message := "The " +:+ garment +:+ " doesn't appear to fit properly";
         fb_confidence := 0.65; priority := "high"; actionable := true |}
  end.

(** The fashion vocabulary of the balance analysis. *)
Definition vocabulary : list string := ["shirt"; "pants"; "dress"; "skirt"; "jacket"].

(** The vocabulary classes detected, one per detection. *)
Definition garment_types_of (detections : list Detection) : list string :=
  map class (List.filter (fun det => str_in (class det) vocabulary) detections).

(** The number of distinct vocabulary classes detected. *)
Definition distinct_classes (detections : list Detection) : nat :=
  size (list_to_set (garment_types_of detections) : gset string).

Definition shirt_pants_reward : FeedbackItem :=
  {| type := "style"; message := "Good basic outfit coordination with shirt and pants";
     fb_confidence := 0.8; priority := "low"; actionable := false |}.

Definition dress_reward : FeedbackItem :=
  {| type := "style"; message := "Dress provides a cohesive, coordinated look";
     fb_confidence := 0.85; priority := "low"; actionable := false |}.

Definition jacket_reward : FeedbackItem :=
  {| type := "style"; message := "Good use of layering with the jacket";
     fb_confidence := 0.8; priority := "medium"; actionable := false |}.

Definition add_more_pieces : FeedbackItem :=
  {| type := "style"; message := "Consider adding more pieces for a complete outfit";
     fb_confidence := 0.7; priority := "medium"; actionable := true |}.

(** *** Colour harmony *)

Import ColorService.

(** The hue distance the source computes in line: the absolute
    difference, replaced by its complement to 360 when above 180. *)
Definition hue_distance (h1 h2 : float) : float :=
  let hue_diff := abs (h1 - h2) in
  if (hue_diff >? 180)%float then (360 - hue_diff)%float else hue_diff.

(** The rest of the source's computation, from the hue distance and the
    normalised saturation and value differences. *)
Definition harmony_score_of (hue_diff sat_diff val_diff : float) : float :=
  let harmony_score :=
    if (hue_diff <=? 30)%float then 0.9%float
    else if (abs (hue_diff - 180) <=? 30)%float then 0.8%float
    else if (abs (hue_diff - 120) <=? 30)%float then 0.7%float
    else 0.5%float in
  let harmony_score :=
    if (sat_diff <? 0.3)%float && (val_diff <? 0.3)%float
    then (harmony_score + 0.1)%float else harmony_score in
  py_min harmony_score 1.0.

(** The document's circular distance: [min(d, 360 - d)] for
    [d = |h1 - h2|]. *)
Definition circular_hue_distance (h1 h2 : float) : float :=
  let d := abs (h1 - h2) in
  py_min d (360 - d).

(** The document's tiers: analogous, complementary, triadic, neutral. *)
Definition base_harmony_score (d : float) : float :=
  if (d <=? 30)%float then 0.9
  else if (abs (d - 180) <=? 30)%float then 0.8
  else if (abs (d - 120) <=? 30)%float then 0.7
  else 0.5.

(** The document's pairwise score: the tier of the circular distance,
    plus 0.1 when both normalised differences are below 0.3, clamped
    to 1.0. *)
Definition documented_harmony_score (c1 c2 : float * float * float) : float :=
  let '(h1, s1, v1) := c1 in
  let '(h2, s2, v2) := c2 in
  let base := base_harmony_score (circular_hue_distance h1 h2) in
  let close :=
    (abs (s1 - s2) / 255 <? 0.3)%float && (abs (v1 - v2) / 255 <? 0.3)%float in
  py_min (if close then base + 0.1 else base)%float 1.0.

(** The pairwise scores of the skin tone against the primary colour of
    each garment that has one. *)
Definition pairwise_scores (skin_tone : SkinTone) (garment_colors : list GarmentColor)
    : list float :=
  let skin_hsv := default [0; 0; 0]%float (skin_hsv skin_tone) in
  flat_map
    (fun garment =>
       match primary_color garment with
       | Some primary => [_calculate_harmony_score skin_hsv (hsv primary)]
       | None => []
       end)
    garment_colors.

(** The per-garment feedback strings, in the same order. *)
Definition pairwise_feedback (skin_tone : SkinTone) (garment_colors : list GarmentColor)
    : list string :=
  let skin_hsv := default [0; 0; 0]%float (skin_hsv skin_tone) in
  flat_map
    (fun garment =>
       match primary_color garment with
       | Some primary =>
           [_generate_color_feedback (tone skin_tone) (garment_class garment)
              (_calculate_harmony_score skin_hsv (hsv primary))]
       | None => []
       end)
    garment_colors.

(** A score in [[0, 1]]. *)
Definition in_unit (x : float) : Prop :=
  (0 <=? x)%float = true /\ (x <=? 1)%float = true.

(** The report of an undetected skin tone. *)
Definition undetected_report : HarmonyReport :=
  {| overall_score := 0.5;
     individual_scores := None;
     feedback := ["Unable to detect skin tone for color analysis"];
     harmony_type := "unknown" |}.

(** The garment entry computed for one segmentation result. *)
Definition garment_entry (vision : Vision) (hsv_image : Image)
    (seg_result : SegmentationResult) : GarmentColor :=
  let '(x1, y1, x2, y2) := seg_bbox seg_result in
  let garment_region := map (fun row => py_slice row x1 x2) (py_slice hsv_image y1 y2) in
  let dominant_colors := _extract_dominant_colors vision garment_region in
  {| garment_class := seg_class seg_result;
     colors := dominant_colors;
     primary_color := head dominant_colors |}.

(** A sample frame without skin-coloured pixels: a 2x2 patch of blue,
    with libraries that decode it, cluster it and convert no colour. *)
Definition blue_patch : Image :=
  [ [(120, 200, 200); (120, 200, 200)]; [(120, 200, 200); (118, 190, 210)] ]%Z.

Definition sample_vision : Vision :=
  {| decode_hsv := fun _ => Some blue_patch;
     kmeans_centers := fun pixels =>
       if (length pixels <? 3)%nat then None
       else Some [(120, 200, 200); (118, 190, 210); (120, 200, 200)]%float;
     colorsys_hsv_to_rgb := fun _ _ _ => None |}.

Definition sample_segmentation : list SegmentationResult :=
  [ {| seg_bbox := (0, 0, 2, 2)%Z; seg_class := "shirt"; seg_confidence := 0.87 |} ].

(** *** Style matching *)

Definition no_reference_style : FeedbackItem :=
  {| type := "style"; message := "No reference style found";
     fb_confidence := 0.0; priority := "low"; actionable := true |}.

(** An engine whose CLIP service runs without a model. *)
Definition mock_engine : StyleEngine.t :=
  StyleEngine.initialize StyleEngine.__init__ {| CLIPService.model := None |}.

(** The detections of [YOLOService._mock_detection], used as a sample
    frame. *)
Definition mock_person : Detection :=
  {| bbox := (100, 100, 300, 400)%Z; class := "person"; confidence := 0.95 |}.

Definition mock_detections : list Detection :=
  [ mock_person;
    {| bbox := (120, 150, 280, 350)%Z; class := "shirt"; confidence := 0.87 |};
    {| bbox := (130, 350, 270, 500)%Z; class := "pants"; confidence := 0.82 |} ].

(** *** Items of the error and edge paths *)

Definition no_person_item : FeedbackItem :=
  {| type := "general"; message := "No person detected in the image";
     fb_confidence := 0.5; priority := "low"; actionable := true |}.

Definition proportions_error_item : FeedbackItem :=
  {| type := "general"; message := "Error analyzing proportions";
     fb_confidence := 0.5; priority := "low"; actionable := true |}.

Definition style_unavailable : FeedbackItem :=
  {| type := "style"; message := "Style matching unavailable";
     fb_confidence := 0.0; priority := "low"; actionable := true |}.

(** The values the response schema ([schemas/analysis.py]) lists for
    the type and the priority of a feedback item. *)
Definition feedback_types : list string :=
  ["proportion"; "color"; "style"; "fit"; "general"].

Definition priorities : list string := ["high"; "medium"; "low"].

Definition conforms (item : FeedbackItem) : bool :=
  str_in (type item) feedback_types && str_in (priority item) priorities.

(** The four harmony types, from worst to best. *)
Definition harmony_rank (harmony_type : string) : nat :=
  if String.eqb harmony_type "excellent" then 3
  else if String.eqb harmony_type "good" then 2
  else if String.eqb harmony_type "neutral" then 1
  else 0.

(** The three mock references of [get_style_embeddings]. *)
Definition mock_references : list CLIPService.Embedding :=
  [repeat 0.1%float 512; repeat 0.2%float 512; repeat 0.15%float 512].

(** The embeddings computed for a list of image URLs. *)
Definition encoded_urls (clip : CLIPService.t) (image_urls : list string)
    : list CLIPService.Embedding :=
  map (fun url => CLIPService.encode_image clip (CLIPService.InStr url)) image_urls.

(** An item of one of the three analyses of the rules engine: of a
    type other than "general", with a type and a priority of the
    schema and a confidence from 0.5 to 0.9. *)
Definition analysis_item (item : FeedbackItem) : bool :=
  negb (String.eqb (type item) "general") && conforms item
  && (0.5 <=? fb_confidence item)%float && (fb_confidence item <=? 0.9)%float.

(** A sample frame with three skin-coloured pixels, and libraries that
    decode it. *)
Definition skin_patch : Image :=
  [ [(12, 90, 180); (14, 100, 170)]; [(120, 200, 200); (10, 95, 175)] ]%Z.

Definition skin_vision : Vision :=
  {| decode_hsv := fun _ => Some skin_patch;
     kmeans_centers := kmeans_centers sample_vision;
     colorsys_hsv_to_rgb := fun _ _ _ => None |}.

(** Whether a garment entry has a primary colour. *)
Definition has_primary_color (garment : GarmentColor) : bool :=
  match primary_color garment with Some _ => true | None => false end.

(** The entry of a garment whose region gave no colour. *)
Definition colourless_entry (seg_result : SegmentationResult) : GarmentColor :=
  {| garment_class := seg_class seg_result; colors := []; primary_color := None |}.

(** A box without pixels: its right edge is not beyond its left edge,
    or its bottom edge not beyond its top edge. *)
Definition empty_box (b : Z * Z * Z * Z) : Prop :=
  let '(x1, y1, x2, y2) := b in
  (0 <= x2 <= x1 \/ 0 <= y2 <= y1)%Z.

(** The integers from 0 to 255. *)
Definition byte_values : list Z := map Z.of_nat (seq 0 256).

(** The shape every item of the style engine has. *)
Definition style_item (item : FeedbackItem) : Prop :=
  type item = "style" /\ actionable item = true /\ In (priority item) priorities.

(** The items reported when every similarity is the mock 0.75. *)
Definition excellent_mock_match : FeedbackItem :=
  StyleEngine._create_style_feedback
    "Excellent style match! This outfit closely resembles your reference style (75.0% similarity)"
    0.75 "high".

Definition garment_mock_match (seg_result : SegmentationResult) : FeedbackItem :=
  StyleEngine._create_style_feedback
    ("The " +:+ seg_class seg_result +:+ " works well with your reference style")
    0.75 "low".

(** A sample of a loaded model: it encodes nothing, and scores two
    embeddings by the product of their first components. *)
Definition sample_model : CLIPService.CLIPModel :=
  {| CLIPService.get_image_features := fun _ => None;
     CLIPService.normalized_dot := fun e1 e2 =>
       match e1, e2 with
       | x :: _, y :: _ => Some (x * y)%float
       | _, _ => None
       end |}.

(** A medium skin tone and eight garments whose pairwise scores are
    0.5 five times, then 0.6, 0.9 and 0.8. *)
Definition medium_skin_tone : SkinTone :=
  {| detected := true; tone := "medium";
     skin_hsv := Some [15; 60; 70]%float;
     skin_rgb := Some [179; 143; 89]%Z |}.

Definition plain_garment (class : string) (h s v : float) : GarmentColor :=
  let sample := {| hsv := [h; s; v]; rgb := [0; 0; 0]%Z; hex := "#000000" |} in
  {| garment_class := class; colors := [sample]; primary_color := Some sample |}.

Definition eight_garments : list GarmentColor :=
  [ plain_garment "shirt" 75 200 200; plain_garment "pants" 75 200 200;
    plain_garment "jacket" 75 200 200; plain_garment "shoes" 75 200 200;
    plain_garment "hat" 75 200 200; plain_garment "bag" 75 60 70;
    plain_garment "dress" 15 200 200; plain_garment "skirt" 195 200 200 ].

End Design.

(** * Properties *)

Import Design.

(** ** Order of binary64 values *)

Section FloatOrder.

Local Ltac sf_destruct :=
  repeat match goal with
         | x : spec_float |- _ => destruct x
         | s : bool |- _ => destruct s
         end;
  cbn [SFcompare SFltb SFleb SFeqb] in *.

Local Ltac cmp_destruct :=
  repeat match goal with
         | H : context [Z.compare ?a ?b] |- _ => destruct (Z.compare_spec a b)
         | |- context [Z.compare ?a ?b] => destruct (Z.compare_spec a b)
         | H : context [PosDef.Pos.compare_cont Eq ?a ?b] |- _ =>
             change (PosDef.Pos.compare_cont Eq a b) with (Pos.compare a b) in H;
             destruct (Pos.compare_spec a b)
         | |- context [PosDef.Pos.compare_cont Eq ?a ?b] =>
             change (PosDef.Pos.compare_cont Eq a b) with (Pos.compare a b);
             destruct (Pos.compare_spec a b)
         end;
  cbn [CompOpp] in *.

Lemma SFleb_not_SFltb (x y : spec_float) :
  SFleb x y = true -> SFltb y x = false.
Proof.
  unfold SFleb, SFltb. sf_destruct; try easy; cmp_destruct; try easy; lia.
Qed.

Lemma SFltb_not_SFleb (x y : spec_float) :
  SFltb x y = true -> SFleb y x = false.
Proof.
  unfold SFleb, SFltb. sf_destruct; try easy; cmp_destruct; try easy; lia.
Qed.

Lemma SFleb_SFltb_trans (x y z : spec_float) :
  SFleb x y = true -> SFltb y z = true -> SFltb x z = true.
Proof.
  unfold SFleb, SFltb. sf_destruct; try easy; cmp_destruct; try easy; lia.
Qed.

Lemma SFltb_SFleb_trans (x y z : spec_float) :
  SFltb x y = true -> SFleb y z = true -> SFltb x z = true.
Proof.
  unfold SFleb, SFltb. sf_destruct; try easy; cmp_destruct; try easy; lia.
Qed.

Lemma SFleb_trans (x y z : spec_float) :
  SFleb x y = true -> SFleb y z = true -> SFleb x z = true.
Proof.
  unfold SFleb. sf_destruct; try easy; cmp_destruct; try easy; lia.
Qed.

End FloatOrder.

Lemma leb_not_ltb (x y : float) : (x <=? y)%float = true -> (y <? x)%float = false.
Proof. rewrite leb_spec, ltb_spec. apply SFleb_not_SFltb. Qed.

Lemma ltb_not_leb (x y : float) : (x <? y)%float = true -> (y <=? x)%float = false.
Proof. rewrite leb_spec, ltb_spec. apply SFltb_not_SFleb. Qed.

Lemma leb_ltb_trans (x y z : float) :
  (x <=? y)%float = true -> (y <? z)%float = true -> (x <? z)%float = true.
Proof. rewrite leb_spec, !ltb_spec. apply SFleb_SFltb_trans. Qed.

Lemma ltb_leb_trans (x y z : float) :
  (x <? y)%float = true -> (y <=? z)%float = true -> (x <? z)%float = true.
Proof. rewrite !leb_spec, !ltb_spec. apply SFltb_SFleb_trans. Qed.

Lemma leb_trans (x y z : float) :
  (x <=? y)%float = true -> (y <=? z)%float = true -> (x <=? z)%float = true.
Proof. rewrite !leb_spec. apply SFleb_trans. Qed.

(** ** Rounding of binary64 numbers *)

Section Binary64Rounding.

Import Binary64.

Local Open Scope Z_scope.

Lemma fexp64 x : fexp prec emax x = Z.max (x - 53) (-1074).
Proof. reflexivity. Qed.

Lemma digits2_pos_bounds p :
  2 ^ (Zpos (digits2_pos p) - 1) <= Zpos p < 2 ^ Zpos (digits2_pos p).
Proof.
  induction p as [p IH|p IH|]; cbn [digits2_pos].
  - rewrite Pos2Z.inj_succ. change (Zpos p~1) with (2 * Zpos p + 1).
    replace (Z.succ (Zpos (digits2_pos p)) - 1) with (Z.succ (Zpos (digits2_pos p) - 1)) by lia.
    rewrite !Z.pow_succ_r by lia.
    revert IH. generalize (2 ^ (Z.pos (digits2_pos p) - 1)) (2 ^ Z.pos (digits2_pos p)). lia.
  - rewrite Pos2Z.inj_succ. change (Zpos p~0) with (2 * Zpos p).
    replace (Z.succ (Zpos (digits2_pos p)) - 1) with (Z.succ (Zpos (digits2_pos p) - 1)) by lia.
    rewrite !Z.pow_succ_r by lia.
    revert IH. generalize (2 ^ (Z.pos (digits2_pos p) - 1)) (2 ^ Z.pos (digits2_pos p)). lia.
  - cbn. lia.
Qed.

Lemma Zdigits2_bounds m :
  0 < m -> 2 ^ (Zdigits2 m - 1) <= m < 2 ^ Zdigits2 m.
Proof.
  destruct m as [|p|p]; try lia. intros _. apply digits2_pos_bounds.
Qed.

Lemma Zdigits2_nonneg m : 0 <= Zdigits2 m.
Proof. destruct m; cbn; lia. Qed.

Lemma Zdigits2_pos m : 0 < m -> 0 < Zdigits2 m.
Proof. destruct m; cbn; lia. Qed.

Lemma Zdigits2_unique m d :
  2 ^ (d - 1) <= m < 2 ^ d -> 0 < d -> Zdigits2 m = d.
Proof.
  intros [Hlo Hhi] Hd.
  assert (Hm : 0 < m) by (pose proof (Z.pow_pos_nonneg 2 (d - 1)); lia).
  destruct (Zdigits2_bounds m Hm) as [Hlo' Hhi'].
  pose proof (Zdigits2_pos m Hm) as Hd'.
  assert (d - 1 < Zdigits2 m).
  { apply (Z.pow_lt_mono_r_iff 2); lia. }
  assert (Zdigits2 m - 1 < d).
  { apply (Z.pow_lt_mono_r_iff 2); lia. }
  lia.
Qed.

Lemma Zdigits2_le m1 m2 : 0 < m1 -> m1 <= m2 -> Zdigits2 m1 <= Zdigits2 m2.
Proof.
  intros H1 H12.
  destruct (Zdigits2_bounds m1 H1) as [Hlo1 _].
  destruct (Zdigits2_bounds m2 ltac:(lia)) as [_ Hhi2].
  pose proof (Zdigits2_pos m1 H1).
  pose proof (Zdigits2_nonneg m2).
  assert (Zdigits2 m1 - 1 < Zdigits2 m2).
  { apply (Z.pow_lt_mono_r_iff 2); lia. }
  lia.
Qed.

(** canonical floats *)
Lemma bounded_canonical m e :
  bounded prec emax m e = true ->
  -1074 <= e <= 971 /\ Zpos m < 2 ^ 53 /\ (-1074 < e -> 2 ^ 52 <= Zpos m).
Proof.
  unfold bounded, canonical_mantissa. rewrite andb_true_iff, Z.eqb_eq, Z.leb_le, fexp64.
  change (emax - prec) with 971.
  intros [Hc He].
  destruct (digits2_pos_bounds m) as [Hlo Hhi].
  set (d := Zpos (digits2_pos m)) in *.
  assert (Hd : d <= 53) by lia.
  split; [lia|]. split.
  - apply Z.lt_le_trans with (1 := Hhi). apply Z.pow_le_mono_r; lia.
  - intros Hgt. assert (d = 53) by lia. replace (52) with (d - 1) by lia. exact Hlo.
Qed.

Lemma Zcompare_mul_pos_r a b c : 0 < c -> (a * c ?= b * c) = (a ?= b).
Proof.
  intros Hc. destruct (Z.compare_spec a b).
  - subst. apply Z.compare_refl.
  - apply Z.compare_lt_iff. nia.
  - apply Z.compare_gt_iff. nia.
Qed.

Lemma scaled_mantissa_lt m1 m2 A C :
  0 < A -> 2 <= C -> m1 < 2 ^ 53 -> 2 ^ 52 <= m2 -> m1 * A < m2 * (A * C).
Proof.
  intros HA HC H1 H2.
  apply Z.lt_le_trans with (2 ^ 53 * A).
  - apply Z.mul_lt_mono_pos_r; assumption.
  - change (2 ^ 53) with (2 ^ 52 * 2).
    replace (2 ^ 52 * 2 * A) with (2 ^ 52 * (A * 2)) by ring.
    apply Z.mul_le_mono_nonneg; [easy|assumption|lia|].
    apply Z.mul_le_mono_nonneg_l; lia.
Qed.

Lemma pos_compare_scaled m1 e1 m2 e2 :
  bounded prec emax m1 e1 = true -> bounded prec emax m2 e2 = true ->
  match e1 ?= e2 with
  | Eq => PosDef.Pos.compare_cont Eq m1 m2
  | Lt => Lt
  | Gt => Gt
  end = (Zpos m1 * 2 ^ (e1 + 1074) ?= Zpos m2 * 2 ^ (e2 + 1074)).
Proof.
  intros H1 H2.
  destruct (bounded_canonical _ _ H1) as (He1 & Hm1 & Hn1).
  destruct (bounded_canonical _ _ H2) as (He2 & Hm2 & Hn2).
  change (PosDef.Pos.compare_cont Eq m1 m2) with (Zpos m1 ?= Zpos m2).
  destruct (Z.compare_spec e1 e2) as [Heq|Hlt|Hgt].
  - subst e2. symmetry. apply Zcompare_mul_pos_r.
    apply Z.pow_pos_nonneg; lia.
  - symmetry. apply Z.compare_lt_iff.
    replace (e2 + 1074) with ((e1 + 1074) + (e2 - e1)) by lia.
    rewrite (Z.pow_add_r 2 (e1 + 1074) (e2 - e1)) by lia.
    assert (0 < 2 ^ (e1 + 1074)) by (apply Z.pow_pos_nonneg; lia).
    assert (2 ^ 1 <= 2 ^ (e2 - e1)) by (apply Z.pow_le_mono_r; lia).
    specialize (Hn2 ltac:(lia)). change (2 ^ 1) with 2 in *.
    apply scaled_mantissa_lt; assumption.
  - symmetry. apply Z.compare_gt_iff.
    replace (e1 + 1074) with ((e2 + 1074) + (e1 - e2)) by lia.
    rewrite (Z.pow_add_r 2 (e2 + 1074) (e1 - e2)) by lia.
    assert (0 < 2 ^ (e2 + 1074)) by (apply Z.pow_pos_nonneg; lia).
    assert (2 ^ 1 <= 2 ^ (e1 - e2)) by (apply Z.pow_le_mono_r; lia).
    specialize (Hn1 ltac:(lia)). change (2 ^ 1) with 2 in *.
    apply scaled_mantissa_lt; assumption.
Qed.

Lemma SFcompare_SFZ x y :
  valid_binary x = true -> valid_binary y = true ->
  SFfinite x = true -> SFfinite y = true ->
  SFcompare x y = Some (SFZ x ?= SFZ y).
Proof.
  destruct x as [sx|sx| |sx mx ex], y as [sy|sy| |sy my ey]; try discriminate;
    cbn [valid_binary SpecFloat.valid_binary SFfinite SFZ SFcompare]; intros Hx Hy _ _.
  - reflexivity.
  - f_equal. destruct sy; cbn [cond_Zopp]; symmetry.
    + apply Z.compare_gt_iff. pose proof (Z.pow_pos_nonneg 2 (ey + 1074)).
      destruct (bounded_canonical _ _ Hy). nia.
    + apply Z.compare_lt_iff. pose proof (Z.pow_pos_nonneg 2 (ey + 1074)).
      destruct (bounded_canonical _ _ Hy). nia.
  - f_equal. destruct sx; cbn [cond_Zopp]; symmetry.
    + apply Z.compare_lt_iff. pose proof (Z.pow_pos_nonneg 2 (ex + 1074)).
      destruct (bounded_canonical _ _ Hx). nia.
    + apply Z.compare_gt_iff. pose proof (Z.pow_pos_nonneg 2 (ex + 1074)).
      destruct (bounded_canonical _ _ Hx). nia.
  - f_equal.
    pose proof (Z.pow_pos_nonneg 2 (ex + 1074)).
    pose proof (Z.pow_pos_nonneg 2 (ey + 1074)).
    destruct (bounded_canonical _ _ Hx) as (? & _ & _).
    destruct (bounded_canonical _ _ Hy) as (? & _ & _).
    destruct sx, sy; cbn [cond_Zopp].
    + rewrite Z.compare_opp.
      rewrite <- (pos_compare_scaled my ey mx ex Hy Hx).
      rewrite (Z.compare_antisym ex ey).
      change (PosDef.Pos.compare_cont Eq my mx) with (Zpos my ?= Zpos mx).
      change (PosDef.Pos.compare_cont Eq mx my) with (Zpos mx ?= Zpos my).
      rewrite (Z.compare_antisym (Zpos mx) (Zpos my)).
      destruct (ex ?= ey); reflexivity.
    + symmetry. apply Z.compare_lt_iff. nia.
    + symmetry. apply Z.compare_gt_iff. nia.
    + apply pos_compare_scaled; assumption.
Qed.

Lemma iter_pos_nat {A} (f : A -> A) p x :
  SpecFloat.iter_pos f p x = Nat.iter (Pos.to_nat p) f x.
Proof.
  revert x. induction p as [p IH|p IH|]; intros x; cbn [SpecFloat.iter_pos].
  - rewrite !IH. rewrite Pos2Nat.inj_xI.
    replace (S (2 * Pos.to_nat p)) with (Pos.to_nat p + (Pos.to_nat p + 1))%nat by lia.
    rewrite !Nat.iter_add. reflexivity.
  - rewrite !IH. rewrite Pos2Nat.inj_xO.
    replace (2 * Pos.to_nat p)%nat with (Pos.to_nat p + Pos.to_nat p)%nat by lia.
    rewrite Nat.iter_add. reflexivity.
  - reflexivity.
Qed.

Lemma shr_1_spec m r s :
  0 <= m ->
  shr_1 {| shr_m := m; shr_r := r; shr_s := s |}
  = {| shr_m := m / 2; shr_r := Z.odd m; shr_s := r || s |}.
Proof.
  intros Hm. destruct m as [|[p|p|]|p]; try lia; cbn [shr_1].
  - reflexivity.
  - f_equal. apply (Z.div_unique (Zpos p~1) 2 (Zpos p) 1); lia.
  - f_equal. apply (Z.div_unique (Zpos p~0) 2 (Zpos p) 0); lia.
  - reflexivity.
Qed.

Lemma shr_iter_m N r s k :
  0 <= N ->
  shr_m (Nat.iter k shr_1 {| shr_m := N; shr_r := r; shr_s := s |}) = N / 2 ^ Z.of_nat k.
Proof.
  intros HN. induction k as [|k IH].
  - cbn. now rewrite Z.div_1_r.
  - rewrite Nat.iter_succ.
    destruct (Nat.iter k shr_1 _) as [m r' s'] eqn:E. cbn [shr_m] in IH.
    assert (0 <= m) by (subst m; apply Z.div_pos; [lia|apply Z.pow_pos_nonneg; lia]).
    rewrite shr_1_spec by assumption. cbn [shr_m]. subst m.
    rewrite Z.div_div by (try apply Z.pow_pos_nonneg; lia).
    rewrite Nat2Z.inj_succ, Z.pow_succ_r by lia. f_equal. ring.
Qed.

Lemma shr_iter_loc N k :
  0 <= N ->
  loc_of_shr_record (Nat.iter k shr_1 {| shr_m := N; shr_r := false; shr_s := false |})
  = new_location_even (2 ^ Z.of_nat k) (N mod 2 ^ Z.of_nat k).
Proof.
  intros HN. induction k as [|k IH].
  - cbn [Nat.iter loc_of_shr_record Z.of_nat]. rewrite Z.pow_0_r, Z.mod_1_r. reflexivity.
  - rewrite Nat.iter_succ.
    pose proof (shr_iter_m N false false k HN) as Hm.
    destruct (Nat.iter k shr_1 _) as [m r s] eqn:E. cbn [shr_m] in Hm.
    assert (Hpow : 0 < 2 ^ Z.of_nat k) by (apply Z.pow_pos_nonneg; lia).
    assert (Hm0 : 0 <= m) by (subst m; apply Z.div_pos; lia).
    rewrite shr_1_spec by assumption.
    rewrite Nat2Z.inj_succ, Z.pow_succ_r by lia.
    set (D := 2 ^ Z.of_nat k) in *.
    assert (HR : N mod (2 * D) = N mod D + D * (m mod 2)).
    { rewrite (Z.mul_comm 2 D). rewrite Z.rem_mul_r by lia. now subst m. }
    pose proof (Z.mod_pos_bound N D Hpow) as HRk.
    pose proof (Z.mod_pos_bound m 2 ltac:(lia)) as Hm2.
    assert (Hrs : r || s = negb (N mod D =? 0)).
    { revert IH. unfold new_location_even. cbn [loc_of_shr_record].
      destruct (N mod D =? 0); destruct r, s; cbn; try congruence;
        destruct (2 * (N mod D) ?= D); congruence. }
    rewrite Hrs, HR. clear IH E Hrs.
    rewrite Zodd_mod.
    unfold new_location_even. cbn [loc_of_shr_record].
    assert (Hcases : m mod 2 = 0 \/ m mod 2 = 1) by lia.
    destruct Hcases as [H2|H2]; rewrite H2.
    + cbn [Z.eqb]. rewrite Z.mul_0_r, Z.add_0_r.
      destruct (Z.eqb_spec (N mod D) 0) as [H0|H0]; cbn [negb].
      * reflexivity.
      * replace (2 * (N mod D) ?= 2 * D) with Lt; [reflexivity|].
        symmetry. apply Z.compare_lt_iff. lia.
    + cbn [Z.eqb]. rewrite Z.mul_1_r.
      destruct (Z.eqb_spec (N mod D + D) 0) as [H0|H0]; [lia|].
      destruct (Z.eqb_spec (N mod D) 0) as [H1|H1]; cbn [negb].
      * replace (2 * (N mod D + D) ?= 2 * D) with Eq; [reflexivity|].
        symmetry. apply Z.compare_eq_iff. lia.
      * replace (2 * (N mod D + D) ?= 2 * D) with Gt; [reflexivity|].
        symmetry. apply Z.compare_gt_iff. lia.
Qed.

Lemma round_nearest_even_bounds m l :
  m <= round_nearest_even m l <= m + 1.
Proof.
  unfold round_nearest_even. destruct l as [|[]]; try destruct (Z.even m); lia.
Qed.

Lemma loc_of_shr_record_of_loc m l :
  loc_of_shr_record (shr_record_of_loc m l) = l.
Proof. destruct l as [|[]]; reflexivity. Qed.

Lemma shr_m_record_of_loc m l : shr_m (shr_record_of_loc m l) = m.
Proof. destruct l as [|[]]; reflexivity. Qed.

(** First stage of rounding: the mantissa is divided by [2^n], and the
    location of the exact value between two mantissas is kept. *)
Lemma shr_first_stage mx ex lx n :
  0 <= mx -> 0 <= n ->
  let '(mrs, e) := shr (shr_record_of_loc mx lx) ex n in
  shr_m mrs = mx / 2 ^ n /\ e = ex + n /\
  (lx = loc_Exact ->
   loc_of_shr_record mrs = new_location_even (2 ^ n) (mx mod 2 ^ n)).
Proof.
  intros Hm Hn. destruct n as [|p|p]; try lia; cbn [shr].
  - rewrite Z.pow_0_r, Z.div_1_r, Z.mod_1_r, shr_m_record_of_loc, loc_of_shr_record_of_loc.
    repeat split; [lia|]. now intros ->.
  - rewrite iter_pos_nat. split; [|split; [reflexivity|]].
    + destruct lx as [|[]]; cbn [shr_record_of_loc];
        rewrite shr_iter_m by assumption; now rewrite positive_nat_Z.
    + intros ->. cbn [shr_record_of_loc].
      rewrite shr_iter_loc by assumption. now rewrite positive_nat_Z.
Qed.

Lemma div_pow_lt_2_53 mx n :
  0 <= mx -> 0 <= n -> Zdigits2 mx - 53 <= n -> mx / 2 ^ n < 2 ^ 53.
Proof.
  intros Hm Hn Hd.
  assert (Hp : 0 < 2 ^ n) by (apply Z.pow_pos_nonneg; lia).
  apply Z.div_lt_upper_bound; [assumption|].
  destruct (Z.eq_dec mx 0) as [->|Hne].
  - apply Z.mul_pos_pos; [assumption|easy].
  - destruct (Zdigits2_bounds mx ltac:(lia)) as [_ Hhi].
    apply Z.lt_le_trans with (1 := Hhi).
    rewrite <- Z.pow_add_r by lia.
    apply Z.pow_le_mono_r; lia.
Qed.

Lemma second_stage sx m1 F :
  0 <= m1 <= 2 ^ 53 -> -1074 <= F ->
  (let '(mrs, e) := shr_fexp prec emax m1 F loc_Exact in
   match shr_m mrs with
   | 0 => S754_zero sx
   | Zpos m => if e <=? emax - prec then S754_finite sx m e else S754_infinity sx
   | Zneg _ => S754_nan
   end) = pack sx m1 F.
Proof.
  intros Hm HF. unfold shr_fexp, pack. rewrite fexp64. change (emax - prec) with 971.
  destruct (Z.eqb_spec m1 0) as [->|Hne].
  - cbn [Zdigits2 shr_record_of_loc].
    replace (Z.max (0 + F - 53) (-1074) - F) with (- (F - Z.max (F - 53) (-1074))) by lia.
    destruct (F - Z.max (F - 53) (-1074)) eqn:E; try lia; reflexivity.
  - destruct (Z.eqb_spec m1 (2 ^ 53)) as [->|Hne2].
    + change (Zdigits2 (2 ^ 53)) with 54.
      replace (Z.max (54 + F - 53) (-1074) - F) with 1 by lia.
      reflexivity.
    + assert (Hd : Zdigits2 m1 <= 53).
      { destruct (Zdigits2_bounds m1 ltac:(lia)) as [Hlo _].
        pose proof (Zdigits2_pos m1 ltac:(lia)).
        assert (Zdigits2 m1 - 1 < 53); [|lia].
        apply (Z.pow_lt_mono_r_iff 2); lia. }
      pose proof (Zdigits2_nonneg m1).
      replace (Z.max (Zdigits2 m1 + F - 53) (-1074) - F)
        with (- (F - Z.max (Zdigits2 m1 + F - 53) (-1074))) by lia.
      destruct (F - Z.max (Zdigits2 m1 + F - 53) (-1074)) eqn:E; try lia;
        cbn [Z.opp shr shr_record_of_loc shr_m];
        destruct m1; try lia; reflexivity.
Qed.

(** What [binary_round_aux] returns, for a non-negative mantissa whose
    exponent is not above the format's exponent for its magnitude. *)
Lemma binary_round_aux_cases sx mx ex lx :
  0 <= mx ->
  ex <= fexp prec emax (Zdigits2 mx + ex) ->
  let F := fexp prec emax (Zdigits2 mx + ex) in
  let n := F - ex in
  exists m1,
    mx / 2 ^ n <= m1 <= mx / 2 ^ n + 1
    /\ (lx = loc_Exact ->
        m1 = round_nearest_even (mx / 2 ^ n) (new_location_even (2 ^ n) (mx mod 2 ^ n)))
    /\ m1 <= 2 ^ 53
    /\ binary_round_aux prec emax sx mx ex lx = pack sx m1 F.
Proof.
  intros Hm Hpre F n.
  assert (Hn : 0 <= n) by (unfold n, F; lia).
  assert (HF : -1074 <= F) by (unfold F; rewrite fexp64; lia).
  unfold binary_round_aux.
  change (shr_fexp prec emax mx ex lx) with (shr (shr_record_of_loc mx lx) ex n).
  pose proof (shr_first_stage mx ex lx n Hm Hn) as Hfirst.
  destruct (shr (shr_record_of_loc mx lx) ex n) as [mrs e'].
  destruct Hfirst as (Hmrs & He' & Hexact).
  set (m1 := round_nearest_even (shr_m mrs) (loc_of_shr_record mrs)).
  assert (Hp : 0 < 2 ^ n) by (apply Z.pow_pos_nonneg; lia).
  assert (Hm' : 0 <= mx / 2 ^ n) by (apply Z.div_pos; lia).
  assert (Hlt : mx / 2 ^ n < 2 ^ 53).
  { apply div_pow_lt_2_53; try assumption.
    unfold n, F. rewrite fexp64. lia. }
  pose proof (round_nearest_even_bounds (shr_m mrs) (loc_of_shr_record mrs)) as Hb.
  fold m1 in Hb. rewrite Hmrs in Hb.
  exists m1. split; [exact Hb|]. split; [|split; [lia|]].
  - intros Hlx. unfold m1. rewrite (Hexact Hlx), Hmrs. reflexivity.
  - replace e' with F by (unfold n in He'; lia).
    apply second_stage; lia.
Qed.

Lemma pow2_pos e : 0 <= e -> 0 < 2 ^ e.
Proof. intros. apply Z.pow_pos_nonneg; lia. Qed.

Lemma pow2_split a b : 0 <= a -> 0 <= b -> 2 ^ (a + b) = 2 ^ a * 2 ^ b.
Proof. intros. apply Z.pow_add_r; assumption. Qed.

(** Magnitudes: a smaller scaled value has no more digits. *)
Lemma digits_exponent_le m1 e1 m2 e2 S :
  0 < m1 -> 0 < m2 -> 0 <= e1 + S -> 0 <= e2 + S ->
  m1 * 2 ^ (e1 + S) <= m2 * 2 ^ (e2 + S) ->
  Zdigits2 m1 + e1 <= Zdigits2 m2 + e2.
Proof.
  intros H1 H2 He1 He2 Hle.
  destruct (Zdigits2_bounds m1 H1) as [Hlo1 _].
  destruct (Zdigits2_bounds m2 H2) as [_ Hhi2].
  pose proof (Zdigits2_pos m1 H1) as Hd1.
  pose proof (Zdigits2_pos m2 H2) as Hd2.
  assert (Hlt : 2 ^ (Zdigits2 m1 - 1 + (e1 + S)) < 2 ^ (Zdigits2 m2 + (e2 + S))).
  { rewrite (pow2_split (Zdigits2 m1 - 1) (e1 + S)), (pow2_split (Zdigits2 m2) (e2 + S)) by lia.
    pose proof (pow2_pos (e1 + S) He1). pose proof (pow2_pos (e2 + S) He2).
    apply Z.le_lt_trans with (m1 * 2 ^ (e1 + S)).
    - apply Z.mul_le_mono_nonneg_r; lia.
    - apply Z.le_lt_trans with (1 := Hle). apply Z.mul_lt_mono_pos_r; lia. }
  apply (Z.pow_lt_mono_r_iff 2) in Hlt; lia.
Qed.

(** The scaled comparison with a threshold, brought to the exponent [F]. *)
Lemma scaled_le_to_grid a ex b eT F S :
  ex <= F -> F <= eT -> 0 <= ex + S ->
  a * 2 ^ (ex + S) <= b * 2 ^ (eT + S) ->
  a <= b * 2 ^ (eT - F) * 2 ^ (F - ex).
Proof.
  intros H1 H2 H3 Hle.
  replace (eT + S) with ((eT - F) + (F - ex) + (ex + S)) in Hle by lia.
  rewrite (pow2_split ((eT - F) + (F - ex)) (ex + S)), (pow2_split (eT - F) (F - ex)) in Hle by lia.
  pose proof (pow2_pos (ex + S) H3).
  rewrite !Z.mul_assoc in Hle.
  apply Z.mul_le_mono_pos_r in Hle; assumption.
Qed.

Lemma scaled_ge_to_grid a ex b eT F S :
  ex <= F -> F <= eT -> 0 <= ex + S ->
  b * 2 ^ (eT + S) <= a * 2 ^ (ex + S) ->
  b * 2 ^ (eT - F) * 2 ^ (F - ex) <= a.
Proof.
  intros H1 H2 H3 Hle.
  replace (eT + S) with ((eT - F) + (F - ex) + (ex + S)) in Hle by lia.
  rewrite (pow2_split ((eT - F) + (F - ex)) (ex + S)), (pow2_split (eT - F) (F - ex)) in Hle by lia.
  pose proof (pow2_pos (ex + S) H3).
  rewrite !Z.mul_assoc in Hle.
  apply Z.mul_le_mono_pos_r in Hle; assumption.
Qed.

(** A packed result against a grid multiple [K * 2^F]. *)
Lemma pack_le_grid sx m1 F K eT mT S :
  0 <= m1 <= 2 ^ 53 -> m1 <= K -> -1074 <= F -> F <= eT -> eT <= 971 -> 1074 <= S ->
  K = Zpos mT * 2 ^ (eT - F) -> Zpos mT < 2 ^ 53 ->
  pack sx m1 F = S754_zero sx \/
  exists m e, pack sx m1 F = S754_finite sx m e /\ -1074 <= e /\
              Zpos m * 2 ^ (e + S) <= Zpos mT * 2 ^ (eT + S).
Proof.
  intros Hm1 HK HF HFT HeT HS HKdef HmT. unfold pack.
  destruct (Z.eqb_spec m1 0) as [|Hne]; [now left|right].
  pose proof (pow2_pos (F + S) ltac:(lia)) as HpF.
  assert (HT : Zpos mT * 2 ^ (eT + S) = K * 2 ^ (F + S)).
  { rewrite HKdef. replace (eT + S) with ((eT - F) + (F + S)) by lia.
    rewrite pow2_split by lia. ring. }
  destruct (Z.eqb_spec m1 (2 ^ 53)) as [H53|Hne2].
  - assert (Hgrid : F + 1 <= eT).
    { destruct (Z.eq_dec eT F) as [->|]; [|lia].
      rewrite Z.sub_diag, Z.pow_0_r, Z.mul_1_r in HKdef. lia. }
    destruct (Z.leb_spec (F + 1) 971); [|lia].
    eexists _, _. split; [reflexivity|]. split; [lia|].
    rewrite HT. rewrite Z2Pos.id by easy.
    replace (F + 1 + S) with (1 + (F + S)) by lia.
    rewrite (pow2_split 1 (F + S)) by lia. change (2 ^ 1) with 2.
    change (2 ^ 53) with (2 ^ 52 * 2) in H53.
    rewrite Z.mul_assoc. apply Z.mul_le_mono_nonneg_r; lia.
  - destruct (Z.leb_spec F 971); [|lia].
    eexists _, _. split; [reflexivity|]. split; [lia|].
    rewrite HT, Z2Pos.id by lia.
    apply Z.mul_le_mono_nonneg_r; lia.
Qed.

(** Rounding does not exceed a representable threshold that the exact
    value does not exceed. *)
Lemma binary_round_aux_le sx mx ex lx mT eT S :
  0 <= mx ->
  ex <= fexp prec emax (Zdigits2 mx + ex) ->
  bounded prec emax mT eT = true ->
  0 <= ex + S -> 1074 <= S ->
  (match lx with loc_Exact => mx | _ => mx + 1 end) * 2 ^ (ex + S)
    <= Zpos mT * 2 ^ (eT + S) ->
  binary_round_aux prec emax sx mx ex lx = S754_zero sx \/
  exists m e,
    binary_round_aux prec emax sx mx ex lx = S754_finite sx m e /\ -1074 <= e /\
    Zpos m * 2 ^ (e + S) <= Zpos mT * 2 ^ (eT + S).
Proof.
  intros Hmx Hpre HT HexS HS Hle.
  destruct (bounded_canonical _ _ HT) as (HeT & HmT & HnT).
  destruct (binary_round_aux_cases sx mx ex lx Hmx Hpre) as (m1 & Hm1 & Hexact & Hm153 & ->).
  set (F := fexp prec emax (Zdigits2 mx + ex)) in *.
  set (n := F - ex) in *.
  assert (HF : -1074 <= F) by (unfold F; rewrite fexp64; lia).
  assert (Hn : 0 <= n) by (unfold n; lia).
  pose proof (pow2_pos n Hn) as Hpn.
  assert (Hm' : 0 <= mx / 2 ^ n) by (apply Z.div_pos; lia).
  destruct (Z.eq_dec mx 0) as [Hz|Hnz].
  - (* nothing but a possible rounding up to the least subnormal *)
    subst mx. rewrite Z.div_0_l in Hm1, Hexact by lia.
    assert (HF' : F = -1074).
    { unfold F in *. rewrite fexp64 in *. cbn [Zdigits2] in *. lia. }
    pose proof (pow2_pos (eT - F) ltac:(lia)).
    apply (pack_le_grid sx m1 F (Zpos mT * 2 ^ (eT - F)) eT mT S); try lia.
  - assert (Hpos : 0 < mx) by lia.
    assert (Hle' : mx * 2 ^ (ex + S) <= Zpos mT * 2 ^ (eT + S)).
    { apply Z.le_trans with (2 := Hle). apply Z.mul_le_mono_nonneg_r.
      - apply Z.lt_le_incl, pow2_pos; lia.
      - destruct lx; lia. }
    assert (Hdig : Zdigits2 mx + ex <= Zdigits2 (Zpos mT) + eT).
    { apply (digits_exponent_le mx ex (Zpos mT) eT S); try lia. }
    assert (HFT : F <= eT).
    { unfold bounded, canonical_mantissa in HT.
      apply andb_true_iff in HT as [HT _]. apply Z.eqb_eq in HT.
      unfold F. rewrite fexp64 in *. cbn [Zdigits2] in Hdig. lia. }
    set (K := Zpos mT * 2 ^ (eT - F)).
    assert (HK : (match lx with loc_Exact => mx | _ => mx + 1 end) <= K * 2 ^ n).
    { unfold K, n. apply (scaled_le_to_grid _ ex _ eT F S); try lia. }
    apply (pack_le_grid sx m1 F K eT mT S); try lia.
    destruct (Z.eq_dec (mx mod 2 ^ n) 0) as [Hmod|Hmod].
    + (* the mantissa is on the grid *)
      assert (Hdiv : mx = (mx / 2 ^ n) * 2 ^ n).
      { rewrite (Z.div_mod mx (2 ^ n)) at 1 by lia. rewrite Hmod. ring. }
      destruct lx as [|c].
      * rewrite (Hexact eq_refl), Hmod. cbn [new_location_even Z.eqb round_nearest_even].
        rewrite Hdiv in HK.
        apply Z.mul_le_mono_pos_r in HK; lia.
      * assert (mx / 2 ^ n < K); [|lia].
        apply Z.mul_lt_mono_pos_r with (p := 2 ^ n); lia.
    + assert (mx / 2 ^ n < K); [|lia].
      apply Z.div_lt_upper_bound; [lia|].
      assert (mx <= K * 2 ^ n) by (destruct lx; lia).
      assert (mx <> K * 2 ^ n); [|lia].
      intros Heq. rewrite Heq, Z.mod_mul in Hmod; lia.
Qed.

(** Rounding is not below a representable threshold that the exact
    value is not below. *)
Lemma binary_round_aux_ge sx mx ex lx mT eT S :
  0 < mx ->
  ex <= fexp prec emax (Zdigits2 mx + ex) ->
  bounded prec emax mT eT = true ->
  0 <= ex + S -> 1074 <= S ->
  Zpos mT * 2 ^ (eT + S) <= mx * 2 ^ (ex + S) ->
  binary_round_aux prec emax sx mx ex lx = S754_infinity sx \/
  exists m e,
    binary_round_aux prec emax sx mx ex lx = S754_finite sx m e /\ -1074 <= e /\
    Zpos mT * 2 ^ (eT + S) <= Zpos m * 2 ^ (e + S).
Proof.
  intros Hmx Hpre HT HexS HS Hle.
  destruct (bounded_canonical _ _ HT) as (HeT & HmT & HnT).
  destruct (binary_round_aux_cases sx mx ex lx ltac:(lia) Hpre)
    as (m1 & Hm1 & Hexact & Hm153 & ->).
  set (F := fexp prec emax (Zdigits2 mx + ex)) in *.
  set (n := F - ex) in *.
  assert (HF : -1074 <= F) by (unfold F; rewrite fexp64; lia).
  assert (Hn : 0 <= n) by (unfold n; lia).
  pose proof (pow2_pos n Hn) as Hpn.
  pose proof (pow2_pos (F + S) ltac:(lia)) as HpF.
  assert (Hbound : Zpos mT * 2 ^ (eT + S) <= m1 * 2 ^ (F + S)).
  { destruct (Z.le_gt_cases F eT) as [HFT|HFT].
    - set (K := Zpos mT * 2 ^ (eT - F)).
      assert (HK : K * 2 ^ n <= mx).
      { unfold K, n. apply (scaled_ge_to_grid _ ex _ eT F S); lia. }
      assert (K <= mx / 2 ^ n) by (apply Z.div_le_lower_bound; lia).
      replace (eT + S) with ((eT - F) + (F + S)) by lia.
      rewrite pow2_split by lia. rewrite Z.mul_assoc. fold K.
      apply Z.mul_le_mono_nonneg_r; lia.
    - assert (HFd : F = Zdigits2 mx + ex - 53).
      { unfold F in *. rewrite fexp64 in *. lia. }
      assert (Hn' : n = Zdigits2 mx - 53) by (unfold n; lia).
      destruct (Zdigits2_bounds mx Hmx) as [Hlo _].
      assert (H52 : 2 ^ 52 <= mx / 2 ^ n).
      { apply Z.div_le_lower_bound; [lia|].
        rewrite <- pow2_split by lia.
        replace (n + 52) with (Zdigits2 mx - 1) by lia. exact Hlo. }
      apply Z.le_trans with (2 ^ 53 * 2 ^ (eT + S)).
      + apply Z.mul_le_mono_nonneg_r; [|lia]. apply Z.lt_le_incl, pow2_pos. lia.
      + apply Z.le_trans with (2 ^ 52 * 2 ^ (F + S)).
        * replace (F + S) with ((F - eT - 1) + 1 + (eT + S)) by lia.
          rewrite (pow2_split ((F - eT - 1) + 1) (eT + S)), (pow2_split (F - eT - 1) 1) by lia.
          change (2 ^ 53) with (2 ^ 52 * 2 ^ 1).
          pose proof (pow2_pos (F - eT - 1) ltac:(lia)).
          pose proof (pow2_pos (eT + S) ltac:(lia)).
          rewrite !Z.mul_assoc. apply Z.mul_le_mono_nonneg_r; [lia|].
          change (2 ^ 1) with 2. nia.
        * apply Z.mul_le_mono_nonneg_r; lia. }
  assert (Hm1pos : 0 < m1).
  { destruct (Z.le_gt_cases m1 0) as [Hz|]; [|assumption].
    assert (m1 * 2 ^ (F + S) <= 0) by nia.
    pose proof (pow2_pos (eT + S) ltac:(lia)). nia. }
  unfold pack.
  destruct (Z.eqb_spec m1 0) as [|_]; [lia|].
  destruct (Z.eqb_spec m1 (2 ^ 53)) as [H53|Hne2].
  - destruct (Z.leb_spec (F + 1) 971); [right|now left].
    eexists _, _. split; [reflexivity|]. split; [lia|].
    rewrite Z2Pos.id by easy.
    replace (F + 1 + S) with (1 + (F + S)) by lia.
    rewrite (pow2_split 1 (F + S)) by lia. rewrite Z.mul_assoc.
    change (2 ^ 52 * 2 ^ 1) with (2 ^ 53). now rewrite <- H53.
  - destruct (Z.leb_spec F 971); [right|now left].
    eexists _, _. split; [reflexivity|]. split; [lia|].
    now rewrite Z2Pos.id by lia.
Qed.

Lemma pos_iter_xO p d : Zpos (Pos.iter xO p d) = Zpos p * 2 ^ Zpos d.
Proof.
  induction d as [|d IH] using Pos.peano_ind.
  - cbn [Pos.iter]. change (2 ^ 1) with 2. lia.
  - rewrite Pos.iter_succ, Pos2Z.inj_succ, Z.pow_succ_r by lia.
    change (Zpos (Pos.iter xO p d)~0) with (2 * Zpos (Pos.iter xO p d)).
    rewrite IH. ring.
Qed.

(** [shl_align] lowers the exponent to the smaller of the two and
    keeps the value. *)
Lemma shl_align_spec p e e' :
  let '(mz, ez) := shl_align p e e' in
  ez = Z.min e e' /\ Zpos mz = Zpos p * 2 ^ (e - ez).
Proof.
  unfold shl_align. destruct (e' - e) as [|d|d] eqn:E.
  - split; [lia|]. rewrite Z.sub_diag. cbn. lia.
  - split; [lia|]. rewrite Z.sub_diag. cbn. lia.
  - split; [lia|]. rewrite pos_iter_xO. f_equal. f_equal. lia.
Qed.

Lemma Zdigits2_shift m k :
  0 < m -> 0 <= k -> Zdigits2 (m * 2 ^ k) = Zdigits2 m + k.
Proof.
  intros Hm Hk.
  destruct (Zdigits2_bounds m Hm) as [Hlo Hhi].
  pose proof (Zdigits2_pos m Hm).
  pose proof (pow2_pos k Hk).
  apply Zdigits2_unique; [|lia].
  replace (Zdigits2 m + k - 1) with (Zdigits2 m - 1 + k) by lia.
  rewrite !pow2_split by lia. split.
  - apply Z.mul_le_mono_nonneg_r; lia.
  - apply Z.mul_lt_mono_pos_r; lia.
Qed.

(** [binary_round] as [binary_round_aux] on an aligned mantissa. *)
Lemma binary_round_aligned sx p e :
  -1074 <= e ->
  exists mz ez,
    binary_round prec emax sx p e = binary_round_aux prec emax sx (Zpos mz) ez loc_Exact
    /\ -1074 <= ez
    /\ ez <= fexp prec emax (Zdigits2 (Zpos mz) + ez)
    /\ Zpos mz * 2 ^ (ez + 1074) = Zpos p * 2 ^ (e + 1074).
Proof.
  intros He. unfold binary_round.
  pose proof (shl_align_spec p e (fexp prec emax (Zpos (digits2_pos p) + e))) as Hal.
  destruct (shl_align p e _) as [mz ez]. destruct Hal as [Hez Hmz].
  exists mz, ez. split; [reflexivity|].
  assert (Hez' : -1074 <= ez) by (rewrite Hez, fexp64; lia).
  split; [exact Hez'|]. split.
  - rewrite Hmz. rewrite Zdigits2_shift by lia. cbn [Zdigits2].
    replace (Zpos (digits2_pos p) + (e - ez) + ez) with (Zpos (digits2_pos p) + e) by lia.
    lia.
  - rewrite Hmz. replace (e + 1074) with ((e - ez) + (ez + 1074)) by lia.
    rewrite (pow2_split (e - ez) (ez + 1074)) by lia. ring.
Qed.

Lemma binary_round_le sx p e mT eT :
  -1074 <= e -> bounded prec emax mT eT = true ->
  Zpos p * 2 ^ (e + 1074) <= Zpos mT * 2 ^ (eT + 1074) ->
  binary_round prec emax sx p e = S754_zero sx \/
  exists m e',
    binary_round prec emax sx p e = S754_finite sx m e' /\ -1074 <= e' /\
    Zpos m * 2 ^ (e' + 1074) <= Zpos mT * 2 ^ (eT + 1074).
Proof.
  intros He HT Hle.
  destruct (binary_round_aligned sx p e He) as (mz & ez & -> & Hez & Hpre & Hval).
  apply binary_round_aux_le; try assumption; try lia.
Qed.

Lemma binary_round_ge sx p e mT eT :
  -1074 <= e -> bounded prec emax mT eT = true ->
  Zpos mT * 2 ^ (eT + 1074) <= Zpos p * 2 ^ (e + 1074) ->
  binary_round prec emax sx p e = S754_infinity sx \/
  exists m e',
    binary_round prec emax sx p e = S754_finite sx m e' /\ -1074 <= e' /\
    Zpos mT * 2 ^ (eT + 1074) <= Zpos m * 2 ^ (e' + 1074).
Proof.
  intros He HT Hle.
  destruct (binary_round_aligned sx p e He) as (mz & ez & -> & Hez & Hpre & Hval).
  apply binary_round_aux_ge; try assumption; try lia.
Qed.

(** The sign of a rounded value is the sign it was given. *)
Lemma binary_round_sign sx p e :
  -1074 <= e ->
  binary_round prec emax sx p e = S754_zero sx \/
  binary_round prec emax sx p e = S754_infinity sx \/
  exists m e', binary_round prec emax sx p e = S754_finite sx m e'.
Proof.
  intros He.
  destruct (binary_round_aligned sx p e He) as (mz & ez & -> & Hez & Hpre & Hval).
  destruct (binary_round_aux_cases sx (Zpos mz) ez loc_Exact ltac:(lia) Hpre)
    as (m1 & _ & _ & _ & ->).
  unfold pack.
  destruct (m1 =? 0); [now left|].
  destruct (m1 =? 2 ^ 53).
  - destruct (_ <=? 971); [right; right; eauto|right; now left].
  - destruct (_ <=? 971); [right; right; eauto|right; now left].
Qed.

(** The difference and the sum of two positive finite numbers are the
    rounding of their exact difference and sum. *)
Lemma SFsub_pos_pos m1 e1 m2 e2 :
  -1074 <= e1 -> -1074 <= e2 ->
  exists N,
    SFsub prec emax (S754_finite false m1 e1) (S754_finite false m2 e2)
    = binary_normalize prec emax N (Z.min e1 e2) false
    /\ N * 2 ^ (Z.min e1 e2 + 1074)
       = Zpos m1 * 2 ^ (e1 + 1074) - Zpos m2 * 2 ^ (e2 + 1074).
Proof.
  intros H1 H2. cbn [SFsub cond_Zopp].
  pose proof (shl_align_spec m1 e1 (Z.min e1 e2)) as A1.
  pose proof (shl_align_spec m2 e2 (Z.min e1 e2)) as A2.
  destruct (shl_align m1 e1 _) as [a1 z1], (shl_align m2 e2 _) as [a2 z2].
  destruct A1 as [Hz1 Ha1], A2 as [Hz2 Ha2]. cbn [fst].
  eexists. split; [reflexivity|].
  set (ez := Z.min e1 e2) in *.
  rewrite Z.mul_sub_distr_r, Ha1, Ha2.
  replace z1 with ez by lia. replace z2 with ez by lia.
  replace (e1 + 1074) with ((e1 - ez) + (ez + 1074)) by lia.
  replace (e2 + 1074) with ((e2 - ez) + (ez + 1074)) by lia.
  rewrite (pow2_split (e1 - ez) (ez + 1074)), (pow2_split (e2 - ez) (ez + 1074)) by lia.
  ring.
Qed.

Lemma SFadd_pos_pos m1 e1 m2 e2 :
  -1074 <= e1 -> -1074 <= e2 ->
  exists N,
    SFadd prec emax (S754_finite false m1 e1) (S754_finite false m2 e2)
    = binary_normalize prec emax (Zpos N) (Z.min e1 e2) false
    /\ Zpos N * 2 ^ (Z.min e1 e2 + 1074)
       = Zpos m1 * 2 ^ (e1 + 1074) + Zpos m2 * 2 ^ (e2 + 1074).
Proof.
  intros H1 H2. cbn [SFadd cond_Zopp].
  pose proof (shl_align_spec m1 e1 (Z.min e1 e2)) as A1.
  pose proof (shl_align_spec m2 e2 (Z.min e1 e2)) as A2.
  destruct (shl_align m1 e1 _) as [a1 z1], (shl_align m2 e2 _) as [a2 z2].
  destruct A1 as [Hz1 Ha1], A2 as [Hz2 Ha2]. cbn [fst].
  exists (a1 + a2)%positive. split; [reflexivity|].
  set (ez := Z.min e1 e2) in *.
  rewrite Pos2Z.inj_add, Z.mul_add_distr_r, Ha1, Ha2.
  replace z1 with ez by lia. replace z2 with ez by lia.
  replace (e1 + 1074) with ((e1 - ez) + (ez + 1074)) by lia.
  replace (e2 + 1074) with ((e2 - ez) + (ez + 1074)) by lia.
  rewrite (pow2_split (e1 - ez) (ez + 1074)), (pow2_split (e2 - ez) (ez + 1074)) by lia.
  ring.
Qed.

(** ** The hue wrap test *)

Lemma SFltb_SFZ x y :
  valid_binary x = true -> valid_binary y = true ->
  SFfinite x = true -> SFfinite y = true ->
  SFltb x y = (SFZ x <? SFZ y).
Proof.
  intros. unfold SFltb, Z.ltb. now rewrite SFcompare_SFZ.
Qed.

Lemma SF_wrap_test m e :
  bounded prec emax m e = true ->
  valid_binary (SFsub prec emax sf360 (S754_finite false m e)) = true ->
  SFltb (SFsub prec emax sf360 (S754_finite false m e)) (S754_finite false m e)
  = SFltb sf180 (S754_finite false m e).
Proof.
  intros Hd Hr.
  destruct (bounded_canonical _ _ Hd) as (He & _ & _).
  assert (H180 : bounded prec emax 6333186975989760 (-45) = true) by reflexivity.
  rewrite (SFltb_SFZ sf180) by (try assumption; reflexivity).
  unfold sf360 in *.
  destruct (SFsub_pos_pos 6333186975989760 (-44) m e ltac:(lia) ltac:(lia)) as (N & HN & Hval).
  rewrite HN in *. clear HN.
  set (ez := Z.min (-44) e) in *.
  set (Zd := Zpos m * 2 ^ (e + 1074)) in *.
  assert (H360 : 6333186975989760 * 2 ^ (-44 + 1074) = 2 * SFZ sf180).
  { cbn [SFZ sf180 cond_Zopp].
    replace (-44 + 1074) with (1 + (-45 + 1074)) by lia.
    rewrite (pow2_split 1 (-45 + 1074)) by lia. change (2 ^ 1) with 2. ring. }
  rewrite H360 in Hval.
  assert (Hez : -1074 <= ez) by (unfold ez; lia).
  pose proof (pow2_pos (ez + 1074) ltac:(lia)) as Hpz.
  change (SFZ (S754_finite false m e)) with Zd.
  assert (H180pos : 0 < SFZ sf180) by reflexivity.
  destruct (Z.ltb_spec (SFZ sf180) Zd) as [Hgt|Hle].
  - (* above 180: the difference is below it *)
    destruct N as [|p|p]; cbn [binary_normalize] in *.
    + reflexivity.
    + destruct (binary_round_le false p ez 6333186975989760 (-45) Hez H180) as [Hz|(m' & e' & Hf & He' & Hb)].
      * change (SFZ sf180) with (6333186975989760 * 2 ^ (-45 + 1074)) in *. lia.
      * rewrite Hz. reflexivity.
      * rewrite Hf in *. rewrite SFltb_SFZ by (try assumption; reflexivity).
        cbn [SFZ cond_Zopp]. apply Z.ltb_lt.
        change (SFZ sf180) with (6333186975989760 * 2 ^ (-45 + 1074)) in *. fold Zd. lia.
    + destruct (binary_round_sign true p ez Hez) as [Hz|[Hi|(m' & e' & Hf)]].
      * rewrite Hz. reflexivity.
      * rewrite Hi. reflexivity.
      * rewrite Hf. reflexivity.
  - (* at most 180: the difference is at least it *)
    destruct N as [|p|p]; try lia; cbn [binary_normalize] in *.
    destruct (binary_round_ge false p ez 6333186975989760 (-45) Hez H180) as [Hi|(m' & e' & Hf & He' & Hb)].
    + change (SFZ sf180) with (6333186975989760 * 2 ^ (-45 + 1074)) in *. lia.
    + rewrite Hi. reflexivity.
    + rewrite Hf in *. rewrite SFltb_SFZ by (try assumption; reflexivity).
      cbn [SFZ cond_Zopp]. apply Z.ltb_ge.
      change (SFZ sf180) with (6333186975989760 * 2 ^ (-45 + 1074)) in *. fold Zd. lia.
Qed.

Local Open Scope float_scope.

Lemma Prim2SF_180 : Prim2SF 180 = sf180.
Proof. reflexivity. Qed.

Lemma Prim2SF_360 : Prim2SF 360 = sf360.
Proof. reflexivity. Qed.

(** For a hue difference [d = |x|], the test [d > 180] of the source
    and the test [360 - d < d] of a minimum agree. *)
Lemma hue_wrap_test (x : float) :
  let d := abs x in (360 - d <? d) = (180 <? d).
Proof.
  intros d.
  pose proof (Prim2SF_valid d) as Hd.
  pose proof (Prim2SF_valid (360 - d)) as Hr.
  rewrite !ltb_spec, sub_spec in *. rewrite Prim2SF_180, Prim2SF_360 in *.
  unfold d in *. rewrite abs_spec in *.
  destruct (Prim2SF x) as [s|s| |s m e]; cbn [SFabs] in *; try reflexivity.
  apply SF_wrap_test; assumption.
Qed.

Local Open Scope Z_scope.

(** ** Validity of rounded values *)

Lemma pack_valid sx m1 F mlow :
  0 <= m1 <= 2 ^ 53 -> -1074 <= F -> mlow <= m1 ->
  (-1074 < F -> 2 ^ 52 <= mlow) ->
  valid_binary (pack sx m1 F) = true.
Proof.
  intros Hm HF Hlow Hnorm. unfold pack.
  destruct (Z.eqb_spec m1 0); [reflexivity|].
  destruct (Z.eqb_spec m1 (2 ^ 53)) as [_|Hne].
  - destruct (Z.leb_spec (F + 1) 971); [|reflexivity].
    cbn [valid_binary SpecFloat.valid_binary]. unfold bounded, canonical_mantissa.
    rewrite fexp64. apply andb_true_iff. split; [|apply Z.leb_le; assumption].
    apply Z.eqb_eq. change (Zpos (digits2_pos (Z.to_pos (2 ^ 52)))) with 53. lia.
  - destruct (Z.leb_spec F 971); [|reflexivity].
    cbn [valid_binary SpecFloat.valid_binary]. unfold bounded, canonical_mantissa.
    rewrite fexp64. apply andb_true_iff. split; [|apply Z.leb_le; assumption].
    apply Z.eqb_eq.
    change (Zpos (digits2_pos (Z.to_pos m1))) with (Zdigits2 (Zpos (Z.to_pos m1))).
    rewrite Z2Pos.id by lia.
    destruct (Zdigits2_bounds m1 ltac:(lia)) as [Hlo Hhi].
    pose proof (Zdigits2_pos m1 ltac:(lia)).
    assert (Zdigits2 m1 <= 53).
    { assert (Zdigits2 m1 - 1 < 53); [|lia]. apply (Z.pow_lt_mono_r_iff 2); lia. }
    destruct (Z.eq_dec F (-1074)) as [->|]; [lia|].
    assert (53 <= Zdigits2 m1); [|lia].
    assert (52 < Zdigits2 m1); [|lia].
    apply (Z.pow_lt_mono_r_iff 2); lia.
Qed.

Lemma binary_round_aux_valid sx mx ex lx :
  0 <= mx ->
  ex <= fexp prec emax (Zdigits2 mx + ex) ->
  valid_binary (binary_round_aux prec emax sx mx ex lx) = true.
Proof.
  intros Hmx Hpre.
  destruct (binary_round_aux_cases sx mx ex lx Hmx Hpre) as (m1 & Hm1 & _ & Hm153 & ->).
  set (F := fexp prec emax (Zdigits2 mx + ex)) in *.
  assert (HF : -1074 <= F) by (unfold F; rewrite fexp64; lia).
  assert (Hn : 0 <= F - ex) by lia.
  pose proof (pow2_pos _ Hn) as Hp.
  assert (0 <= mx / 2 ^ (F - ex)) by (apply Z.div_pos; lia).
  apply (pack_valid sx m1 F (mx / 2 ^ (F - ex))); try lia.
  intros Hnorm.
  assert (Hpos : 0 < mx).
  { destruct (Z.eq_dec mx 0) as [->|]; [|lia].
    unfold F in *. rewrite fexp64 in *. cbn [Zdigits2] in *. lia. }
  assert (HFd : F = Zdigits2 mx + ex - 53) by (unfold F in *; rewrite fexp64 in *; lia).
  destruct (Zdigits2_bounds mx Hpos) as [Hlo _].
  apply Z.div_le_lower_bound; [lia|].
  rewrite <- pow2_split by lia.
  replace (F - ex + 52) with (Zdigits2 mx - 1) by lia. exact Hlo.
Qed.

Lemma binary_round_valid sx p e :
  -1074 <= e -> valid_binary (binary_round prec emax sx p e) = true.
Proof.
  intros He.
  destruct (binary_round_aligned sx p e He) as (mz & ez & -> & Hez & Hpre & Hval).
  apply binary_round_aux_valid; [lia|assumption].
Qed.

(** ** Integers up to [2^53] are binary64 numbers *)

Lemma int_canonical K :
  1 <= K <= 2 ^ 53 ->
  exists mT eT,
    bounded prec emax mT eT = true /\ Zpos mT * 2 ^ (eT + 1074) = K * 2 ^ 1074.
Proof.
  intros HK.
  destruct (Z.eq_dec K (2 ^ 53)) as [->|Hne].
  - exists (Z.to_pos (2 ^ 52)), 1. split; [reflexivity|].
    rewrite Z2Pos.id by easy. rewrite (pow2_split 1 1074) by lia.
    change (2 ^ 53) with (2 ^ 52 * 2 ^ 1). ring.
  - set (d := Zdigits2 K).
    destruct (Zdigits2_bounds K ltac:(lia)) as [Hlo Hhi]. fold d in Hlo, Hhi.
    pose proof (Zdigits2_pos K ltac:(lia)) as Hd. fold d in Hd.
    assert (Hd53 : d <= 53).
    { assert (d - 1 < 53); [|lia]. apply (Z.pow_lt_mono_r_iff 2); lia. }
    pose proof (pow2_pos (53 - d) ltac:(lia)) as Hp.
    exists (Z.to_pos (K * 2 ^ (53 - d))), (d - 53). split.
    + unfold bounded, canonical_mantissa. rewrite fexp64.
      apply andb_true_iff. split; [|apply Z.leb_le; change (emax - prec) with 971; lia].
      apply Z.eqb_eq.
      change (Zpos (digits2_pos (Z.to_pos (K * 2 ^ (53 - d)))))
        with (Zdigits2 (Zpos (Z.to_pos (K * 2 ^ (53 - d))))).
      rewrite Z2Pos.id by nia. rewrite Zdigits2_shift by lia. fold d. lia.
    + rewrite Z2Pos.id by nia.
      replace 1074 with ((53 - d) + (d - 53 + 1074)) at 2 by lia.
      rewrite (pow2_split (53 - d) (d - 53 + 1074)) by lia. ring.
Qed.

Lemma binary_normalize_int K :
  1 <= K <= 2 ^ 53 ->
  exists m e,
    binary_normalize prec emax K 0 false = S754_finite false m e
    /\ bounded prec emax m e = true
    /\ Zpos m * 2 ^ (e + 1074) = K * 2 ^ 1074.
Proof.
  intros HK. destruct K as [|p|p]; try lia. cbn [binary_normalize].
  destruct (int_canonical (Zpos p) HK) as (mT & eT & HT & HvT).
  pose proof (binary_round_valid false p 0 ltac:(lia)) as Hvalid.
  destruct (binary_round_le false p 0 mT eT ltac:(lia) HT ltac:(cbn [Z.add]; lia))
    as [Hz|(m & e & Hf & He & Hle)];
  destruct (binary_round_ge false p 0 mT eT ltac:(lia) HT ltac:(cbn [Z.add]; lia))
    as [Hi|(m' & e' & Hf' & He' & Hge)]; try congruence.
  rewrite Hf in Hf'. injection Hf' as <- <-.
  exists m, e. rewrite Hf in Hvalid. cbn [Z.add] in *. repeat split; [assumption|assumption|lia].
Qed.

Lemma nonneg_le_mono x k k' : nonneg_le x k -> k <= k' -> nonneg_le x k'.
Proof.
  unfold nonneg_le. destruct (Prim2SF x) as [| | |[] m e]; try easy.
  intros H Hk. apply Z.le_trans with (1 := H).
  apply Z.mul_le_mono_nonneg_r; [|assumption]. apply Z.lt_le_incl, pow2_pos. lia.
Qed.

End Binary64Rounding.

(** ** The order of numpy's summation *)

Section PairwiseSummation.

Import Binary64.

Lemma neg_zero_add (x : float) : (- 0 + x)%float = x.
Proof.
  apply Prim2SF_inj. rewrite add_spec.
  change (Prim2SF (- 0)) with (S754_zero true).
  unfold SF64add. destruct (Prim2SF x) as [[]| | |]; reflexivity.
Qed.

Lemma summed_nonempty l s : summed l s -> l <> [].
Proof.
  induction 1 as [x|l1 l2 x y _ IH1 _ _|l l' x Hperm _ IH].
  - discriminate.
  - destruct l1; [congruence|discriminate].
  - intros ->. apply Permutation_nil_r in Hperm. congruence.
Qed.

Lemma fold_summed rest :
  forall prefix acc,
    summed prefix acc -> summed (prefix ++ rest) (fold_left PrimFloat.add rest acc).
Proof.
  induction rest as [|x rest IH]; intros prefix acc Hacc; cbn [fold_left].
  - now rewrite app_nil_r.
  - replace (prefix ++ x :: rest) with ((prefix ++ [x]) ++ rest)
      by now rewrite <- app_assoc.
    apply IH. apply summed_add; [exact Hacc|constructor].
Qed.

Lemma add_each_length r : forall a, length (add_each r a) = length r.
Proof.
  induction r as [|x r IH]; intros [|y a]; cbn [add_each length]; auto.
Qed.

Lemma add_each_summed Ls r :
  Forall2 summed Ls r ->
  forall block,
    (length block <= length r)%nat ->
    exists Ls',
      Forall2 summed Ls' (add_each r block)
      /\ Permutation (concat Ls') (concat Ls ++ block).
Proof.
  induction 1 as [|L x Ls r HL Htail IH]; intros block Hlen.
  - destruct block; [|simpl in Hlen; lia].
    exists []. split; [constructor|reflexivity].
  - destruct block as [|y block]; cbn [add_each].
    + exists (L :: Ls). split; [now constructor|]. now rewrite app_nil_r.
    + simpl in Hlen. destruct (IH block ltac:(lia)) as (Ls' & Hsum & Hperm).
      exists ((L ++ [y]) :: Ls'). split.
      * constructor; [|exact Hsum]. apply summed_add; [exact HL|constructor].
      * cbn [concat]. rewrite Hperm, <- !app_assoc.
        apply Permutation_app_head. cbn [app].
        rewrite (Permutation_middle (concat Ls) block y). reflexivity.
Qed.

Lemma unrolled_loop_length groups :
  forall r rest, length (fst (unrolled_loop groups r rest)) = length r.
Proof.
  induction groups as [|groups IH]; intros r rest; cbn [unrolled_loop]; [reflexivity|].
  now rewrite IH, add_each_length.
Qed.

Lemma unrolled_loop_summed groups :
  forall Ls r rest,
    Forall2 summed Ls r -> length r = 8%nat ->
    exists Ls',
      Forall2 summed Ls' (fst (unrolled_loop groups r rest))
      /\ Permutation (concat Ls' ++ snd (unrolled_loop groups r rest))
                     (concat Ls ++ rest).
Proof.
  induction groups as [|groups IH]; intros Ls r rest Hsum Hlen; cbn [unrolled_loop].
  - exists Ls. split; [exact Hsum|reflexivity].
  - destruct (add_each_summed Ls r Hsum (firstn 8 rest)) as (Ls1 & Hsum1 & Hperm1).
    { rewrite length_firstn. lia. }
    destruct (IH Ls1 (add_each r (firstn 8 rest)) (skipn 8 rest) Hsum1)
      as (Ls' & Hsum' & Hperm').
    { now rewrite add_each_length. }
    exists Ls'. split; [exact Hsum'|].
    rewrite Hperm', Hperm1, <- app_assoc. now rewrite firstn_skipn.
Qed.

Lemma combine_sums_summed Ls r :
  Forall2 summed Ls r -> length r = 8%nat -> summed (concat Ls) (combine_sums r).
Proof.
  intros Hsum Hlen.
  destruct r as [|r0 [|r1 [|r2 [|r3 [|r4 [|r5 [|r6 [|r7 [|? ?]]]]]]]]]; try discriminate.
  repeat match goal with
         | H : Forall2 summed _ (_ :: _) |- _ =>
             apply Forall2_cons_inv_r in H as (? & ? & ? & H & ->)
         | H : Forall2 summed _ [] |- _ => apply Forall2_nil_inv_r in H as ->
         end.
  cbn [concat combine_sums]. rewrite app_nil_r.
  eapply summed_perm; [|repeat apply summed_add; eassumption].
  rewrite <- !app_assoc. reflexivity.
Qed.

Lemma singletons_summed (l : list float) :
  Forall2 summed (map (fun x => [x]) l) l /\ concat (map (fun x => [x]) l) = l.
Proof.
  induction l as [|x l [IH1 IH2]]; cbn [map concat]; split; try constructor;
    try assumption; [constructor|now rewrite IH2].
Qed.

Lemma block_sum_summed (a : list float) :
  (8 <= length a)%nat -> summed a (block_sum a).
Proof.
  intros Hlen. unfold block_sum. cbv zeta.
  destruct (singletons_summed (firstn 8 a)) as [Hsum0 Hconcat0].
  destruct (unrolled_loop_summed ((length a - length a mod 8) / 8 - 1)
              _ (firstn 8 a) (skipn 8 a) Hsum0) as (Ls & Hsum & Hperm).
  { rewrite length_firstn. lia. }
  destruct (unrolled_loop _ _ _) as [r rest] eqn:Eloop. cbn [fst snd] in *.
  assert (Hr : length r = 8%nat).
  { pose proof (unrolled_loop_length ((length a - length a mod 8) / 8 - 1)
                  (firstn 8 a) (skipn 8 a)) as Hr'.
    rewrite Eloop in Hr'. cbn [fst] in Hr'. rewrite Hr', length_firstn. lia. }
  eapply summed_perm; [|apply fold_summed, (combine_sums_summed Ls r Hsum Hr)].
  rewrite Hperm, Hconcat0. now rewrite firstn_skipn.
Qed.

Lemma pairwise_sum_summed depth :
  forall a, a <> [] -> summed a (pairwise_sum depth a).
Proof.
  assert (Hsmall : forall a, a <> [] ->
            summed a (fold_left PrimFloat.add a (- 0)%float)).
  { intros [|x rest] Hne; [congruence|]. cbn [fold_left]. rewrite neg_zero_add.
    apply (fold_summed rest [x] x). constructor. }
  induction depth as [|depth IH]; intros a Hne; cbn [pairwise_sum]; cbv zeta;
    (destruct (Nat.ltb_spec (length a) 8) as [Hlt|Hge]; [now apply Hsmall|]);
    (destruct (Nat.leb_spec (length a) PW_BLOCKSIZE) as [Hle|Hgt];
     [apply block_sum_summed; lia|]).
  - apply block_sum_summed. lia.
  - unfold PW_BLOCKSIZE in Hgt.
    set (n2 := (length a / 2 - (length a / 2) mod 8)%nat).
    pose proof (Nat.mod_upper_bound (length a / 2) 8 ltac:(lia)) as Hmod.
    assert (Hhalf : (64 <= length a / 2)%nat) by (apply Nat.div_le_lower_bound; lia).
    assert (Hhalf' : (length a / 2 < length a)%nat) by (apply Nat.div_lt; lia).
    rewrite <- (firstn_skipn n2 a) at 1.
    apply summed_add; apply IH; intros Hnil; apply (f_equal (@length float)) in Hnil;
      rewrite ?length_firstn, ?length_skipn in Hnil; cbn [length] in Hnil;
      unfold n2 in Hnil; lia.
Qed.

(** The depth [np_sum] gives is enough: any depth of at least the
    length of the array gives the same sum. *)
Lemma pairwise_sum_depth depth1 :
  forall depth2 a,
    (length a <= depth1)%nat -> (length a <= depth2)%nat ->
    pairwise_sum depth1 a = pairwise_sum depth2 a.
Proof.
  induction depth1 as [|depth1 IH]; intros depth2 a H1 H2.
  - destruct a; [|cbn [length] in H1; lia]. now destruct depth2.
  - destruct depth2 as [|depth2]; [destruct a; [reflexivity|cbn [length] in H2; lia]|].
    cbn [pairwise_sum]. cbv zeta.
    destruct (Nat.ltb_spec (length a) 8) as [Hlt|Hge]; [reflexivity|].
    destruct (Nat.leb_spec (length a) PW_BLOCKSIZE) as [Hle|Hgt]; [reflexivity|].
    unfold PW_BLOCKSIZE in Hgt.
    set (n2 := (length a / 2 - (length a / 2) mod 8)%nat).
    pose proof (Nat.mod_upper_bound (length a / 2) 8 ltac:(lia)) as Hmod.
    assert (Hhalf : (64 <= length a / 2)%nat) by (apply Nat.div_le_lower_bound; lia).
    assert (Hhalf' : (length a / 2 < length a)%nat) by (apply Nat.div_lt; lia).
    rewrite (IH depth2 (firstn n2 a)), (IH depth2 (skipn n2 a));
      rewrite ?length_firstn, ?length_skipn; unfold n2; try reflexivity; lia.
Qed.

End PairwiseSummation.

(** ** Rounding errors of a sum and of a quotient *)

Section MeanRounding.

Import Binary64.

Local Open Scope Z_scope.

(** The multiples of [2^(b-53)] up to [2^b] are binary64 numbers. *)
Lemma grid_canonical K b :
  1 <= K <= 2 ^ 53 -> 0 <= b <= 53 ->
  exists mT eT,
    bounded prec emax mT eT = true
    /\ Zpos mT * 2 ^ (eT + 1074) = K * 2 ^ (b + 1021).
Proof.
  intros HK Hb.
  destruct (Z.eq_dec K (2 ^ 53)) as [->|Hne].
  - exists (Z.to_pos (2 ^ 52)), (b - 52). split.
    + unfold bounded, canonical_mantissa. rewrite fexp64.
      apply andb_true_iff. split; [|apply Z.leb_le; change (emax - prec) with 971; lia].
      apply Z.eqb_eq.
      change (Zpos (digits2_pos (Z.to_pos (2 ^ 52)))) with 53. lia.
    + rewrite Z2Pos.id by easy.
      replace (b - 52 + 1074) with (1 + (b + 1021)) by lia.
      rewrite (pow2_split 1 (b + 1021)) by lia.
      change (2 ^ 53) with (2 ^ 52 * 2 ^ 1). ring.
  - set (d := Zdigits2 K).
    destruct (Zdigits2_bounds K ltac:(lia)) as [Hlo Hhi]. fold d in Hlo, Hhi.
    pose proof (Zdigits2_pos K ltac:(lia)) as Hd. fold d in Hd.
    assert (Hd53 : d <= 53).
    { assert (d - 1 < 53); [|lia]. apply (Z.pow_lt_mono_r_iff 2); lia. }
    pose proof (pow2_pos (53 - d) ltac:(lia)) as Hp.
    exists (Z.to_pos (K * 2 ^ (53 - d))), (d + b - 106). split.
    + unfold bounded, canonical_mantissa. rewrite fexp64.
      apply andb_true_iff. split; [|apply Z.leb_le; change (emax - prec) with 971; lia].
      apply Z.eqb_eq.
      change (Zpos (digits2_pos (Z.to_pos (K * 2 ^ (53 - d)))))
        with (Zdigits2 (Zpos (Z.to_pos (K * 2 ^ (53 - d))))).
      rewrite Z2Pos.id by nia. rewrite Zdigits2_shift by lia. fold d. lia.
    + rewrite Z2Pos.id by nia.
      replace (b + 1021) with ((53 - d) + (d + b - 106 + 1074)) by lia.
      rewrite (pow2_split (53 - d) (d + b - 106 + 1074)) by lia. ring.
Qed.

(** A non-negative finite number and its exact value. *)
Lemma nonneg_le_exact x k :
  0 <= k -> nonneg_le x k ->
  SFnonneg (Prim2SF x) = true /\ 0 <= exact x <= k * 2 ^ 1074.
Proof.
  unfold nonneg_le, exact. intros Hk.
  pose proof (pow2_pos 1074 ltac:(lia)) as Hp.
  destruct (Prim2SF x) as [| | |[] m e]; cbn [SFZ cond_Zopp SFnonneg]; try easy.
  - intros _. split; [reflexivity|]. split; [lia|]. apply Z.mul_nonneg_nonneg; lia.
  - intros H. split; [reflexivity|]. split; [|exact H].
    apply Z.mul_nonneg_nonneg; [lia|]. apply Z.pow_nonneg. lia.
Qed.

Lemma exact_nonneg_le x k :
  SFnonneg (Prim2SF x) = true -> exact x <= k * 2 ^ 1074 -> nonneg_le x k.
Proof.
  unfold nonneg_le, exact.
  destruct (Prim2SF x) as [| | |[] m e]; cbn [SFZ cond_Zopp SFnonneg]; easy.
Qed.

(** Rounding a positive number that is at most [2^b] moves it by at
    most [2^(b-53)], and not beyond an integer bound. *)
Lemma binary_round_between N e K b :
  -1074 <= e -> 1 <= K <= 2 ^ b -> 0 <= b <= 53 ->
  Zpos N * 2 ^ (e + 1074) <= K * 2 ^ 1074 ->
  let r := binary_round prec emax false N e in
  SFnonneg r = true
  /\ SFZ r <= K * 2 ^ 1074
  /\ Z.abs (SFZ r - Zpos N * 2 ^ (e + 1074)) <= 2 ^ (b + 1021).
Proof.
  intros He HK Hb Hle r.
  set (v := Zpos N * 2 ^ (e + 1074)) in *.
  set (g := 2 ^ (b + 1021)).
  assert (Hg : 0 < g) by (apply pow2_pos; lia).
  assert (Hv : 0 < v).
  { unfold v. apply Z.mul_pos_pos; [lia|]. apply pow2_pos. lia. }
  assert (Htop : K * 2 ^ 1074 <= 2 ^ 53 * g).
  { unfold g. rewrite <- (pow2_split 53 (b + 1021)) by lia.
    replace (53 + (b + 1021)) with (b + 1074) by lia.
    rewrite (pow2_split b 1074) by lia.
    apply Z.mul_le_mono_nonneg_r; [|lia]. apply Z.lt_le_incl, pow2_pos. lia. }
  pose proof (Z.div_mod v g ltac:(lia)) as Hdm.
  pose proof (Z.mod_pos_bound v g Hg) as Hrho.
  set (J := v / g) in *. set (rho := v mod g) in *.
  assert (HJ0 : 0 <= J) by (apply Z.div_pos; lia).
  assert (HJtop : g * J <= 2 ^ 53 * g) by lia.
  assert (HJ53 : J <= 2 ^ 53).
  { apply Z.mul_le_mono_pos_l with (p := g); [exact Hg|]. lia. }
  (* the integer bound *)
  assert (H53 : 2 ^ b <= 2 ^ 53) by (apply Z.pow_le_mono_r; lia).
  destruct (int_canonical K ltac:(lia)) as (mK & eK & HbK & HvK).
  pose proof (binary_round_le false N e mK eK He HbK ltac:(fold v; lia)) as Hint.
  (* the grid point above *)
  set (Ju := if Z.eq_dec rho 0 then J else J + 1).
  assert (HJu : 1 <= Ju <= 2 ^ 53 /\ v <= Ju * g /\ Ju * g <= v + g).
  { unfold Ju. destruct (Z.eq_dec rho 0) as [Hz|Hnz].
    - assert (J <> 0) by (intros HJ; rewrite HJ in Hdm; lia). lia.
    - assert (J <> 2 ^ 53) by (intros HJ; rewrite HJ in Hdm, HJtop; lia). lia. }
  destruct HJu as (HJu1 & HJu2 & HJu3).
  destruct (grid_canonical Ju b HJu1 Hb) as (mU & eU & HbU & HvU). fold g in HvU.
  pose proof (binary_round_le false N e mU eU He HbU ltac:(fold v; lia)) as Hup.
  fold r in Hint, Hup.
  destruct (Z.eq_dec J 0) as [HJz|HJnz].
  - (* below the first grid point *)
    destruct Hint as [Hz|(m & e' & Hf & He' & Hm)].
    + rewrite Hz. cbn [SFnonneg SFZ]. split; [reflexivity|]. split; [lia|].
      rewrite HJz in Hdm. lia.
    + destruct Hup as [Hz|(m' & e'' & Hf' & _ & Hm')]; [congruence|].
      rewrite Hf in Hf'. injection Hf' as <- <-.
      rewrite Hf. cbn [SFnonneg SFZ cond_Zopp]. split; [reflexivity|]. split; [lia|].
      assert (0 < Zpos m * 2 ^ (e' + 1074)).
      { apply Z.mul_pos_pos; [lia|]. apply pow2_pos. lia. }
      rewrite HJz in Hdm. lia.
  - destruct (grid_canonical J b ltac:(lia) Hb) as (mL & eL & HbL & HvL). fold g in HvL.
    pose proof (binary_round_ge false N e mL eL He HbL ltac:(fold v; lia)) as Hlo.
    fold r in Hlo.
    destruct Hlo as [Hi|(m & e' & Hf & He' & Hm)].
    + destruct Hint as [Hz|(m & e' & Hf & _)]; congruence.
    + destruct Hint as [Hz|(m1 & e1 & Hf1 & _ & Hm1)]; [congruence|].
      destruct Hup as [Hz|(m2 & e2 & Hf2 & _ & Hm2)]; [congruence|].
      rewrite Hf in Hf1, Hf2. injection Hf1 as <- <-. injection Hf2 as <- <-.
      rewrite Hf. cbn [SFnonneg SFZ cond_Zopp]. split; [reflexivity|]. split; [lia|].
      lia.
Qed.

(** The sum of two non-negative numbers: bounded by the sum of their
    integer bounds, and within [2^(b-53)] of the exact sum. *)
Lemma add_between (x y : float) k1 k2 b :
  0 <= k1 -> 0 <= k2 -> k1 + k2 <= 2 ^ b -> 0 <= b <= 53 ->
  nonneg_le x k1 -> nonneg_le y k2 ->
  nonneg_le (x + y)%float (k1 + k2)
  /\ Z.abs (exact (x + y)%float - (exact x + exact y)) <= 2 ^ (b + 1021).
Proof.
  intros Hk1 Hk2 Hk Hb Hx Hy.
  pose proof (pow2_pos 1074 ltac:(lia)) as Hp.
  pose proof (pow2_pos (b + 1021) ltac:(lia)) as Hg.
  destruct (nonneg_le_exact x k1 Hk1 Hx) as [Hnx Hex].
  destruct (nonneg_le_exact y k2 Hk2 Hy) as [Hny Hey].
  pose proof (Prim2SF_valid x) as Hvx. pose proof (Prim2SF_valid y) as Hvy.
  enough (H : SFnonneg (Prim2SF (x + y)%float) = true
              /\ exact (x + y)%float <= (k1 + k2) * 2 ^ 1074
              /\ Z.abs (exact (x + y)%float - (exact x + exact y)) <= 2 ^ (b + 1021)).
  { destruct H as (Hn & Hle & Herr). split; [now apply exact_nonneg_le|exact Herr]. }
  unfold exact in *. rewrite add_spec. unfold SF64add.
  destruct (Prim2SF x) as [sx| | |[] mx ex]; try discriminate;
    destruct (Prim2SF y) as [sy| | |[] my ey]; try discriminate;
    cbn [SFZ cond_Zopp] in *.
  - assert (Hz : exists s, SFadd prec emax (S754_zero sx) (S754_zero sy) = S754_zero s)
      by (destruct sx, sy; eexists; reflexivity).
    destruct Hz as [s ->]. cbn [SFnonneg SFZ]. split; [reflexivity|]. split; nia.
  - cbn [SFadd SFnonneg SFZ cond_Zopp]. split; [reflexivity|]. split; [nia|].
    rewrite Z.add_0_l, Z.sub_diag. cbn [Z.abs]. lia.
  - cbn [SFadd SFnonneg SFZ cond_Zopp]. split; [reflexivity|]. split; [nia|].
    rewrite Z.add_0_r, Z.sub_diag. cbn [Z.abs]. lia.
  - cbn [valid_binary SpecFloat.valid_binary] in Hvx, Hvy.
    destruct (bounded_canonical _ _ Hvx) as (Hbx & _ & _).
    destruct (bounded_canonical _ _ Hvy) as (Hby & _ & _).
    destruct (SFadd_pos_pos mx ex my ey ltac:(lia) ltac:(lia)) as (N & -> & HN).
    cbn [binary_normalize]. rewrite <- HN.
    assert (Hpos : 0 < Zpos N * 2 ^ (Z.min ex ey + 1074)).
    { apply Z.mul_pos_pos; [lia|]. apply pow2_pos. lia. }
    assert (HK : 1 <= k1 + k2) by nia.
    apply (binary_round_between N (Z.min ex ey) (k1 + k2) b); lia.
Qed.

(** Adding to [0.0] keeps a non-negative number. *)
Lemma zero_add_exact (x : float) :
  SFnonneg (Prim2SF x) = true ->
  SFnonneg (Prim2SF (0 + x)%float) = true /\ exact (0 + x)%float = exact x.
Proof.
  unfold exact. rewrite add_spec. unfold SF64add.
  change (Prim2SF 0) with (S754_zero false).
  destruct (Prim2SF x) as [[]| | |[] m e]; try discriminate; intros _; now split.
Qed.

Lemma exact_sum_app l1 l2 : exact_sum (l1 ++ l2) = exact_sum l1 + exact_sum l2.
Proof.
  unfold exact_sum. induction l1 as [|x l1 IH]; cbn [app fold_right]; [reflexivity|].
  rewrite IH. ring.
Qed.

Lemma exact_sum_Permutation l l' : Permutation l l' -> exact_sum l = exact_sum l'.
Proof.
  unfold exact_sum.
  induction 1 as [|x l l' _ IH|x y l|l l' l'' _ IH1 _ IH2]; cbn [fold_right];
    [reflexivity|now rewrite IH|ring|congruence].
Qed.

(** However the elements are ordered and grouped, the sum of [n]
    numbers between 0 and 1, with [n <= 2^b <= 2^53], is at most [n]
    and within [(n - 1) * 2^(b-53)] of the exact sum. *)
Lemma summed_between b l s :
  summed l s -> 0 <= b <= 53 ->
  Forall (fun x => nonneg_le x 1) l ->
  Z.of_nat (length l) <= 2 ^ b ->
  nonneg_le s (Z.of_nat (length l))
  /\ Z.abs (exact s - exact_sum l) <= (Z.of_nat (length l) - 1) * 2 ^ (b + 1021).
Proof.
  intros Hsum Hb. pose proof (pow2_pos (b + 1021) ltac:(lia)) as Hg.
  induction Hsum as [x|l1 l2 x y H1 IH1 H2 IH2|l l' x Hperm _ IH]; intros Hall Hlen.
  - apply Forall_cons_iff in Hall as [Hx _]. cbn [length exact_sum fold_right].
    split; [exact Hx|]. rewrite Z.add_0_r, Z.sub_diag. cbn. lia.
  - apply Forall_app in Hall as [Hall1 Hall2].
    rewrite length_app, Nat2Z.inj_add in *.
    pose proof (summed_nonempty _ _ H1) as Hne1.
    pose proof (summed_nonempty _ _ H2) as Hne2.
    assert (Hn1 : 1 <= Z.of_nat (length l1)) by (destruct l1; [congruence|cbn [length]; lia]).
    assert (Hn2 : 1 <= Z.of_nat (length l2)) by (destruct l2; [congruence|cbn [length]; lia]).
    destruct (IH1 Hall1 ltac:(lia)) as [Hb1 He1].
    destruct (IH2 Hall2 ltac:(lia)) as [Hb2 He2].
    destruct (add_between x y (Z.of_nat (length l1)) (Z.of_nat (length l2)) b
                ltac:(lia) ltac:(lia) Hlen Hb Hb1 Hb2) as [Hle Herr].
    split; [exact Hle|]. rewrite exact_sum_app.
    set (g := 2 ^ (b + 1021)) in *.
    replace ((Z.of_nat (length l1) + Z.of_nat (length l2) - 1) * g)
      with ((Z.of_nat (length l1) - 1) * g + (Z.of_nat (length l2) - 1) * g + g) by ring.
    lia.
  - rewrite <- (Permutation_length Hperm), <- (exact_sum_Permutation _ _ Hperm).
    apply IH; [|now rewrite (Permutation_length Hperm)].
    now rewrite Hperm.
Qed.

Lemma new_location_exact nb k :
  new_location nb k = loc_Exact -> k = 0.
Proof.
  unfold new_location, new_location_even, new_location_odd.
  destruct (Z.even nb); destruct (Z.eqb_spec k 0); congruence.
Qed.

Lemma new_location_zero nb : new_location nb 0 = loc_Exact.
Proof.
  unfold new_location, new_location_even, new_location_odd.
  now destruct (Z.even nb).
Qed.

Lemma shiftl_match m s :
  0 <= s ->
  match s with 0 => m | Zpos _ => Z.shiftl m s | Zneg _ => 0 end = m * 2 ^ s.
Proof.
  intros Hs. destruct s as [|p|p].
  - change (2 ^ 0) with 1. now rewrite Z.mul_1_r.
  - now rewrite Z.shiftl_mul_pow2 by lia.
  - lia.
Qed.

(** The quotient of a positive number by one that is not smaller: the
    integer quotient [q] at exponent [e'], with the remainder, is what
    gets rounded. *)
Lemma SFdiv_quotient ms es mn en :
  bounded prec emax ms es = true -> bounded prec emax mn en = true ->
  Zpos ms * 2 ^ (es + 1074) <= Zpos mn * 2 ^ (en + 1074) ->
  exists q rem e',
    SFdiv prec emax (S754_finite false ms es) (S754_finite false mn en)
    = binary_round_aux prec emax false q e' (new_location (Zpos mn) rem)
    /\ 0 <= q /\ 0 <= rem < Zpos mn
    /\ -2045 <= e' <= -53
    /\ e' <= fexp prec emax (Zdigits2 q + e')
    /\ 0 <= es - en - e'
    /\ Zpos ms * 2 ^ (es - en - e') = Zpos mn * q + rem.
Proof.
  intros Hs Hn Hle. cbn [SFdiv xorb].
  destruct (bounded_canonical _ _ Hs) as (Hes & Hms & _).
  destruct (bounded_canonical _ _ Hn) as (Hen & Hmn & _).
  unfold SFdiv_core_binary.
  set (d1 := Zdigits2 (Zpos ms)). set (d2 := Zdigits2 (Zpos mn)).
  set (e' := Z.min (fexp prec emax (d1 + es - (d2 + en))) (es - en)).
  set (s := es - en - e').
  assert (Hdig : d1 + es <= d2 + en).
  { apply (digits_exponent_le (Zpos ms) es (Zpos mn) en 1074); lia. }
  assert (He'53 : e' <= -53) by (unfold e'; rewrite fexp64; lia).
  assert (He'lo : -2045 <= e') by (unfold e'; rewrite fexp64; lia).
  assert (Hs0 : 0 <= s) by (unfold s, e'; lia).
  set (m' := match s with 0 => Zpos ms | Zpos _ => Z.shiftl (Zpos ms) s | Zneg _ => 0 end).
  assert (Hm' : m' = Zpos ms * 2 ^ s) by (apply shiftl_match; assumption).
  clearbody m'.
  pose proof (pow2_pos s Hs0) as Hps.
  pose proof (Z.div_eucl_eq m' (Zpos mn) ltac:(lia)) as Heq.
  pose proof (Z.mod_pos_bound m' (Zpos mn) ltac:(lia)) as Hrem.
  unfold Z.modulo in Hrem.
  change (IntDef.Z.div_eucl m' (Zpos mn)) with (Z.div_eucl m' (Zpos mn)).
  destruct (Z.div_eucl m' (Zpos mn)) as [q rem].
  assert (Hq0 : 0 <= q) by nia.
  exists q, rem, e'. split; [reflexivity|]. split; [exact Hq0|]. split; [exact Hrem|].
  split; [lia|]. split; [|split; [exact Hs0|fold s; rewrite <- Hm'; exact Heq]].
  rewrite fexp64. destruct (Z.le_gt_cases e' (-1074)) as [|Hbig]; [lia|].
  assert (Hs53 : d2 - d1 + 53 <= s) by (unfold s, e' in *; rewrite fexp64 in *; lia).
  destruct (Zdigits2_bounds (Zpos ms) ltac:(lia)) as [Hlo1 _]. fold d1 in Hlo1.
  destruct (Zdigits2_bounds (Zpos mn) ltac:(lia)) as [_ Hhi2]. fold d2 in Hhi2.
  pose proof (Zdigits2_pos (Zpos ms) ltac:(lia)) as Hd1. fold d1 in Hd1.
  pose proof (Zdigits2_pos (Zpos mn) ltac:(lia)) as Hd2. fold d2 in Hd2.
  assert (H52 : 2 ^ 52 <= q).
  { assert (Hbig' : 2 ^ (d2 + 52) <= m').
    { rewrite Hm'. apply Z.le_trans with (2 ^ (d1 - 1) * 2 ^ s).
      - rewrite <- pow2_split by lia. apply Z.pow_le_mono_r; lia.
      - apply Z.mul_le_mono_nonneg_r; lia. }
    rewrite (pow2_split d2 52) in Hbig' by lia.
    assert (Zpos mn * 2 ^ 52 <= 2 ^ d2 * 2 ^ 52) by (apply Z.mul_le_mono_nonneg_r; lia).
    assert (Zpos mn * 2 ^ 52 <= Zpos mn * q + rem) by lia.
    assert (2 ^ 52 < q + 1); [|lia].
    apply Z.mul_lt_mono_pos_l with (p := Zpos mn); [lia|]. lia. }
  assert (53 <= Zdigits2 q); [|lia].
  assert (52 < Zdigits2 q); [|lia].
  destruct (Zdigits2_bounds q ltac:(lia)) as [_ Hhi].
  pose proof (Zdigits2_nonneg q).
  apply (Z.pow_lt_mono_r_iff 2); lia.
Qed.

(** The quotient of a positive number by an integer not below it is
    at most 1 and within [2^-53] of the exact quotient. *)
Lemma SFdiv_between ms es mn en n :
  bounded prec emax ms es = true -> bounded prec emax mn en = true ->
  1 <= n <= 2 ^ 53 ->
  Zpos mn * 2 ^ (en + 1074) = n * 2 ^ 1074 ->
  Zpos ms * 2 ^ (es + 1074) <= n * 2 ^ 1074 ->
  let r := SFdiv prec emax (S754_finite false ms es) (S754_finite false mn en) in
  SFnonneg r = true
  /\ SFZ r <= 2 ^ 1074
  /\ Z.abs (n * SFZ r - Zpos ms * 2 ^ (es + 1074)) <= n * 2 ^ 1021.
Proof.
  intros Hs Hn Hn53 HY Hle r.
  destruct (bounded_canonical _ _ Hs) as (Hes & Hms & _).
  destruct (bounded_canonical _ _ Hn) as (Hen & Hmn & _).
  destruct (SFdiv_quotient ms es mn en Hs Hn ltac:(lia))
    as (q & rem & e' & Hr & Hq0 & Hrem & He' & Hpre & Hs0 & Hrel).
  fold r in Hr.
  set (X := Zpos ms * 2 ^ (es + 1074)) in *.
  set (w := 2 ^ 1021).
  set (c := 2 ^ (- 53 - e')).
  set (t := 2 ^ (en + 1074)) in *.
  assert (Hw : 0 < w) by (apply pow2_pos; lia).
  assert (Hc : 0 < c) by (apply pow2_pos; lia).
  assert (Ht : 0 < t) by (apply pow2_pos; lia).
  assert (HX : 0 < X) by (apply Z.mul_pos_pos; [lia|apply pow2_pos; lia]).
  assert (H1074 : 2 ^ 1074 = 2 ^ 53 * w).
  { unfold w. now rewrite <- (pow2_split 53 1021) by lia. }
  (* the quotient and the grid of multiples of 2^-53 *)
  assert (Hscale : (Zpos mn * q + rem) * t = X * 2 ^ 53 * c).
  { rewrite <- Hrel. unfold X, t, c.
    rewrite <- !Z.mul_assoc. f_equal.
    rewrite <- (pow2_split (es - en - e') (en + 1074)) by lia.
    rewrite <- (pow2_split 53 (- 53 - e')), <- (pow2_split (es + 1074) (53 + (- 53 - e')))
      by lia.
    f_equal. lia. }
  set (Y := n * 2^1074) in *.
  assert (HYpos : 0 < Y) by (unfold Y; apply Z.mul_pos_pos; [lia|apply pow2_pos; lia]).
  assert (Hgrid : forall J, Zpos mn * (J * c) * t = J * c * Y).
  { intros J. rewrite <- HY. ring. }
  pose proof (Z.div_mod (X * 2 ^ 53) Y ltac:(lia)) as Hdm.
  pose proof (Z.mod_pos_bound (X * 2 ^ 53) Y HYpos) as Hrho.
  set (J := X * 2 ^ 53 / Y) in *. set (rho := (X * 2 ^ 53) mod Y) in *.
  assert (HJ0 : 0 <= J) by (apply Z.div_pos; lia).
  assert (HJ53 : J <= 2 ^ 53).
  { apply Z.mul_le_mono_pos_l with (p := Y); [exact HYpos|].
    assert (X * 2 ^ 53 <= Y * 2 ^ 53) by (apply Z.mul_le_mono_nonneg_r; lia). lia. }
  set (Ju := if Z.eq_dec rho 0 then J else J + 1).
  assert (HJu : 1 <= Ju <= 2 ^ 53 /\ X * 2 ^ 53 <= Ju * Y /\ Ju <= J + 1).
  { assert (0 < X * 2 ^ 53) by (apply Z.mul_pos_pos; lia).
    unfold Ju. destruct (Z.eq_dec rho 0) as [Hz|Hnz].
    - assert (J <> 0) by (intros HJ; rewrite HJ in Hdm; lia). lia.
    - assert (J <> 2 ^ 53).
      { intros HJ. rewrite HJ in Hdm.
        assert (X * 2 ^ 53 <= Y * 2 ^ 53) by (apply Z.mul_le_mono_nonneg_r; lia). lia. }
      lia. }
  destruct HJu as (HJu1 & HJu2 & HJu3).
  (* the quotient is not above the upper grid point *)
  assert (Hup : Zpos mn * q + rem <= Zpos mn * (Ju * c)).
  { apply Z.mul_le_mono_pos_r with (p := t); [exact Ht|].
    rewrite Hscale, Hgrid.
    replace (Ju * c * Y) with (Ju * Y * c) by ring.
    apply Z.mul_le_mono_nonneg_r; lia. }
  assert (Hceil : (match new_location (Zpos mn) rem with loc_Exact => q | _ => q + 1 end)
                  <= Ju * c).
  { assert (Hq : q <= Ju * c).
    { apply Z.mul_le_mono_pos_l with (p := Zpos mn); lia. }
    destruct (new_location (Zpos mn) rem) eqn:El; [exact Hq|].
    assert (rem <> 0) by (intros ->; rewrite new_location_zero in El; discriminate).
    assert (q < Ju * c); [|lia].
    apply Z.mul_lt_mono_pos_l with (p := Zpos mn); lia. }
  (* nor below the lower one *)
  assert (Hlo : J * c <= q).
  { assert (Hlt : Zpos mn * (J * c) <= Zpos mn * q + rem).
    { apply Z.mul_le_mono_pos_r with (p := t); [exact Ht|].
      rewrite Hscale, Hgrid.
      replace (J * c * Y) with (Y * J * c) by ring.
      apply Z.mul_le_mono_nonneg_r; lia. }
    assert (J * c < q + 1); [|lia].
    apply Z.mul_lt_mono_pos_l with (p := Zpos mn); lia. }
  (* thresholds at the scale of the rounding *)
  assert (Hthr : forall K m e,
             Zpos m * 2 ^ (e + 1074) = K * 2 ^ (0 + 1021) ->
             -1074 <= e ->
             Zpos m * 2 ^ (e + 3000) = K * c * 2 ^ (e' + 3000)).
  { intros K m e HK He. replace (e + 3000) with ((e + 1074) + 1926) by lia.
    rewrite (pow2_split (e + 1074) 1926), Z.mul_assoc, HK by lia.
    unfold c. rewrite <- !Z.mul_assoc. f_equal.
    rewrite <- (pow2_split (0 + 1021) 1926), <- (pow2_split (- 53 - e') (e' + 3000)) by lia.
    f_equal. lia. }
  assert (Hback : forall m e K,
             -1074 <= e ->
             (Zpos m * 2 ^ (e + 3000) <= K * c * 2 ^ (e' + 3000) ->
              Zpos m * 2 ^ (e + 1074) <= K * w)
             /\ (K * c * 2 ^ (e' + 3000) <= Zpos m * 2 ^ (e + 3000) ->
                 K * w <= Zpos m * 2 ^ (e + 1074))).
  { intros m e K He.
    assert (Hl : Zpos m * 2 ^ (e + 3000) = Zpos m * 2 ^ (e + 1074) * 2 ^ 1926).
    { replace (e + 3000) with ((e + 1074) + 1926) by lia.
      rewrite (pow2_split (e + 1074) 1926) by lia. ring. }
    assert (Hr' : K * c * 2 ^ (e' + 3000) = K * w * 2 ^ 1926).
    { unfold c, w. rewrite <- !Z.mul_assoc. f_equal.
      rewrite <- (pow2_split (- 53 - e') (e' + 3000)), <- (pow2_split 1021 1926) by lia.
      f_equal. lia. }
    rewrite Hl, Hr'. pose proof (pow2_pos 1926 ltac:(lia)) as Hp.
    split; intros H; apply Z.mul_le_mono_pos_r in H; assumption. }
  pose proof (pow2_pos (e' + 3000) ltac:(lia)) as Hpe.
  destruct (grid_canonical Ju 0 HJu1 ltac:(lia)) as (mU & eU & HbU & HvU).
  destruct (bounded_canonical _ _ HbU) as (HeU & _ & _).
  destruct (binary_round_aux_le false q e' (new_location (Zpos mn) rem) mU eU 3000
              Hq0 Hpre HbU ltac:(lia) ltac:(lia)) as [Hz|(m & e & Hf & He & Hm)].
  { rewrite (Hthr Ju mU eU HvU ltac:(lia)).
    apply Z.mul_le_mono_nonneg_r; [lia|exact Hceil]. }
  - (* the quotient rounds to zero *)
    rewrite <- Hr in Hz. rewrite Hz. cbn [SFnonneg SFZ]. split; [reflexivity|].
    split; [apply Z.lt_le_incl, pow2_pos; lia|].
    assert (HJz : J = 0).
    { destruct (Z.eq_dec J 0) as [|HJnz]; [assumption|exfalso].
      destruct (grid_canonical J 0 ltac:(lia) ltac:(lia)) as (mL & eL & HbL & HvL).
      destruct (bounded_canonical _ _ HbL) as (HeL & _ & _).
      assert (Hq1 : 0 < q).
      { apply Z.lt_le_trans with (J * c); [|exact Hlo]. apply Z.mul_pos_pos; lia. }
      destruct (binary_round_aux_ge false q e' (new_location (Zpos mn) rem) mL eL 3000
                  Hq1 Hpre HbL ltac:(lia) ltac:(lia)) as [Hi|(m & e & Hf & _)].
      { rewrite (Hthr J mL eL HvL ltac:(lia)).
        apply Z.mul_le_mono_nonneg_r; [lia|exact Hlo]. }
      - rewrite <- Hr, Hz in Hi. discriminate.
      - rewrite <- Hr, Hz in Hf. discriminate. }
    rewrite HJz in *. rewrite Z.mul_0_r, Z.sub_0_l, Z.abs_opp, Z.abs_eq by lia.
    assert (X * 2 ^ 53 <= n * w * 2 ^ 53); [|apply Z.mul_le_mono_pos_r with (p := 2 ^ 53); lia].
    assert (Ju <= 1) by lia.
    apply Z.le_trans with (1 := HJu2). unfold Y. rewrite H1074.
    replace (n * w * 2 ^ 53) with (1 * (n * (2 ^ 53 * w))) by ring.
    apply Z.mul_le_mono_nonneg_r; [|lia].
    apply Z.mul_nonneg_nonneg; [lia|]. apply Z.mul_nonneg_nonneg; lia.
  - rewrite <- Hr in Hf. rewrite Hf. cbn [SFnonneg SFZ cond_Zopp].
    rewrite (Hthr Ju mU eU HvU ltac:(lia)) in Hm.
    apply (proj1 (Hback m e Ju He)) in Hm.
    set (V := Zpos m * 2 ^ (e + 1074)) in *.
    split; [reflexivity|].
    assert (HJuw : Ju * w <= 2 ^ 53 * w) by (apply Z.mul_le_mono_nonneg_r; lia).
    split; [lia|].
    (* the lower grid point *)
    assert (HVlo : J * w <= V).
    { destruct (Z.eq_dec J 0) as [->|HJnz].
      - assert (0 < V) by (apply Z.mul_pos_pos; [lia|apply pow2_pos; lia]). lia.
      - destruct (grid_canonical J 0 ltac:(lia) ltac:(lia)) as (mL & eL & HbL & HvL).
        destruct (bounded_canonical _ _ HbL) as (HeL & _ & _).
        assert (Hq1 : 0 < q).
        { apply Z.lt_le_trans with (J * c); [|exact Hlo]. apply Z.mul_pos_pos; lia. }
        destruct (binary_round_aux_ge false q e' (new_location (Zpos mn) rem) mL eL 3000
                    Hq1 Hpre HbL ltac:(lia) ltac:(lia)) as [Hi|(m2 & e2 & Hf2 & He2 & Hm2)].
        { rewrite (Hthr J mL eL HvL ltac:(lia)).
          apply Z.mul_le_mono_nonneg_r; [lia|exact Hlo]. }
        + rewrite <- Hr, Hf in Hi. discriminate.
        + rewrite <- Hr, Hf in Hf2. injection Hf2 as <- <-.
          rewrite (Hthr J mL eL HvL ltac:(lia)) in Hm2.
          now apply (proj2 (Hback m e J He)) in Hm2. }
    (* the exact quotient lies between the same grid points *)
    assert (HXlo : n * (J * w) <= X).
    { apply Z.mul_le_mono_pos_r with (p := 2 ^ 53); [lia|].
      replace (n * (J * w) * 2 ^ 53) with (Y * J) by (unfold Y; rewrite H1074; ring).
      lia. }
    assert (HXhi : X <= n * (Ju * w)).
    { apply Z.mul_le_mono_pos_r with (p := 2 ^ 53); [lia|].
      replace (n * (Ju * w) * 2 ^ 53) with (Ju * Y) by (unfold Y; rewrite H1074; ring).
      exact HJu2. }
    assert (HnVlo : n * (J * w) <= n * V) by (apply Z.mul_le_mono_nonneg_l; lia).
    assert (HnVhi : n * V <= n * (Ju * w)) by (apply Z.mul_le_mono_nonneg_l; lia).
    assert (Hgap : n * (Ju * w) <= n * (J * w) + n * w).
    { replace (n * (J * w) + n * w) with (n * ((J + 1) * w)) by ring.
      apply Z.mul_le_mono_nonneg_l; [lia|]. apply Z.mul_le_mono_nonneg_r; lia. }
    lia.
Qed.

End MeanRounding.

(** *** The mean of numbers between 0 and 1 *)

Section MeanOfUnit.

Import Binary64.

Local Open Scope float_scope.

Lemma Prim2SF_float_of_Z K :
  (1 <= K <= 2 ^ 53)%Z ->
  exists m e,
    Prim2SF (float_of_Z K) = S754_finite false m e
    /\ bounded prec emax m e = true
    /\ (Zpos m * 2 ^ (e + 1074) = K * 2 ^ 1074)%Z.
Proof.
  intros HK. destruct (binary_normalize_int K HK) as (m & e & Hn & Hb & Hv).
  exists m, e. unfold float_of_Z. rewrite Hn.
  rewrite Prim2SF_SF2Prim by exact Hb. auto.
Qed.

Lemma Prim2SF_one : Prim2SF 1 = S754_finite false 4503599627370496 (-52).
Proof. reflexivity. Qed.

Lemma Prim2SF_zero : Prim2SF 0 = S754_zero false.
Proof. reflexivity. Qed.

(** A non-negative number not above 1 passes both comparisons. *)
Lemma nonneg_le_in_unit x :
  nonneg_le x 1 -> (0 <=? x) = true /\ (x <=? 1) = true.
Proof.
  intros H. rewrite !leb_spec, Prim2SF_one, Prim2SF_zero.
  pose proof (Prim2SF_valid x) as Hv. unfold nonneg_le in H.
  destruct (Prim2SF x) as [[]| | |[] m e]; try easy.
  split; [reflexivity|].
  unfold SFleb. rewrite SFcompare_SFZ by (try assumption; reflexivity).
  cbn [SFZ cond_Zopp].
  change (4503599627370496 * 2 ^ (-52 + 1074))%Z with (2 ^ 1074)%Z.
  destruct (Z.compare_spec (Zpos m * 2 ^ (e + 1074)) (2 ^ 1074)); try reflexivity. lia.
Qed.

(** Dividing a sum of [n] numbers of the unit interval by [float(n)]. *)
Lemma div_between s n :
  (1 <= n <= 2 ^ 53)%Z -> nonneg_le s n ->
  nonneg_le (s / float_of_Z n) 1
  /\ (Z.abs (n * exact (s / float_of_Z n) - exact s) <= n * 2 ^ 1021)%Z.
Proof.
  intros Hn Hs.
  destruct (Prim2SF_float_of_Z _ Hn) as (mn & en & Hfn & Hbn & Hvn).
  pose proof (Prim2SF_valid s) as Hvs.
  pose proof (pow2_pos 1021 ltac:(lia)) as Hw.
  unfold nonneg_le, exact in *. rewrite div_spec, Hfn. unfold SF64div.
  destruct (Prim2SF s) as [[]| | |[] ms es]; try easy.
  - cbn [SFdiv xorb SFZ]. split; [exact I|].
    rewrite Z.mul_0_r. cbn [Z.sub Z.opp Z.add Z.abs]. apply Z.mul_nonneg_nonneg; lia.
  - cbn [SFdiv xorb SFZ]. split; [exact I|].
    rewrite Z.mul_0_r. cbn [Z.sub Z.opp Z.add Z.abs]. apply Z.mul_nonneg_nonneg; lia.
  - cbn [valid_binary SpecFloat.valid_binary] in Hvs.
    destruct (SFdiv_between ms es mn en n Hvs Hbn Hn Hvn Hs) as (Hnn & Hle & Herr).
    cbn [SFZ cond_Zopp].
    destruct (SFdiv prec emax (S754_finite false ms es) (S754_finite false mn en))
      as [[]| | |[] m e]; try discriminate; cbn [SFZ cond_Zopp] in *;
      (split; [first [exact I|lia]|exact Herr]).
Qed.

(** [np.sum] of numbers of the unit interval: at most their number,
    and within [(n - 1) * 2^(b - 53)] of their exact sum when
    [n <= 2^b]. *)
Lemma np_sum_between b l :
  l <> [] -> (0 <= b <= 53)%Z ->
  Forall (fun x => nonneg_le x 1) l ->
  (Z.of_nat (length l) <= 2 ^ b)%Z ->
  nonneg_le (np_sum l) (Z.of_nat (length l))
  /\ (Z.abs (exact (np_sum l) - exact_sum l)
      <= (Z.of_nat (length l) - 1) * 2 ^ (b + 1021))%Z.
Proof.
  intros Hne Hb Hall Hlen.
  destruct (summed_between b l _ (pairwise_sum_summed (length l) l Hne) Hb Hall Hlen)
    as (Hs & Herr).
  destruct (nonneg_le_exact _ (Z.of_nat (length l)) ltac:(lia) Hs) as (Hnn & Hrange).
  destruct (zero_add_exact _ Hnn) as (Hnn' & Heq).
  unfold np_sum. split.
  - apply exact_nonneg_le; [exact Hnn'|]. rewrite Heq. lia.
  - rewrite Heq. exact Herr.
Qed.

(** [np.mean] of at most [2^b <= 2^53] numbers of the unit interval
    lies in the unit interval, within [2^(b - 52)] of their exact
    mean. *)
Lemma np_mean_between b l :
  l <> [] -> (0 <= b <= 53)%Z ->
  Forall (fun x => nonneg_le x 1) l ->
  (Z.of_nat (length l) <= 2 ^ b)%Z ->
  nonneg_le (np_mean l) 1
  /\ (Z.abs (Z.of_nat (length l) * exact (np_mean l) - exact_sum l)
      <= Z.of_nat (length l) * 2 ^ (b + 1022))%Z.
Proof.
  intros Hne Hb Hall Hlen.
  assert (Hn : (1 <= Z.of_nat (length l))%Z).
  { destruct l; [congruence|]. cbn [length]. lia. }
  assert (Hb53 : (2 ^ b <= 2 ^ 53)%Z) by (apply Z.pow_le_mono_r; lia).
  destruct (np_sum_between b l Hne Hb Hall Hlen) as (Hs & Hserr).
  destruct (div_between (np_sum l) (Z.of_nat (length l)) ltac:(lia) Hs) as (Hm & Hmerr).
  fold (np_mean l) in Hm, Hmerr. split; [exact Hm|].
  set (n := Z.of_nat (length l)) in *.
  set (g := (2 ^ (b + 1021))%Z) in *.
  assert (Hg : (2 ^ 1021 <= g)%Z) by (apply Z.pow_le_mono_r; lia).
  assert (H2 : (2 ^ (b + 1022) = 2 * g)%Z).
  { unfold g. replace (b + 1022)%Z with (1 + (b + 1021))%Z by lia.
    now rewrite (pow2_split 1 (b + 1021)) by lia. }
  rewrite H2.
  assert (H3 : (n * 2 ^ 1021 <= n * g)%Z) by (apply Z.mul_le_mono_nonneg_l; lia).
  assert (H4 : ((n - 1) * g <= n * g)%Z) by (apply Z.mul_le_mono_nonneg_r; lia).
  lia.
Qed.

(** The mean of at most [2^53] numbers between 0 and 1 lies between 0
    and 1. *)
Lemma np_mean_in_unit l :
  l <> [] -> (Z.of_nat (length l) <= 2 ^ 53)%Z ->
  Forall (fun x => nonneg_le x 1) l ->
  (0 <=? np_mean l) = true /\ (np_mean l <=? 1) = true.
Proof.
  intros Hne Hlen Hall. apply nonneg_le_in_unit.
  now apply (np_mean_between 53 l Hne ltac:(lia) Hall).
Qed.

End MeanOfUnit.


(** ** rules_engine.py: proportions, fit and balance *)

Section RulesEngineProperties.

Import RulesEngine.

Lemma garment_proportions_step_spec person_detection detection feedback ratio :
  garment_ratio person_detection detection = Ok ratio ->
  garment_proportions_step (bbox_height (bbox person_detection)) detection feedback
  = Ok (feedback ++ proportion_feedback_of person_detection detection).
Proof.
  intros Hratio.
  unfold proportion_feedback_of, rule_of. rewrite Hratio.
  unfold garment_proportions_step.
  unfold garment_ratio in Hratio. rewrite Hratio. cbn [mbind result_bind].
  destruct (str_in (class detection) ["shirt"; "pants"; "dress"]) eqn:Hsized.
  - destruct (String.eqb (class detection) "shirt") eqn:Hshirt.
    + unfold proportion_item, proportion_verdict, proportion_message.
      rewrite Hshirt.
      destruct (_ <? abs _)%float; [destruct (_ <? ratio)%float|]; reflexivity.
    + destruct (String.eqb (class detection) "pants") eqn:Hpants.
      * unfold proportion_item, proportion_verdict, proportion_message.
        rewrite Hshirt.
        destruct (_ <? abs _)%float; [destruct (_ <? ratio)%float|]; reflexivity.
      * now rewrite app_nil_r.
  - unfold str_in in Hsized. cbn in Hsized.
    destruct (String.eqb (class detection) "shirt"); [discriminate|].
    destruct (String.eqb (class detection) "pants"); [discriminate|].
    now rewrite app_nil_r.
Qed.

Lemma garment_proportions_step_skip person_height detection feedback :
  is_sized_garment detection = false ->
  garment_proportions_step person_height detection feedback = Ok feedback.
Proof.
  unfold garment_proportions_step, is_sized_garment. now intros ->.
Qed.

Lemma proportion_feedback_of_unsized person_detection detection :
  is_sized_garment detection = false ->
  proportion_feedback_of person_detection detection = [].
Proof.
  unfold is_sized_garment, str_in, proportion_feedback_of, rule_of. cbn.
  destruct (String.eqb (class detection) "shirt"); [discriminate|].
  destruct (String.eqb (class detection) "pants"); [discriminate|].
  reflexivity.
Qed.

Lemma garment_proportions_loop_spec person_detection detections :
  Forall (fun d => is_sized_garment d = true ->
                   exists ratio, garment_ratio person_detection d = Ok ratio) detections ->
  forall feedback,
    garment_proportions_loop (bbox_height (bbox person_detection)) detections feedback
    = Ok (feedback ++ flat_map (proportion_feedback_of person_detection) detections).
Proof.
  induction detections as [|d rest IH]; intros Hall feedback;
    cbn [garment_proportions_loop flat_map].
  - now rewrite app_nil_r.
  - apply Forall_cons_iff in Hall as [Hd Hrest].
    destruct (is_sized_garment d) eqn:Hsized.
    + destruct (Hd eq_refl) as [ratio Hratio].
      rewrite (garment_proportions_step_spec _ _ _ _ Hratio).
      cbn [mbind result_bind]. rewrite IH by exact Hrest. now rewrite <- app_assoc.
    + rewrite garment_proportions_step_skip by exact Hsized.
      cbn [mbind result_bind]. rewrite IH by exact Hrest.
      now rewrite proportion_feedback_of_unsized.
Qed.

(** C8.  With a person present and the garment-to-person height ratio
    defined, every shirt and every pants detection yields exactly one
    proportion item: a violation if and only if [|ratio - ideal|] is
    strictly greater than the tolerance ("too long" when the ratio
    exceeds [ideal + tolerance], "too short" otherwise; confidence 0.8,
    medium, actionable), and the "well-proportioned" item (0.9, low, not
    actionable) otherwise.  A ratio equal to [ideal + tolerance] is
    within tolerance, for the shirt rule and for the pants rule. *)
Theorem proportion_violation_iff_beyond_tolerance
    (detections : list Detection) (person_detection : Detection) (user_prefs : UserPrefs)
    (Hratio : Forall (fun d => is_sized_garment d = true ->
                               exists ratio, garment_ratio person_detection d = Ok ratio)
                     detections) :
  _analyze_garment_proportions detections person_detection user_prefs
  = Ok (flat_map (proportion_feedback_of person_detection) detections)
  /\ (forall rule ratio,
        proportion_verdict rule ratio <> WellProportioned <->
        (tolerance rule <? abs (ratio - ideal_ratio rule))%float = true)
  /\ (forall rule ratio,
        proportion_verdict rule ratio = TooLong <->
        (tolerance rule <? abs (ratio - ideal_ratio rule))%float = true /\
        (ideal_ratio rule + tolerance rule <? ratio)%float = true)
  /\ (forall garment v,
        proportion_item garment v =
        if match v with WellProportioned => true | _ => false end
        then _create_feedback "proportion" (proportion_message garment v) 0.9 "low" false
        else _create_feedback "proportion" (proportion_message garment v) 0.8 "medium" true)
  /\ proportion_verdict shirt_length (ideal_ratio shirt_length + tolerance shirt_length)
     = WellProportioned
  /\ proportion_verdict pants_length (ideal_ratio pants_length + tolerance pants_length)
     = WellProportioned.
Proof.
  split; [|split; [|split; [|split; [|split]]]].
  - unfold _analyze_garment_proportions.
    now rewrite garment_proportions_loop_spec.
  - intros rule ratio. unfold proportion_verdict.
    destruct (_ <? abs _)%float; [destruct (_ <? ratio)%float|]; split; congruence.
  - intros rule ratio. unfold proportion_verdict.
    destruct (_ <? abs _)%float; [destruct (_ <? ratio)%float|];
      (split; [intros ?|intros [? ?]]); try congruence; try (split; congruence).
  - intros garment []; reflexivity.
  - vm_compute. reflexivity.
  - vm_compute. reflexivity.
Qed.

Lemma mock_ratios_defined :
  Forall (fun d => is_sized_garment d = true ->
                   exists ratio, garment_ratio mock_person d = Ok ratio)
         mock_detections.
Proof.
  repeat constructor; intros _; eexists; vm_compute; reflexivity.
Defined.

Lemma proportion_violation_iff_beyond_tolerance_witness :
  _analyze_garment_proportions mock_detections mock_person None
  = Ok [proportion_item "shirt" TooLong; proportion_item "pants" WellProportioned].
Proof.
  destruct (proportion_violation_iff_beyond_tolerance
              mock_detections mock_person None mock_ratios_defined) as [H _].
  rewrite H. vm_compute. reflexivity.
Defined.

Lemma fit_quality_step_spec detection feedback :
  fit_quality_step detection feedback
  = feedback ++ (if is_sized_garment detection
                 then [fit_item (class detection) (fit_tier (confidence detection))]
                 else []).
Proof.
  unfold fit_quality_step, is_sized_garment, fit_tier, fit_item.
  destruct (str_in _ _); [|now rewrite app_nil_r].
  destruct (_ <? _)%float; [reflexivity|].
  destruct (_ <? _)%float; reflexivity.
Qed.

Lemma fit_quality_fold detections :
  forall feedback,
    fold_left (fun feedback detection => fit_quality_step detection feedback)
      detections feedback
    = feedback ++ map (fun d => fit_item (class d) (fit_tier (confidence d)))
                      (List.filter is_sized_garment detections).
Proof.
  induction detections as [|d rest IH]; intros feedback; cbn [fold_left List.filter].
  - now rewrite app_nil_r.
  - rewrite IH, fit_quality_step_spec.
    destruct (is_sized_garment d); cbn [map].
    + now rewrite <- app_assoc.
    + now rewrite app_nil_r.
Qed.

Lemma fit_tier_by_confidence_aux detections person_detection user_prefs :
  _analyze_fit_quality detections person_detection user_prefs
  = map (fun d => fit_item (class d) (fit_tier (confidence d)))
        (List.filter is_sized_garment detections).
Proof. unfold _analyze_fit_quality. now rewrite fit_quality_fold. Qed.

(** C5, as amended.  Every shirt, pants or dress detection yields one
    fit item whose tier depends on the detection confidence alone:
    above 0.9 "fits well" (0.85, low, not actionable); above 0.7 and at
    most 0.9 "could be improved" (0.75, medium, actionable); at most
    0.7 "doesn't fit properly" (0.65, high, actionable).  Confidence
    0.9 is in the middle tier and confidence 0.7 in the lowest. *)
Theorem fit_tier_by_confidence
    (detections : list Detection) (person_detection : Detection) (user_prefs : UserPrefs) :
  _analyze_fit_quality detections person_detection user_prefs
  = map (fun d => fit_item (class d) (fit_tier (confidence d)))
        (List.filter is_sized_garment detections)
  /\ (forall c, (0.9 <? c)%float = true -> fit_tier c = FitsWell)
  /\ (forall c, (0.7 <? c)%float = true -> (c <=? 0.9)%float = true ->
                fit_tier c = CouldBeImproved)
  /\ (forall c, (c <=? 0.7)%float = true -> fit_tier c = DoesNotFit)
  /\ fit_tier 0.9 = CouldBeImproved
  /\ fit_tier 0.7 = DoesNotFit
  /\ (forall garment,
        fit_item garment FitsWell
        = _create_feedback "fit" ("The " +:+ garment +:+ " appears to fit well")
            0.85 "low" false /\
        fit_item garment CouldBeImproved
        = _create_feedback "fit" ("The " +:+ garment +:+ " fit could be improved")
            0.75 "medium" true /\
        fit_item garment DoesNotFit
        = _create_feedback "fit" ("The " +:+ garment +:+ " doesn't appear to fit properly")
            0.65 "high" true).
Proof.
  split; [|split; [|split; [|split; [|split; [|split]]]]].
  - apply fit_tier_by_confidence_aux.
  - intros c H. unfold fit_tier. now rewrite H.
  - intros c Hlo Hhi. unfold fit_tier.
    now rewrite (leb_not_ltb _ _ Hhi), Hlo.
  - intros c H. unfold fit_tier.
    rewrite (leb_not_ltb _ _ H).
    assert (H9 : (c <? 0.9)%float = true) by (apply (leb_ltb_trans _ _ _ H); reflexivity).
    assert (H9' : (0.9 <? c)%float = false).
    { apply leb_not_ltb. rewrite leb_spec. rewrite ltb_spec in H9.
      unfold SFleb. unfold SFltb in H9. destruct (SFcompare _ _) as [[]|]; easy. }
    now rewrite H9'.
  - reflexivity.
  - reflexivity.
  - intros garment. repeat split.
Qed.

(** C5, as stated, fails at confidence 0.7: the document places it in
    the middle tier, the code in the lowest. *)
Lemma fit_tier_at_0_7_is_lowest :
  let d := {| bbox := (120, 150, 280, 350)%Z; class := "shirt"; confidence := 0.7 |} in
  documented_fit_tier (confidence d) = Some CouldBeImproved
  /\ _analyze_fit_quality [d] mock_person None = [fit_item "shirt" DoesNotFit]
  /\ _analyze_fit_quality [d] mock_person None <> [fit_item "shirt" CouldBeImproved].
Proof.
  cbv zeta. split; [reflexivity|]. split; [reflexivity|].
  vm_compute. discriminate.
Qed.

Lemma outfit_balance_unfold detections person_detection user_prefs :
  _analyze_outfit_balance detections person_detection user_prefs =
  let types := garment_types_of detections in
  if (2 <=? length types)%nat then
    (if str_in "shirt" types && str_in "pants" types then [shirt_pants_reward]
     else if str_in "dress" types then [dress_reward] else [])
    ++ (if str_in "jacket" types then [jacket_reward] else [])
  else [add_more_pieces].
Proof.
  unfold _analyze_outfit_balance. fold vocabulary. fold (garment_types_of detections).
  cbv zeta.
  destruct (2 <=? _)%nat; [|reflexivity].
  destruct (_ && _); [|destruct (str_in "dress" _)];
    destruct (str_in "jacket" _); reflexivity.
Qed.

(** C4, as amended.  When the detected vocabulary garments have
    pairwise distinct classes: with at least two classes the balance
    analysis emits the shirt-and-pants reward if both are present, the
    dress reward only if a dress is present and shirt and pants are not
    both present, and, independently of these, the jacket reward if a
    jacket is present; with fewer than two classes it emits exactly the
    "add more pieces" suggestion. *)
Theorem outfit_balance_rewards
    (detections : list Detection) (person_detection : Detection) (user_prefs : UserPrefs)
    (Hdistinct : NoDup (garment_types_of detections)) :
  let types := garment_types_of detections in
  ((2 <= distinct_classes detections)%nat ->
   _analyze_outfit_balance detections person_detection user_prefs
   = (if str_in "shirt" types && str_in "pants" types then [shirt_pants_reward]
      else if str_in "dress" types then [dress_reward] else [])
     ++ (if str_in "jacket" types then [jacket_reward] else []))
  /\ ((distinct_classes detections < 2)%nat ->
      _analyze_outfit_balance detections person_detection user_prefs = [add_more_pieces]).
Proof.
  intros types.
  assert (Hsize : distinct_classes detections = length types).
  { unfold distinct_classes. now rewrite size_list_to_set. }
  rewrite Hsize, outfit_balance_unfold. fold types. cbv zeta.
  split; intros Hn.
  - now rewrite (proj2 (Nat.leb_le _ _) Hn).
  - now rewrite (proj2 (Nat.leb_gt _ _) Hn).
Qed.

Lemma outfit_balance_rewards_witness :
  _analyze_outfit_balance mock_detections mock_person None = [shirt_pants_reward].
Proof.
  assert (Hdistinct : NoDup (garment_types_of mock_detections)).
  { vm_compute. compute_done. }
  destruct (outfit_balance_rewards mock_detections mock_person None Hdistinct) as [H _].
  rewrite H; [reflexivity|].
  unfold distinct_classes. rewrite size_list_to_set by exact Hdistinct.
  vm_compute. lia.
Defined.

(** C4, as stated, fails on a person wearing a shirt, pants, a dress and
    a jacket: the dress reward applies but is not emitted, because it
    is the alternative of the shirt-and-pants reward. *)
Lemma dress_reward_excluded_by_shirt_and_pants :
  let detections :=
    mock_detections ++
    [ {| bbox := (110, 150, 290, 450)%Z; class := "dress"; confidence := 0.9 |};
      {| bbox := (110, 140, 290, 300)%Z; class := "jacket"; confidence := 0.9 |} ] in
  _find_person_detection detections = Some mock_person
  /\ (2 <= distinct_classes detections)%nat
  /\ str_in "dress" (garment_types_of detections) = true
  /\ _analyze_outfit_balance detections mock_person None
     = [shirt_pants_reward; jacket_reward]
  /\ ~ In dress_reward (_analyze_outfit_balance detections mock_person None).
Proof.
  cbv zeta. split; [reflexivity|]. split.
  { unfold distinct_classes. rewrite size_list_to_set.
    - vm_compute. lia.
    - vm_compute. compute_done. }
  split; [reflexivity|]. split; [reflexivity|].
  intros [H|[H|[]]]; discriminate H.
Qed.

(** C10.  The feedback of [analyze_proportions] does not depend on the
    user preferences: any two values of [user_prefs], [None] included,
    give the same list. *)
Theorem analyze_proportions_ignores_user_prefs
    (detections : list Detection) (segmentation_results : list SegmentationResult)
    (user_prefs1 user_prefs2 : UserPrefs) :
  analyze_proportions detections segmentation_results user_prefs1
  = analyze_proportions detections segmentation_results user_prefs2.
Proof.
  unfold analyze_proportions, analyze_proportions_body.
  destruct (_find_person_detection detections) as [person_detection|]; [|reflexivity].
  assert (Hfit : _analyze_fit_quality detections person_detection user_prefs1
                 = _analyze_fit_quality detections person_detection user_prefs2).
  { now rewrite !fit_tier_by_confidence_aux. }
  now rewrite Hfit.
Qed.

End RulesEngineProperties.

(** ** color_service.py: pairwise and overall harmony *)

Section ColorServiceProperties.

Import ColorService Binary64.

(** The absolute difference of two numbers does not depend on their
    order. *)
Lemma SFabs_binary_round sx p e :
  SFabs (binary_round prec emax sx p e) = SFabs (binary_round prec emax false p e).
Proof.
  unfold binary_round. destruct (shl_align p e _) as [mz ez].
  unfold binary_round_aux.
  destruct (shr_fexp prec emax (Zpos mz) ez loc_Exact) as [mrs e'].
  destruct (shr_fexp prec emax _ e' loc_Exact) as [mrs' e''].
  destruct (shr_m mrs'); [reflexivity| |reflexivity].
  destruct (e'' <=? emax - prec)%Z; reflexivity.
Qed.

Lemma SFabs_binary_normalize_opp m e :
  SFabs (binary_normalize prec emax (- m) e false)
  = SFabs (binary_normalize prec emax m e false).
Proof.
  destruct m as [|p|p]; cbn [Z.opp binary_normalize]; [reflexivity| |].
  - apply SFabs_binary_round.
  - symmetry. apply SFabs_binary_round.
Qed.

Lemma SFabs_SFsub_comm (x y : spec_float) :
  SFabs (SFsub prec emax x y) = SFabs (SFsub prec emax y x).
Proof.
  destruct x as [sx|sx| |sx mx ex], y as [sy|sy| |sy my ey];
    try (destruct sx, sy; reflexivity); try reflexivity.
  cbn [SFsub]. rewrite (Z.min_comm ey ex).
  rewrite <- SFabs_binary_normalize_opp. f_equal. f_equal. lia.
Qed.

Lemma abs_sub_comm (x y : float) : abs (x - y) = abs (y - x).
Proof.
  apply Prim2SF_inj. rewrite !abs_spec, !sub_spec. apply SFabs_SFsub_comm.
Qed.

Lemma calculate_harmony_score_unfold h1 s1 v1 h2 s2 v2 :
  _calculate_harmony_score [h1; s1; v1] [h2; s2; v2]
  = harmony_score_of (hue_distance h1 h2)
      (abs (s1 - s2) / 255) (abs (v1 - v2) / 255).
Proof. reflexivity. Qed.

Lemma hue_distance_comm h1 h2 : hue_distance h1 h2 = hue_distance h2 h1.
Proof. unfold hue_distance. now rewrite (abs_sub_comm h1 h2). Qed.

Lemma hue_distance_circular h1 h2 :
  hue_distance h1 h2 = circular_hue_distance h1 h2.
Proof.
  unfold hue_distance, circular_hue_distance, py_min. cbv zeta.
  now rewrite (hue_wrap_test (h1 - h2)).
Qed.

(** C9.  The pairwise harmony score is symmetric in its two colours,
    whatever lists they are; it depends on the hues through a hue
    distance that is symmetric, and circular: the distance between 350
    and 10 is 20. *)
Theorem harmony_score_symmetric (color1_hsv color2_hsv : list float) :
  _calculate_harmony_score color1_hsv color2_hsv
  = _calculate_harmony_score color2_hsv color1_hsv
  /\ (forall h1 s1 v1 h2 s2 v2,
        _calculate_harmony_score [h1; s1; v1] [h2; s2; v2]
        = harmony_score_of (hue_distance h1 h2)
            (abs (s1 - s2) / 255) (abs (v1 - v2) / 255))
  /\ (forall h1 h2, hue_distance h1 h2 = hue_distance h2 h1)
  /\ hue_distance 350 10 = 20%float
  /\ hue_distance 10 350 = 20%float.
Proof.
  split; [|split; [|split; [|split]]].
  - destruct color1_hsv as [|h1 [|s1 [|v1 [|? ?]]]];
      destruct color2_hsv as [|h2 [|s2 [|v2 [|? ?]]]]; try reflexivity.
    rewrite !calculate_harmony_score_unfold.
    now rewrite (hue_distance_comm h1 h2), (abs_sub_comm s1 s2), (abs_sub_comm v1 v2).
  - intros. apply calculate_harmony_score_unfold.
  - apply hue_distance_comm.
  - reflexivity.
  - reflexivity.
Qed.

(** C6.  On two HSV triples the score of the source is the documented
    one: the tier of the circular hue distance [min(d, 360 - d)]
    (0.9 up to 30, else 0.8 within 30 of 180, else 0.7 within 30 of
    120, else 0.5), plus 0.1 when the saturation and the value
    differences over 255 are both below 0.3, capped at 1.0.  A
    distance of exactly 30 is in the first tier; 31 is not, and falls
    through the next two tests to 0.5. *)
Theorem harmony_score_as_documented (h1 s1 v1 h2 s2 v2 : float) :
  _calculate_harmony_score [h1; s1; v1] [h2; s2; v2]
  = documented_harmony_score (h1, s1, v1) (h2, s2, v2)
  /\ base_harmony_score 30 = 0.9%float
  /\ base_harmony_score 31 = 0.5%float
  /\ circular_hue_distance 30 0 = 30%float
  /\ circular_hue_distance 31 0 = 31%float
  /\ _calculate_harmony_score [30; s1; v1]%float [0; s2; v2]%float
     = py_min (if (abs (s1 - s2) / 255 <? 0.3)%float && (abs (v1 - v2) / 255 <? 0.3)%float
               then 0.9 + 0.1 else 0.9)%float 1.0
  /\ _calculate_harmony_score [31; s1; v1]%float [0; s2; v2]%float
     = py_min (if (abs (s1 - s2) / 255 <? 0.3)%float && (abs (v1 - v2) / 255 <? 0.3)%float
               then 0.5 + 0.1 else 0.5)%float 1.0.
Proof.
  split; [|repeat split].
  rewrite calculate_harmony_score_unfold, hue_distance_circular.
  unfold documented_harmony_score, harmony_score_of, base_harmony_score.
  destruct (_ <=? 30)%float; [|destruct (_ <=? 30)%float; [|destruct (_ <=? 30)%float]];
    destruct (_ && _); reflexivity.
Qed.

(** Every pairwise score is a number between 0 and 1. *)
Lemma harmony_score_of_unit hue_diff sat_diff val_diff :
  nonneg_le (harmony_score_of hue_diff sat_diff val_diff) 1.
Proof.
  unfold harmony_score_of.
  destruct (_ <=? 30)%float; [|destruct (_ <=? 30)%float; [|destruct (_ <=? 30)%float]];
    destruct (_ && _); vm_compute; discriminate.
Qed.

Lemma calculate_harmony_score_unit color1_hsv color2_hsv :
  nonneg_le (_calculate_harmony_score color1_hsv color2_hsv) 1.
Proof.
  destruct color1_hsv as [|h1 [|s1 [|v1 [|? ?]]]];
    destruct color2_hsv as [|h2 [|s2 [|v2 [|? ?]]]];
    first [ rewrite calculate_harmony_score_unfold; apply harmony_score_of_unit
          | vm_compute; discriminate ].
Qed.

Lemma color_harmony_fold skin_tone garment_colors :
  forall harmony_scores feedback,
    fold_left
      (color_harmony_step skin_tone (default [0; 0; 0]%float (skin_hsv skin_tone)))
      garment_colors (harmony_scores, feedback)
    = (harmony_scores ++ pairwise_scores skin_tone garment_colors,
       feedback ++ pairwise_feedback skin_tone garment_colors).
Proof.
  induction garment_colors as [|garment rest IH]; intros harmony_scores feedback.
  - cbn. now rewrite !app_nil_r.
  - cbn [fold_left]. unfold color_harmony_step at 2.
    unfold pairwise_scores, pairwise_feedback in *. cbn [flat_map].
    destruct (primary_color garment) as [primary|].
    + rewrite IH. now rewrite <- !app_assoc.
    + rewrite IH. reflexivity.
Qed.

Lemma analyze_color_harmony_detected skin_tone garment_colors :
  detected skin_tone = true ->
  _analyze_color_harmony skin_tone garment_colors
  = let harmony_scores := pairwise_scores skin_tone garment_colors in
    let overall_score :=
      match harmony_scores with [] => 0.7%float | _ => np_mean harmony_scores end in
    {| overall_score := overall_score;
       individual_scores := Some harmony_scores;
       feedback := pairwise_feedback skin_tone garment_colors;
       harmony_type := _classify_harmony_type overall_score |}.
Proof.
  intros Hdet. unfold _analyze_color_harmony. rewrite Hdet. cbn [negb].
  rewrite color_harmony_fold. reflexivity.
Qed.

Lemma pairwise_scores_unit skin_tone garment_colors :
  Forall (fun x => nonneg_le x 1) (pairwise_scores skin_tone garment_colors).
Proof.
  unfold pairwise_scores. induction garment_colors as [|garment rest IH]; cbn [flat_map].
  - constructor.
  - destruct (primary_color garment); [|exact IH].
    constructor; [apply calculate_harmony_score_unit|exact IH].
Qed.

Lemma pairwise_scores_length skin_tone garment_colors :
  (length (pairwise_scores skin_tone garment_colors) <= length garment_colors)%nat.
Proof.
  unfold pairwise_scores.
  induction garment_colors as [|garment rest IH]; cbn [flat_map length]; [lia|].
  destruct (primary_color garment); cbn [app length]; lia.
Qed.

(** The overall score of up to [2^53] garments lies in [[0, 1]]. *)
Lemma color_harmony_in_unit skin_tone garment_colors :
  (Z.of_nat (length garment_colors) <= 2 ^ 53)%Z ->
  in_unit (overall_score (_analyze_color_harmony skin_tone garment_colors)).
Proof.
  intros Hsize. destruct (detected skin_tone) eqn:Hdet.
  - rewrite analyze_color_harmony_detected by exact Hdet.
    cbv zeta. cbn [overall_score].
    pose proof (pairwise_scores_unit skin_tone garment_colors) as Hunit.
    pose proof (pairwise_scores_length skin_tone garment_colors) as Hlen.
    destruct (pairwise_scores skin_tone garment_colors) as [|score scores] eqn:E.
    + split; reflexivity.
    + apply np_mean_in_unit; [discriminate|lia|exact Hunit].
  - unfold _analyze_color_harmony. rewrite Hdet. cbn [negb overall_score].
    split; reflexivity.
Qed.

(** C7.  For up to [2^53] garments.  With a skin tone detected, the
    overall harmony score is [np.mean] of the pairwise
    skin-to-garment scores, and 0.7 when there is none; [np.mean] adds
    the scores pairwise in binary64 and divides by their number, and the
    result is the arithmetic mean up to rounding: with [n <= 2^b]
    scores it differs from their exact mean by at most [2^(b - 52)]
    (values are scaled by [2^1074], and the difference by [n]).
    Whether or not a skin tone is detected the overall score lies in
    [[0, 1]]; the harmony type is read off the overall score with
    strict comparisons, so that 0.8 is "good", 0.7 "neutral" and 0.6
    "poor". *)
Theorem overall_harmony_is_mean_in_unit
    (skin_tone : SkinTone) (garment_colors : list GarmentColor)
    (Hsize : (Z.of_nat (length garment_colors) <= 2 ^ 53)%Z) :
  let report := _analyze_color_harmony skin_tone garment_colors in
  let scores := pairwise_scores skin_tone garment_colors in
  let n := Z.of_nat (length scores) in
  (detected skin_tone = true ->
   individual_scores report = Some scores
   /\ overall_score report
      = match scores with
        | [] => 0.7%float
        | _ => np_mean scores
        end
   /\ (scores <> [] ->
       forall b, (0 <= b <= 53)%Z -> (n <= 2 ^ b)%Z ->
       (Z.abs (n * exact (overall_score report) - exact_sum scores)
        <= n * 2 ^ (b + 1022))%Z)
   /\ harmony_type report = _classify_harmony_type (overall_score report))
  /\ in_unit (overall_score report)
  /\ (forall score,
        _classify_harmony_type score
        = if (0.8 <? score)%float then "excellent"
          else if (0.7 <? score)%float then "good"
          else if (0.6 <? score)%float then "neutral"
          else "poor")
  /\ _classify_harmony_type 0.8 = "good"
  /\ _classify_harmony_type 0.7 = "neutral"
  /\ _classify_harmony_type 0.6 = "poor".
Proof.
  cbv zeta. split; [|split; [|repeat split]].
  - intros Hdet. rewrite analyze_color_harmony_detected by exact Hdet.
    cbv zeta. cbn [individual_scores overall_score harmony_type].
    pose proof (pairwise_scores_unit skin_tone garment_colors) as Hunit.
    destruct (pairwise_scores skin_tone garment_colors) as [|score scores] eqn:E;
      (split; [reflexivity|]); (split; [reflexivity|]); (split; [|reflexivity]).
    + intros Hne. congruence.
    + intros Hne b Hb Hlen.
      now apply (np_mean_between b (score :: scores) Hne Hb Hunit).
  - now apply color_harmony_in_unit.
Qed.

Lemma overall_harmony_is_mean_in_unit_witness :
  let report := _analyze_color_harmony medium_skin_tone eight_garments in
  let scores := [0.5; 0.5; 0.5; 0.5; 0.5; 0.6; 0.9; 0.8]%float in
  individual_scores report = Some scores
  /\ overall_score report = np_mean scores
  /\ overall_score report = 0.60000000000000009%float
  /\ (Z.abs (8 * exact (overall_score report) - exact_sum scores) <= 8 * 2 ^ 1025)%Z
  /\ harmony_type report = "neutral"
  /\ in_unit (overall_score report).
Proof.
  cbv zeta.
  assert (Hsize : (Z.of_nat (length eight_garments) <= 2 ^ 53)%Z) by (cbn; lia).
  destruct (overall_harmony_is_mean_in_unit medium_skin_tone eight_garments Hsize)
    as (H & Hunit & _).
  destruct (H eq_refl) as (Hscores & Hmean & Herr & Htype).
  assert (Hne : pairwise_scores medium_skin_tone eight_garments <> [])
    by (vm_compute; discriminate).
  specialize (Herr Hne 3%Z ltac:(lia) ltac:(vm_compute; discriminate)).
  split; [exact Hscores|]. split; [exact Hmean|].
  split; [rewrite Hmean; vm_compute; reflexivity|].
  split; [exact Herr|]. split; [|exact Hunit].
  rewrite Htype, Hmean. vm_compute. reflexivity.
Defined.

(** *** The undetected skin tone *)

Lemma analyze_garment_colors_map vision hsv_image segmentation_results :
  _analyze_garment_colors vision hsv_image segmentation_results
  = map (garment_entry vision hsv_image) segmentation_results.
Proof.
  unfold _analyze_garment_colors.
  enough (H : forall acc,
             fold_left
               (fun garment_colors seg_result =>
                  let bbox := seg_bbox seg_result in
                  let '(x1, y1, x2, y2) := bbox in
                  let garment_region :=
                    map (fun row => py_slice row x1 x2) (py_slice hsv_image y1 y2) in
                  let dominant_colors := _extract_dominant_colors vision garment_region in
                  garment_colors ++
                    [ {| garment_class := seg_class seg_result;
                         colors := dominant_colors;
                         primary_color := head dominant_colors |} ])
               segmentation_results acc
             = acc ++ map (garment_entry vision hsv_image) segmentation_results)
    by apply (H []).
  induction segmentation_results as [|seg rest IH]; intros acc; cbn [fold_left map].
  - now rewrite app_nil_r.
  - rewrite IH. unfold garment_entry.
    destruct (seg_bbox seg) as [[[x1 y1] x2] y2].
    now rewrite <- app_assoc.
Qed.

(** C2, as amended.  For every frame that decodes to an image in which
    no pixel matches the skin-tone range, [analyze_colors] returns an
    overall score of exactly 0.5 and a harmony report with score 0.5,
    type "unknown", the single advisory string and no individual
    scores; the garment colours are extracted all the same, one entry
    per segmentation result. *)
Theorem undetected_skin_tone_is_neutral
    (vision : Vision) (frame : list Byte.byte)
    (segmentation_results : list SegmentationResult) (hsv_image : Image)
    (Hdecode : decode_hsv vision frame = Some hsv_image)
    (Hskin : skin_pixels_of hsv_image = []) :
  let analysis := analyze_colors vision frame segmentation_results in
  analysis_overall_score analysis = 0.5%float
  /\ harmony_analysis analysis = undetected_report
  /\ skin_tone analysis
     = {| detected := false; tone := "unknown"; skin_hsv := None; skin_rgb := None |}
  /\ garment_colors analysis = map (garment_entry vision hsv_image) segmentation_results
  /\ length (garment_colors analysis) = length segmentation_results.
Proof.
  cbv zeta. unfold analyze_colors. rewrite Hdecode.
  cbn [skin_tone garment_colors harmony_analysis analysis_overall_score].
  assert (Htone : _analyze_skin_tone vision hsv_image
                  = {| detected := false; tone := "unknown";
                       skin_hsv := None; skin_rgb := None |}).
  { unfold _analyze_skin_tone. now rewrite Hskin. }
  rewrite Htone, analyze_garment_colors_map.
  repeat split. now rewrite length_map.
Qed.

Lemma undetected_skin_tone_is_neutral_witness :
  analysis_overall_score (analyze_colors sample_vision [] sample_segmentation) = 0.5%float.
Proof.
  apply (undetected_skin_tone_is_neutral sample_vision [] sample_segmentation blue_patch);
    reflexivity.
Defined.

(** C2, as stated, fails on the blue patch with one segmented shirt: no
    pixel matches the skin-tone range and the report is the neutral
    one, yet the shirt's colours were clustered and are in the result. *)
Lemma garment_colors_extracted_without_skin_tone :
  let analysis := analyze_colors sample_vision [] sample_segmentation in
  skin_pixels_of blue_patch = []
  /\ analysis_overall_score analysis = 0.5%float
  /\ harmony_analysis analysis = undetected_report
  /\ length (garment_colors analysis) = 1%nat
  /\ map (fun g => length (colors g)) (garment_colors analysis) = [3%nat]
  /\ garment_colors analysis <> [].
Proof.
  cbv zeta. repeat split; try reflexivity. discriminate.
Qed.

End ColorServiceProperties.

(** ** style_engine.py: reference lookup and profile creation *)

Section StyleEngineProperties.

Import CLIPService StyleEngine.

Lemma encode_all_length self image_urls :
  forall embeddings clip,
    clip_service self = Some clip ->
    exists encoded,
      encode_all self image_urls embeddings = Ok (embeddings ++ encoded)
      /\ length encoded = length image_urls.
Proof.
  induction image_urls as [|url rest IH]; intros embeddings clip Hclip; cbn [encode_all].
  - exists []. now rewrite app_nil_r.
  - unfold the_clip_service. rewrite Hclip. cbn [mbind result_bind].
    destruct (IH (embeddings ++ [encode_image clip (InStr url)]) clip Hclip)
      as (encoded & -> & Hlen).
    exists (encode_image clip (InStr url) :: encoded).
    rewrite <- app_assoc. cbn [app length]. now rewrite Hlen.
Qed.

Lemma encode_all_uninitialized self image_urls embeddings :
  clip_service self = None -> image_urls <> [] ->
  encode_all self image_urls embeddings = Raise AttributeError.
Proof.
  intros Hclip Hne. destruct image_urls as [|url rest]; [congruence|].
  cbn [encode_all]. unfold the_clip_service. now rewrite Hclip.
Qed.

(** C1, as amended.  For every style identifier whose cached list of
    reference embeddings is empty, [match_style] leaves the engine
    unchanged and returns exactly one item, "No reference style found"
    with confidence 0.0; this holds even for an engine without a CLIP
    service, so no embedding or similarity is computed.  For an
    identifier that is not in the cache the engine caches three mock
    reference embeddings and does not return that item. *)
Theorem match_style_without_reference
    (self : StyleEngine.t) (frame : list Byte.byte)
    (segmentation_results : list SegmentationResult) (style_id : string) :
  (style_cache self !! style_id = Some [] ->
   match_style self frame segmentation_results style_id = ([no_reference_style], self))
  /\ (style_cache self !! style_id = None ->
      fst (match_style self frame segmentation_results style_id) <> [no_reference_style]
      /\ exists mock_embeddings,
           style_cache (snd (match_style self frame segmentation_results style_id))
             !! style_id = Some mock_embeddings
           /\ length mock_embeddings = 3%nat).
Proof.
  split.
  - intros Hcache. unfold match_style, match_style_body, get_style_embeddings.
    rewrite Hcache. reflexivity.
  - intros Hcache. unfold match_style, match_style_body, get_style_embeddings.
    rewrite Hcache. cbv zeta.
    set (self' := set_cache self _).
    unfold the_clip_service.
    change (clip_service self') with (clip_service self).
    destruct (clip_service self) as [clip|]; cbn [mbind result_bind].
    + split.
      * cbn [map].
        destruct (_ <? _)%float; [|destruct (_ <? _)%float];
          destruct segmentation_results; cbn [fst app]; intros H;
            injection H as H _; discriminate H.
      * eexists. split.
        -- destruct segmentation_results; cbn [snd];
             unfold self', set_cache; cbn [style_cache]; apply lookup_insert_eq.
        -- reflexivity.
    + split.
      * cbn [fst]. discriminate.
      * eexists. split.
        -- cbn [snd]. unfold self', set_cache. cbn [style_cache]. apply lookup_insert_eq.
        -- reflexivity.
Qed.

Lemma match_style_without_reference_witness :
  let self := set_cache mock_engine {["casual" := []]} in
  match_style self [] sample_segmentation "casual" = ([no_reference_style], self).
Proof.
  cbv zeta.
  apply (proj1 (match_style_without_reference
                  (set_cache mock_engine {["casual" := []]}) [] sample_segmentation "casual")).
  reflexivity.
Defined.

(** C1, as stated, fails for an identifier that is not in the cache:
    the engine falls back to mock references, computes similarities
    and reports an excellent match. *)
Lemma match_style_unknown_id_uses_mock_references :
  style_cache mock_engine !! "casual" = None
  /\ fst (match_style mock_engine [] [] "casual")
     = [ StyleEngine._create_style_feedback
           "Excellent style match! This outfit closely resembles your reference style (75.0% similarity)"
           0.75 "high" ]
  /\ fst (match_style mock_engine [] [] "casual") <> [no_reference_style].
Proof.
  split; [reflexivity|]. split; [reflexivity|].
  vm_compute. discriminate.
Qed.

(** C3, as amended.  [create_style_profile] completes exactly when the
    engine has a CLIP service or the list of image URLs is empty; it
    then caches, under the identifier it returns, one embedding per
    URL, so the cached list is non-empty exactly when the URL list is.
    When it does not complete the cache is unchanged. *)
Theorem create_style_profile_caches_one_per_url
    (self : StyleEngine.t) (uuid_hex : string) (now : Z)
    (image_urls tags : list string) (description : option string) :
  let '(style_id, completed, self') :=
    create_style_profile self uuid_hex now image_urls tags description in
  (completed = true <-> clip_service self <> None \/ image_urls = [])
  /\ (completed = true ->
      style_id = "style_" +:+ substring 0 8 uuid_hex
      /\ exists embeddings,
           style_cache self' !! style_id = Some embeddings
           /\ length embeddings = length image_urls
           /\ (embeddings = [] <-> image_urls = []))
  /\ (completed = false -> self' = self).
Proof.
  unfold create_style_profile.
  destruct (clip_service self) as [clip|] eqn:Hclip.
  - destruct (encode_all_length self image_urls [] clip Hclip) as (encoded & -> & Hlen).
    cbn [app]. split; [|split].
    + split; [intros _; left; discriminate|reflexivity].
    + intros _. split; [reflexivity|]. exists encoded.
      split; [cbn [set_cache style_cache]; apply lookup_insert_eq|].
      split; [exact Hlen|].
      destruct encoded, image_urls; cbn in Hlen; try discriminate; split; congruence.
    + discriminate.
  - destruct image_urls as [|url rest].
    + cbn [encode_all]. split; [|split].
      * split; [intros _; now right|reflexivity].
      * intros _. split; [reflexivity|]. exists [].
        split; [cbn [set_cache style_cache]; apply lookup_insert_eq|].
        split; [reflexivity|]. split; reflexivity.
      * discriminate.
    + rewrite encode_all_uninitialized by (try assumption; discriminate).
      split; [|split].
      * split; [discriminate|]. intros [H|H]; [now elim H|discriminate].
      * discriminate.
      * reflexivity.
Qed.

Lemma create_style_profile_caches_one_per_url_witness :
  let '(style_id, completed, self') :=
    create_style_profile mock_engine "9f1c2e7ab04d4c6f8a3e5b7d9c1f0e2a" 1700000000
      ["https://example.com/look1.jpg"; "https://example.com/look2.jpg"] ["minimal"] None in
  completed = true
  /\ exists embeddings,
       style_cache self' !! style_id = Some embeddings /\ length embeddings = 2%nat.
Proof.
  pose proof (create_style_profile_caches_one_per_url
                mock_engine "9f1c2e7ab04d4c6f8a3e5b7d9c1f0e2a" 1700000000
                ["https://example.com/look1.jpg"; "https://example.com/look2.jpg"]
                ["minimal"] None) as H.
  destruct (create_style_profile _ _ _ _ _ _) as [[style_id completed] self'].
  destruct H as (Hiff & Hcache & _).
  assert (Hdone : completed = true) by (apply Hiff; left; discriminate).
  split; [exact Hdone|].
  destruct (Hcache Hdone) as (_ & embeddings & Hlookup & Hlen & _).
  now exists embeddings.
Defined.

(** C3, as stated, fails on an empty list of image URLs: creation
    completes and caches a profile with no embedding. *)
Lemma create_style_profile_accepts_no_image :
  let '(style_id, completed, self') :=
    create_style_profile mock_engine "9f1c2e7ab04d4c6f8a3e5b7d9c1f0e2a" 1700000000
      [] ["minimal"] None in
  completed = true
  /\ style_id = "style_9f1c2e7a"
  /\ style_cache self' !! style_id = Some [].
Proof.
  cbn. repeat split.
Qed.

End StyleEngineProperties.
(** ** rules_engine.py: the person reference and the error path *)

Section RulesEngineEdges.

Import RulesEngine.

Lemma find_person_detection_none detections :
  _find_person_detection detections = None <->
  Forall (fun d => class d <> "person") detections.
Proof.
  induction detections as [|d rest IH]; cbn [_find_person_detection].
  - split; [constructor|reflexivity].
  - destruct (String.eqb (class d) "person") eqn:E.
    + apply String.eqb_eq in E. split; [discriminate|].
      intros H. apply Forall_cons_iff in H as [H _]. contradiction.
    + apply String.eqb_neq in E. rewrite IH. rewrite Forall_cons_iff. tauto.
Qed.

(** X1.  The reference person is the first detection of class
    "person": nothing before it is a person, and later persons are not
    looked at.  Without any person the search returns nothing. *)
Theorem find_person_detection_first (detections : list Detection) :
  match _find_person_detection detections with
  | Some person =>
      exists before after,
        detections = before ++ person :: after
        /\ class person = "person"
        /\ Forall (fun d => class d <> "person") before
  | None => Forall (fun d => class d <> "person") detections
  end.
Proof.
  induction detections as [|d rest IH]; cbn [_find_person_detection].
  - constructor.
  - destruct (String.eqb (class d) "person") eqn:E.
    + apply String.eqb_eq in E. exists [], rest. repeat split; [exact E|constructor].
    + apply String.eqb_neq in E.
      destruct (_find_person_detection rest) as [person|].
      * destruct IH as (before & after & -> & Hperson & Hbefore).
        exists (d :: before), after. repeat split; [exact Hperson|].
        now constructor.
      * now constructor.
Qed.

Lemma garment_proportions_step_items person_height detection feedback feedback' :
  garment_proportions_step person_height detection feedback = Ok feedback' ->
  Forall (fun item => analysis_item item = true) feedback ->
  Forall (fun item => analysis_item item = true) feedback'.
Proof.
  unfold garment_proportions_step. intros Hstep Hall.
  destruct (str_in _ _); [|now injection Hstep as <-].
  destruct (true_div _ _) as [garment_ratio|]; [|discriminate].
  cbn [mbind result_bind] in Hstep.
  repeat match type of Hstep with
         | (if ?c then _ else _) = _ => destruct c
         end;
    injection Hstep as <-; try assumption;
    (apply Forall_app; split; [assumption|now constructor]).
Qed.

Lemma garment_proportions_loop_items person_height detections :
  forall feedback feedback',
    garment_proportions_loop person_height detections feedback = Ok feedback' ->
    Forall (fun item => analysis_item item = true) feedback ->
    Forall (fun item => analysis_item item = true) feedback'.
Proof.
  induction detections as [|d rest IH]; intros feedback feedback' Hloop Hall;
    cbn [garment_proportions_loop] in Hloop.
  - now injection Hloop as <-.
  - destruct (garment_proportions_step person_height d feedback) as [fb|] eqn:Hstep;
      [|discriminate].
    cbn [mbind result_bind] in Hloop.
    eapply IH; [exact Hloop|].
    eapply garment_proportions_step_items; eassumption.
Qed.

Lemma fit_quality_items detections person_detection user_prefs :
  Forall (fun item => analysis_item item = true)
         (_analyze_fit_quality detections person_detection user_prefs).
Proof.
  rewrite fit_tier_by_confidence_aux. apply List.Forall_forall. intros item Hin.
  apply in_map_iff in Hin as (d & <- & _). now destruct (fit_tier (confidence d)).
Qed.

Lemma outfit_balance_items detections person_detection user_prefs :
  Forall (fun item => analysis_item item = true)
         (_analyze_outfit_balance detections person_detection user_prefs).
Proof.
  rewrite outfit_balance_unfold. cbv zeta.
  destruct (2 <=? _)%nat; [|now repeat constructor].
  destruct (_ && _); [|destruct (str_in "dress" _)];
    destruct (str_in "jacket" _); now repeat constructor.
Qed.

(** With a person in the frame the feedback is an error item or a list
    of analysis items. *)
Lemma analyze_proportions_with_person detections segmentation_results user_prefs person :
  _find_person_detection detections = Some person ->
  analyze_proportions detections segmentation_results user_prefs = [proportions_error_item]
  \/ Forall (fun item => analysis_item item = true)
            (analyze_proportions detections segmentation_results user_prefs).
Proof.
  intros Hperson. unfold analyze_proportions, analyze_proportions_body. rewrite Hperson.
  destruct (_analyze_garment_proportions detections person user_prefs)
    as [garment_feedback|] eqn:Hgarment; cbn [mbind result_bind]; [right|now left].
  cbn [app]. rewrite !Forall_app. repeat split.
  - eapply garment_proportions_loop_items; [exact Hgarment|constructor].
  - apply fit_quality_items.
  - apply outfit_balance_items.
Qed.

(** X2.  [analyze_proportions] answers with the single item "No person
    detected in the image" exactly when no detection has class
    "person", whatever else was detected. *)
Theorem analyze_proportions_without_person
    (detections : list Detection) (segmentation_results : list SegmentationResult)
    (user_prefs : UserPrefs) :
  analyze_proportions detections segmentation_results user_prefs = [no_person_item]
  <-> Forall (fun d => class d <> "person") detections.
Proof.
  rewrite <- find_person_detection_none. split.
  - intros Hout. destruct (_find_person_detection detections) as [person|] eqn:Hperson;
      [|reflexivity].
    destruct (analyze_proportions_with_person detections segmentation_results user_prefs
                person Hperson) as [Herr|Hall].
    + rewrite Herr in Hout. discriminate.
    + rewrite Hout in Hall. apply Forall_cons_iff in Hall as [Hitem _]. discriminate.
  - intros Hnone. unfold analyze_proportions, analyze_proportions_body.
    now rewrite Hnone.
Qed.

(** X3.  Every item [analyze_proportions] returns has a type and a
    priority of the response schema and a confidence from 0.5 to 0.9.
    A "general" item only ever comes alone: it is the "no person" item
    or the error item. *)
Theorem analyze_proportions_items_conform
    (detections : list Detection) (segmentation_results : list SegmentationResult)
    (user_prefs : UserPrefs) :
  let feedback := analyze_proportions detections segmentation_results user_prefs in
  Forall (fun item =>
            conforms item = true
            /\ (0.5 <=? fb_confidence item)%float = true
            /\ (fb_confidence item <=? 0.9)%float = true) feedback
  /\ (Exists (fun item => type item = "general") feedback ->
      feedback = [no_person_item] \/ feedback = [proportions_error_item]).
Proof.
  cbv zeta.
  assert (Hcases :
    analyze_proportions detections segmentation_results user_prefs = [no_person_item]
    \/ analyze_proportions detections segmentation_results user_prefs = [proportions_error_item]
    \/ Forall (fun item => analysis_item item = true)
              (analyze_proportions detections segmentation_results user_prefs)).
  { destruct (_find_person_detection detections) as [person|] eqn:Hperson.
    - right. eapply analyze_proportions_with_person; eassumption.
    - left. unfold analyze_proportions, analyze_proportions_body. now rewrite Hperson. }
  destruct Hcases as [->|[->|Hall]].
  - split; [now repeat constructor|now left].
  - split; [now repeat constructor|now right].
  - split.
    + eapply Forall_impl; [exact Hall|]. intros item Hitem. unfold analysis_item in Hitem.
      apply andb_true_iff in Hitem as [Hitem Hhi].
      apply andb_true_iff in Hitem as [Hitem Hlo].
      apply andb_true_iff in Hitem as [_ Hconf]. auto.
    + intros Hgeneral. exfalso.
      apply List.Exists_exists in Hgeneral as (item & Hin & Htype).
      rewrite List.Forall_forall in Hall. specialize (Hall item Hin).
      unfold analysis_item in Hall. rewrite Htype in Hall. discriminate.
Qed.


Lemma garment_proportions_loop_zero detections :
  forall feedback,
    Exists (fun d => is_sized_garment d = true) detections ->
    garment_proportions_loop 0 detections feedback = Raise ZeroDivisionError.
Proof.
  induction detections as [|d rest IH]; intros feedback Hex;
    [now apply Exists_nil in Hex|].
  cbn [garment_proportions_loop].
  destruct (is_sized_garment d) eqn:Hsized.
  - unfold garment_proportions_step. unfold is_sized_garment in Hsized. now rewrite Hsized.
  - rewrite garment_proportions_step_skip by exact Hsized. cbn [mbind result_bind].
    apply IH. apply Exists_cons in Hex as [Hd|Hrest]; [congruence|exact Hrest].
Qed.

Lemma garment_proportions_loop_unsized person_height detections :
  forall feedback,
    Forall (fun d => is_sized_garment d = false) detections ->
    garment_proportions_loop person_height detections feedback = Ok feedback.
Proof.
  induction detections as [|d rest IH]; intros feedback Hall; [reflexivity|].
  apply Forall_cons_iff in Hall as [Hd Hrest]. cbn [garment_proportions_loop].
  rewrite garment_proportions_step_skip by exact Hd. cbn [mbind result_bind].
  now apply IH.
Qed.

Lemma filter_unsized detections :
  Forall (fun d => is_sized_garment d = false) detections ->
  List.filter is_sized_garment detections = [].
Proof.
  induction 1 as [|d rest Hd _ IH]; [reflexivity|].
  cbn [List.filter]. now rewrite Hd.
Qed.

(** X4.  When the reference person's box has zero height, a single
    shirt, pants or dress detection makes the whole analysis fail: the
    division by the person height raises, and the only feedback is the
    item "Error analyzing proportions".  A dress does so although it
    never gets proportion feedback.  Without such a garment nothing is
    divided and the feedback is that of the outfit balance. *)
Theorem analyze_proportions_degenerate_person
    (detections : list Detection) (segmentation_results : list SegmentationResult)
    (user_prefs : UserPrefs) (person : Detection)
    (Hperson : _find_person_detection detections = Some person)
    (Hheight : bbox_height (bbox person) = 0%Z) :
  (Exists (fun d => is_sized_garment d = true) detections ->
   analyze_proportions detections segmentation_results user_prefs
   = [proportions_error_item])
  /\ (Forall (fun d => is_sized_garment d = false) detections ->
      analyze_proportions detections segmentation_results user_prefs
      = _analyze_outfit_balance detections person user_prefs).
Proof.
  unfold analyze_proportions, analyze_proportions_body. rewrite Hperson.
  unfold _analyze_garment_proportions. rewrite Hheight. cbv zeta. split.
  - intros Hsized. now rewrite garment_proportions_loop_zero.
  - intros Hunsized. rewrite garment_proportions_loop_unsized by exact Hunsized.
    cbn [mbind result_bind app].
    rewrite fit_tier_by_confidence_aux, filter_unsized by exact Hunsized.
    reflexivity.
Qed.

Lemma analyze_proportions_degenerate_person_witness :
  let flat := {| bbox := (100, 250, 300, 250)%Z; class := "person"; confidence := 0.95 |} in
  let dress := {| bbox := (110, 150, 290, 450)%Z; class := "dress"; confidence := 0.93 |} in
  let jacket := {| bbox := (110, 140, 290, 300)%Z; class := "jacket"; confidence := 0.9 |} in
  analyze_proportions [flat; dress; jacket] [] None = [proportions_error_item]
  /\ analyze_proportions [flat; jacket] [] None = [add_more_pieces].
Proof.
  intros flat dress jacket. split.
  - apply (analyze_proportions_degenerate_person [flat; dress; jacket] [] None flat);
      [reflexivity|reflexivity|].
    apply Exists_cons_tl, Exists_cons_hd. reflexivity.
  - rewrite (proj2 (analyze_proportions_degenerate_person [flat; jacket] [] None flat
                      eq_refl eq_refl)); [reflexivity|].
    repeat constructor.
Defined.

(** X5.  The balance analysis counts garment detections, not classes:
    the suggestion "Consider adding more pieces" is emitted exactly
    when fewer than two detections are vocabulary garments, and is
    then the whole feedback; two detections of one class are enough to
    suppress it.  At most two items are ever emitted. *)
Theorem outfit_balance_counts_detections
    (detections : list Detection) (person_detection : Detection) (user_prefs : UserPrefs) :
  let feedback := _analyze_outfit_balance detections person_detection user_prefs in
  let garments := List.filter (fun d => str_in (class d) vocabulary) detections in
  (In add_more_pieces feedback <-> (length garments < 2)%nat)
  /\ ((length garments < 2)%nat -> feedback = [add_more_pieces])
  /\ (length feedback <= 2)%nat.
Proof.
  cbv zeta. rewrite outfit_balance_unfold. cbv zeta.
  unfold garment_types_of. rewrite length_map.
  set (types := map class _). set (n := length _).
  destruct (Nat.leb_spec 2 n) as [Hn|Hn].
  - split; [|split].
    + split; [|lia]. intros Hin. exfalso.
      destruct (_ && _); [|destruct (str_in "dress" _)];
        destruct (str_in "jacket" _); cbn in Hin;
        repeat (destruct Hin as [Hin|Hin]; [discriminate Hin|]); exact Hin.
    + lia.
    + destruct (_ && _); [|destruct (str_in "dress" _)];
        destruct (str_in "jacket" _); cbn; lia.
  - split; [|split].
    + split; [intros _; exact Hn|intros _; now left].
    + reflexivity.
    + cbn. lia.
Qed.

Lemma str_in_Permutation x l l' :
  Permutation l l' -> str_in x l = str_in x l'.
Proof.
  unfold str_in. induction 1 as [|y l l' _ IH|y z l|l l' l'' _ IH1 _ IH2]; cbn [existsb].
  - reflexivity.
  - now rewrite IH.
  - now rewrite !orb_assoc, (orb_comm (String.eqb x z)).
  - now rewrite IH1.
Qed.

Lemma garment_types_of_Permutation detections detections' :
  Permutation detections detections' ->
  Permutation (garment_types_of detections) (garment_types_of detections').
Proof.
  unfold garment_types_of.
  induction 1 as [|d l l' _ IH|d e l|l l' l'' _ IH1 _ IH2]; cbn [List.filter].
  - constructor.
  - destruct (str_in (class d) vocabulary); cbn [map]; [now constructor|exact IH].
  - destruct (str_in (class d) vocabulary), (str_in (class e) vocabulary); cbn [map];
      try reflexivity; apply perm_swap.
  - now transitivity (map class (List.filter (fun det => str_in (class det) vocabulary) l')).
Qed.

(** X6.  The balance feedback depends on the detections only as a
    multiset: reordering them changes nothing, and neither the person
    detection nor the user preferences are looked at. *)
Theorem outfit_balance_order_independent
    (detections detections' : list Detection) (person person' : Detection)
    (user_prefs user_prefs' : UserPrefs)
    (Hperm : Permutation detections detections') :
  _analyze_outfit_balance detections person user_prefs
  = _analyze_outfit_balance detections' person' user_prefs'.
Proof.
  rewrite !outfit_balance_unfold. cbv zeta.
  pose proof (garment_types_of_Permutation _ _ Hperm) as Htypes.
  rewrite (Permutation_length Htypes).
  now rewrite !(str_in_Permutation _ _ _ Htypes).
Qed.

Lemma outfit_balance_order_independent_witness :
  _analyze_outfit_balance mock_detections mock_person None
  = _analyze_outfit_balance (rev mock_detections) mock_person
      (Some {["fit_preferences" := PyStr "loose"]}).
Proof.
  apply outfit_balance_order_independent. apply Permutation_rev.
Defined.

End RulesEngineEdges.
(** ** color_service.py: ranges, alignment and edge cases *)

Section ColorServiceEdges.

Import ColorService.

Local Ltac pick_member :=
  cbn [In]; repeat first [left; reflexivity | right].

Lemma harmony_score_of_values hue_diff sat_diff val_diff :
  let score := harmony_score_of hue_diff sat_diff val_diff in
  In score [0.5; 0.6; 0.7; 0.7999999999999999; 0.8; 0.9; 1.0]%float
  /\ (0.5 <=? score)%float = true /\ (score <=? 1)%float = true.
Proof.
  cbv zeta. unfold harmony_score_of.
  destruct (_ <=? 30)%float; [|destruct (_ <=? 30)%float; [|destruct (_ <=? 30)%float]];
    destruct (_ && _); (split; [vm_compute; pick_member|split; reflexivity]).
Qed.

(** X7.  Whatever the two colours, the pairwise harmony score is one of
    seven numbers between 0.5 and 1.0: the four tiers 0.5, 0.7, 0.8
    and 0.9 and the tiers raised by the closeness bonus, which in
    binary64 are 0.6, 0.7999999999999999, 0.9 and 1.0. *)
Theorem harmony_score_takes_seven_values (color1_hsv color2_hsv : list float) :
  let score := _calculate_harmony_score color1_hsv color2_hsv in
  In score [0.5; 0.6; 0.7; 0.7999999999999999; 0.8; 0.9; 1.0]%float
  /\ (0.5 <=? score)%float = true /\ (score <=? 1)%float = true.
Proof.
  cbv zeta.
  destruct color1_hsv as [|h1 [|s1 [|v1 [|? ?]]]];
    destruct color2_hsv as [|h2 [|s2 [|v2 [|? ?]]]];
    first [ rewrite calculate_harmony_score_unfold; apply harmony_score_of_values
          | split; [cbn [_calculate_harmony_score]; pick_member|split; reflexivity] ].
Qed.

(** X8.  The harmony type is monotone in the score: a score that is
    not smaller never gets a worse type. *)
Theorem classify_harmony_type_monotone (score1 score2 : float)
    (Hle : (score1 <=? score2)%float = true) :
  (harmony_rank (_classify_harmony_type score1)
   <= harmony_rank (_classify_harmony_type score2))%nat.
Proof.
  unfold _classify_harmony_type.
  destruct (0.8 <? score1)%float eqn:H8.
  { now rewrite (ltb_leb_trans _ _ _ H8 Hle). }
  destruct (0.7 <? score1)%float eqn:H7.
  { rewrite (ltb_leb_trans _ _ _ H7 Hle). destruct (0.8 <? score2)%float; cbn; lia. }
  destruct (0.6 <? score1)%float eqn:H6.
  { rewrite (ltb_leb_trans _ _ _ H6 Hle).
    destruct (0.8 <? score2)%float; [|destruct (0.7 <? score2)%float]; cbn; lia. }
  cbn. lia.
Qed.

Lemma classify_harmony_type_monotone_witness :
  (harmony_rank (_classify_harmony_type 0.65) <= harmony_rank (_classify_harmony_type 0.75))%nat.
Proof. apply classify_harmony_type_monotone. reflexivity. Defined.

Lemma hsv_to_rgb_length vision h s v : length (_hsv_to_rgb vision h s v) = 3%nat.
Proof.
  unfold _hsv_to_rgb.
  destruct (colorsys_hsv_to_rgb _ _ _ _) as [[[r g] b]|]; [|reflexivity].
  now destruct (int_of_float (r * 255)), (int_of_float (g * 255)), (int_of_float (b * 255)).
Qed.

Lemma skin_pixels_of_In hsv_image p :
  In p (skin_pixels_of hsv_image) <->
  (exists row, In row hsv_image /\ In p row) /\ in_skin_range p = true.
Proof.
  unfold skin_pixels_of. rewrite filter_In, in_concat.
  split; intros [(row & H1 & H2) H3]; (split; [exists row; tauto|exact H3]).
Qed.

(** X9.  A skin tone is detected exactly when some pixel of the image
    has its hue in 0..30 and its saturation and value in 20..255.
    Then the tone is "light", "medium" or "dark" and the averaged HSV
    triple and an RGB triple are present; otherwise the tone is
    "unknown" and neither is. *)
Theorem skin_tone_detected_iff (vision : Vision) (hsv_image : Image) :
  let skin_tone := _analyze_skin_tone vision hsv_image in
  (detected skin_tone = true <->
   exists row p, In row hsv_image /\ In p row /\ in_skin_range p = true)
  /\ (detected skin_tone = true ->
      In (tone skin_tone) ["light"; "medium"; "dark"]
      /\ (exists h s v, skin_hsv skin_tone = Some [h; s; v])
      /\ (exists r g b, skin_rgb skin_tone = Some [r; g; b]))
  /\ (detected skin_tone = false ->
      skin_tone
      = {| detected := false; tone := "unknown"; skin_hsv := None; skin_rgb := None |}).
Proof.
  cbv zeta. unfold _analyze_skin_tone.
  destruct (skin_pixels_of hsv_image) as [|p skin_pixels] eqn:Hskin; cbn [length Nat.eqb].
  - split; [|split]; [|discriminate|reflexivity].
    split; [discriminate|]. intros (row & p & Hrow & Hp & Hrange). exfalso.
    assert (Hin : In p (skin_pixels_of hsv_image)).
    { apply skin_pixels_of_In. split; [now exists row|exact Hrange]. }
    now rewrite Hskin in Hin.
  - cbv zeta. cbn [detected tone skin_hsv skin_rgb].
    split; [|split]; [| |discriminate].
    + split; [intros _|reflexivity].
      assert (Hin : In p (skin_pixels_of hsv_image)) by (rewrite Hskin; now left).
      apply skin_pixels_of_In in Hin as [(row & Hrow & Hp) Hrange].
      now exists row, p.
    + intros _. split; [|split].
      * unfold _classify_skin_tone.
        destruct (_ <? _)%float; [|destruct (_ <? _)%float]; pick_member.
      * eauto.
      * set (rgb := _hsv_to_rgb _ _ _ _).
        pose proof (hsv_to_rgb_length vision
                      (np_mean (map (fun p => float_of_Z (fst (fst p))) (p :: skin_pixels)))
                      (np_mean (map (fun p => float_of_Z (snd (fst p))) (p :: skin_pixels)))
                      (np_mean (map (fun p => float_of_Z (snd p)) (p :: skin_pixels)))) as Hlen.
        fold rgb in Hlen. destruct rgb as [|r [|g [|b [|? ?]]]]; try discriminate. eauto.
Qed.

Lemma color_harmony_type skin_tone garment_colors :
  In (harmony_type (_analyze_color_harmony skin_tone garment_colors))
     ["excellent"; "good"; "neutral"; "poor"; "unknown"].
Proof.
  destruct (detected skin_tone) eqn:Hdet.
  - rewrite analyze_color_harmony_detected by exact Hdet.
    cbv zeta. cbn [harmony_type]. unfold _classify_harmony_type.
    destruct (_ <? _)%float; [|destruct (_ <? _)%float; [|destruct (_ <? _)%float]];
      pick_member.
  - unfold _analyze_color_harmony. rewrite Hdet. cbn [negb harmony_type]. pick_member.
Qed.

(** X10.  For every frame, decodable or not, and every list of up to
    [2^53] segmentation results, the overall score [analyze_colors]
    returns is the score of its harmony report, lies in [[0, 1]], and
    the harmony type is one of "excellent", "good", "neutral", "poor"
    and "unknown". *)
Theorem analyze_colors_score_in_unit
    (vision : Vision) (frame : list Byte.byte)
    (segmentation_results : list SegmentationResult)
    (Hsize : (Z.of_nat (length segmentation_results) <= 2 ^ 53)%Z) :
  let analysis := analyze_colors vision frame segmentation_results in
  in_unit (analysis_overall_score analysis)
  /\ analysis_overall_score analysis = overall_score (harmony_analysis analysis)
  /\ In (harmony_type (harmony_analysis analysis))
        ["excellent"; "good"; "neutral"; "poor"; "unknown"].
Proof.
  cbv zeta. unfold analyze_colors.
  destruct (decode_hsv vision frame) as [hsv_image|].
  - cbv zeta. cbn [analysis_overall_score harmony_analysis].
    split; [|split; [reflexivity|apply color_harmony_type]].
    apply color_harmony_in_unit.
    now rewrite analyze_garment_colors_map, length_map.
  - split; [split; reflexivity|]. split; [reflexivity|]. cbn. pick_member.
Qed.

Lemma analyze_colors_score_in_unit_witness :
  let analysis := analyze_colors skin_vision [] sample_segmentation in
  in_unit (analysis_overall_score analysis)
  /\ analysis_overall_score analysis = 0.7%float
  /\ harmony_type (harmony_analysis analysis) = "neutral".
Proof.
  cbv zeta.
  assert (Hsize : (Z.of_nat (length sample_segmentation) <= 2 ^ 53)%Z) by (cbn; lia).
  destruct (analyze_colors_score_in_unit skin_vision [] sample_segmentation Hsize)
    as (Hunit & _ & _).
  split; [exact Hunit|]. split; vm_compute; reflexivity.
Defined.

(** The garments that have a primary colour carry the scores and the
    messages, one each and in their order. *)
Lemma pairwise_scores_selected skin_tone garment_colors :
  Forall2 (fun garment score =>
             exists primary,
               primary_color garment = Some primary
               /\ score = _calculate_harmony_score
                            (default [0; 0; 0]%float (skin_hsv skin_tone)) (hsv primary))
          (List.filter has_primary_color garment_colors)
          (pairwise_scores skin_tone garment_colors).
Proof.
  unfold pairwise_scores, has_primary_color.
  induction garment_colors as [|garment rest IH]; cbn [flat_map List.filter]; [constructor|].
  destruct (primary_color garment) as [primary|] eqn:E; [|exact IH].
  cbn [app]. constructor; [|exact IH]. exists primary. now split.
Qed.

Lemma pairwise_feedback_selected skin_tone garment_colors :
  Forall2 (fun garment message =>
             exists primary,
               primary_color garment = Some primary
               /\ message = _generate_color_feedback (tone skin_tone) (garment_class garment)
                              (_calculate_harmony_score
                                 (default [0; 0; 0]%float (skin_hsv skin_tone)) (hsv primary)))
          (List.filter has_primary_color garment_colors)
          (pairwise_feedback skin_tone garment_colors).
Proof.
  unfold pairwise_feedback, has_primary_color.
  induction garment_colors as [|garment rest IH]; cbn [flat_map List.filter]; [constructor|].
  destruct (primary_color garment) as [primary|] eqn:E; [|exact IH].
  cbn [app]. constructor; [|exact IH]. exists primary. now split.
Qed.

(** X11.  With a skin tone detected, let the selected garments be
    those that have a primary colour, in the order of the garment
    list.  The report's scores are then, position by position, the
    harmony scores of the skin tone against the primary colour of the
    selected garments, and its feedback, position by position, the
    messages generated from the class of the same garment and that
    same score; garments without a primary colour contribute
    neither. *)
Theorem harmony_scores_align_with_feedback
    (skin_tone : SkinTone) (garment_colors : list GarmentColor)
    (Hdetected : detected skin_tone = true) :
  let report := _analyze_color_harmony skin_tone garment_colors in
  let selected := List.filter has_primary_color garment_colors in
  let skin := default [0; 0; 0]%float (skin_hsv skin_tone) in
  match individual_scores report with
  | Some scores =>
      Forall2 (fun garment score =>
                 exists primary,
                   primary_color garment = Some primary
                   /\ score = _calculate_harmony_score skin (hsv primary))
              selected scores
      /\ length scores = length selected
  | None => False
  end
  /\ Forall2 (fun garment message =>
                exists primary,
                  primary_color garment = Some primary
                  /\ message = _generate_color_feedback (tone skin_tone)
                                 (garment_class garment)
                                 (_calculate_harmony_score skin (hsv primary)))
             selected (feedback report)
  /\ length (feedback report) = length selected
  /\ (length selected <= length garment_colors)%nat.
Proof.
  cbv zeta. rewrite analyze_color_harmony_detected by exact Hdetected. cbv zeta.
  cbn [individual_scores feedback].
  pose proof (pairwise_scores_selected skin_tone garment_colors) as Hscores.
  pose proof (pairwise_feedback_selected skin_tone garment_colors) as Hfeedback.
  split; [split; [exact Hscores|]|split; [exact Hfeedback|split]].
  - symmetry. exact (List.Forall2_length Hscores).
  - symmetry. exact (List.Forall2_length Hfeedback).
  - apply List.filter_length_le.
Qed.

Lemma harmony_scores_align_with_feedback_witness :
  let mock := _mock_color_analysis in
  let report := _analyze_color_harmony (skin_tone mock) (garment_colors mock) in
  individual_scores report = Some [0.9%float]
  /\ feedback report = ["The shirt color works beautifully with your medium skin tone"]
  /\ length (feedback report) = 1%nat.
Proof.
  cbv zeta.
  destruct (harmony_scores_align_with_feedback
              (skin_tone _mock_color_analysis) (garment_colors _mock_color_analysis) eq_refl)
    as (_ & _ & Hlen & _).
  split; [vm_compute; reflexivity|]. split; [vm_compute; reflexivity|exact Hlen].
Defined.

Lemma byte_values_In z : (0 <= z <= 255)%Z -> In z byte_values.
Proof.
  intros Hz. unfold byte_values. apply in_map_iff. exists (Z.to_nat z).
  split; [lia|]. apply in_seq. lia.
Qed.

Lemma format_02x_two_digits z :
  (0 <= z <= 255)%Z -> exists c1 c2, format_02x z = String c1 (String c2 "").
Proof.
  intros Hz.
  assert (Hall : forallb (fun z => match format_02x z with
                                   | String _ (String _ EmptyString) => true
                                   | _ => false
                                   end) byte_values = true) by (vm_compute; reflexivity).
  rewrite forallb_forall in Hall. specialize (Hall z (byte_values_In z Hz)).
  destruct (format_02x z) as [|c1 [|c2 [|? ?]]]; try discriminate. eauto.
Qed.

Lemma format_02x_injective z z' :
  (0 <= z <= 255)%Z -> (0 <= z' <= 255)%Z -> format_02x z = format_02x z' -> z = z'.
Proof.
  intros Hz Hz' Heq.
  assert (Hall : forallb (fun z =>
                   forallb (fun z' =>
                     implb (String.eqb (format_02x z) (format_02x z')) (z =? z')%Z)
                     byte_values) byte_values = true) by (vm_compute; reflexivity).
  rewrite forallb_forall in Hall. specialize (Hall z (byte_values_In z Hz)).
  rewrite forallb_forall in Hall. specialize (Hall z' (byte_values_In z' Hz')).
  rewrite Heq, String.eqb_refl in Hall. cbn [implb] in Hall. now apply Z.eqb_eq.
Qed.

(** X12.  On three colour components from 0 to 255 the hex string has
    exactly seven characters, and it determines the components: two
    different colours never get the same string. *)
Theorem rgb_to_hex_injective (r g b r' g' b' : Z)
    (Hr : (0 <= r <= 255)%Z) (Hg : (0 <= g <= 255)%Z) (Hb : (0 <= b <= 255)%Z)
    (Hr' : (0 <= r' <= 255)%Z) (Hg' : (0 <= g' <= 255)%Z) (Hb' : (0 <= b' <= 255)%Z) :
  String.length (_rgb_to_hex [r; g; b]) = 7%nat
  /\ (_rgb_to_hex [r; g; b] = _rgb_to_hex [r'; g'; b'] -> (r, g, b) = (r', g', b')).
Proof.
  unfold _rgb_to_hex. cbn [nth].
  destruct (format_02x_two_digits r Hr) as (r1 & r2 & Er).
  destruct (format_02x_two_digits g Hg) as (g1 & g2 & Eg).
  destruct (format_02x_two_digits b Hb) as (b1 & b2 & Eb).
  destruct (format_02x_two_digits r' Hr') as (r1' & r2' & Er').
  destruct (format_02x_two_digits g' Hg') as (g1' & g2' & Eg').
  destruct (format_02x_two_digits b' Hb') as (b1' & b2' & Eb').
  pose proof (format_02x_injective r r' Hr Hr') as Ir.
  pose proof (format_02x_injective g g' Hg Hg') as Ig.
  pose proof (format_02x_injective b b' Hb Hb') as Ib.
  rewrite Er, Eg, Eb, Er', Eg', Eb' in *. cbn [String.append String.length].
  split; [reflexivity|]. intros Heq.
  injection Heq as -> -> -> -> -> ->.
  now rewrite Ir, Ig, Ib.
Qed.

Lemma rgb_to_hex_injective_witness :
  _rgb_to_hex [46; 92; 230]%Z = "#2e5ce6"
  /\ String.length (_rgb_to_hex [46; 92; 230]%Z) = 7%nat.
Proof.
  split; [reflexivity|].
  apply (rgb_to_hex_injective 46 92 230 179 143 89); lia.
Defined.


Lemma py_slice_empty {A} (l : list A) (i j : Z) :
  (0 <= j <= i)%Z -> py_slice l i j = [].
Proof.
  intros Hij. unfold py_slice, slice_index. cbv zeta.
  destruct (Z.ltb_spec i 0), (Z.ltb_spec j 0); try lia.
  replace (_ - _)%nat with 0%nat by lia. reflexivity.
Qed.

Lemma concat_nils {A B} (rows : list B) :
  concat (map (fun _ => @nil A) rows) = [].
Proof. induction rows; [reflexivity|exact IHrows]. Qed.

Lemma garment_entry_empty_box vision hsv_image seg_result :
  kmeans_centers vision [] = None ->
  empty_box (seg_bbox seg_result) ->
  garment_entry vision hsv_image seg_result = colourless_entry seg_result.
Proof.
  intros Hkmeans Hbox. unfold garment_entry, colourless_entry, empty_box in *.
  destruct (seg_bbox seg_result) as [[[x1 y1] x2] y2]. cbv zeta.
  assert (Hregion : concat (map (fun row => py_slice row x1 x2) (py_slice hsv_image y1 y2))
                    = []).
  { destruct Hbox as [Hx|Hy].
    - rewrite (map_ext _ (fun _ => []) (fun row => py_slice_empty row x1 x2 Hx)).
      apply concat_nils.
    - now rewrite py_slice_empty. }
  unfold _extract_dominant_colors. cbv zeta. now rewrite Hregion, Hkmeans.
Qed.

Lemma pairwise_scores_colourless skin_tone segmentation_results :
  pairwise_scores skin_tone (map colourless_entry segmentation_results) = []
  /\ pairwise_feedback skin_tone (map colourless_entry segmentation_results) = [].
Proof.
  unfold pairwise_scores, pairwise_feedback.
  induction segmentation_results as [|seg rest [IH1 IH2]]; [now split|].
  cbn [map flat_map colourless_entry primary_color app]. now split.
Qed.

(** X13.  Segmentation boxes without pixels give no colour.  On a
    frame with a detected skin tone, when every box has its right edge
    at or before its left edge or its bottom edge at or before its top
    edge (in particular when there is no segmentation result), and the
    clustering library rejects an empty sample, every garment entry is
    empty, no score and no message is produced, and the overall score
    is the default 0.7, whose harmony type is "neutral". *)
Theorem colourless_boxes_give_default_score
    (vision : Vision) (frame : list Byte.byte)
    (segmentation_results : list SegmentationResult) (hsv_image : Image)
    (Hdecode : decode_hsv vision frame = Some hsv_image)
    (Hskin : skin_pixels_of hsv_image <> [])
    (Hkmeans : kmeans_centers vision [] = None)
    (Hboxes : Forall (fun seg_result => empty_box (seg_bbox seg_result))
                     segmentation_results) :
  let analysis := analyze_colors vision frame segmentation_results in
  garment_colors analysis = map colourless_entry segmentation_results
  /\ individual_scores (harmony_analysis analysis) = Some []
  /\ feedback (harmony_analysis analysis) = []
  /\ analysis_overall_score analysis = 0.7%float
  /\ harmony_type (harmony_analysis analysis) = "neutral".
Proof.
  cbv zeta. unfold analyze_colors. rewrite Hdecode. cbv zeta.
  cbn [garment_colors harmony_analysis analysis_overall_score].
  assert (Hentries : _analyze_garment_colors vision hsv_image segmentation_results
                     = map colourless_entry segmentation_results).
  { rewrite analyze_garment_colors_map. apply map_ext_Forall.
    eapply Forall_impl; [exact Hboxes|]. intros seg Hbox.
    now apply garment_entry_empty_box. }
  assert (Hdetected : detected (_analyze_skin_tone vision hsv_image) = true).
  { unfold _analyze_skin_tone. destruct (skin_pixels_of hsv_image); [congruence|reflexivity]. }
  rewrite Hentries, analyze_color_harmony_detected by exact Hdetected. cbv zeta.
  destruct (pairwise_scores_colourless (_analyze_skin_tone vision hsv_image)
              segmentation_results) as [-> ->].
  cbn [individual_scores feedback overall_score harmony_type]. repeat split.
Qed.

Lemma colourless_boxes_give_default_score_witness :
  let flat := {| seg_bbox := (1, 0, 1, 2)%Z; seg_class := "shirt"; seg_confidence := 0.87 |} in
  let analysis := analyze_colors skin_vision [] [flat] in
  analysis_overall_score analysis = 0.7%float
  /\ harmony_type (harmony_analysis analysis) = "neutral".
Proof.
  intros flat.
  assert (Hskin : skin_pixels_of skin_patch <> []) by discriminate.
  assert (Hboxes : Forall (fun seg_result => empty_box (seg_bbox seg_result)) [flat]).
  { constructor; [|constructor]. cbn. lia. }
  destruct (colourless_boxes_give_default_score skin_vision [] [flat] skin_patch
              eq_refl Hskin eq_refl Hboxes) as (_ & _ & _ & Hscore & Htype).
  split; [exact Hscore|exact Htype].
Defined.

End ColorServiceEdges.
(** ** style_engine.py: the profile cache and the matching fallbacks *)

Section StyleEngineCache.

Import CLIPService StyleEngine.

Lemma encode_all_spec self clip image_urls :
  clip_service self = Some clip ->
  forall embeddings,
    encode_all self image_urls embeddings = Ok (embeddings ++ encoded_urls clip image_urls).
Proof.
  intros Hclip. unfold encoded_urls.
  induction image_urls as [|url rest IH]; intros embeddings; cbn [encode_all map].
  - now rewrite app_nil_r.
  - unfold the_clip_service. rewrite Hclip. cbn [mbind result_bind].
    rewrite IH. now rewrite <- app_assoc.
Qed.

Lemma get_style_embeddings_cached self style_id embeddings :
  style_cache self !! style_id = Some embeddings ->
  get_style_embeddings self style_id = (embeddings, self).
Proof. intros H. unfold get_style_embeddings. now rewrite H. Qed.

(** X14.  A profile created on an initialized engine can be read back:
    [get_style_embeddings] on the returned identifier gives the
    embeddings of the image URLs, one per URL and in their order,
    without touching the cache; the entries of other identifiers are
    as before the creation. *)
Theorem created_profile_is_returned
    (self : StyleEngine.t) (clip : CLIPService.t) (uuid_hex : string) (now : Z)
    (image_urls tags : list string) (description : option string)
    (Hclip : clip_service self = Some clip) :
  let '(style_id, completed, self') :=
    create_style_profile self uuid_hex now image_urls tags description in
  completed = true
  /\ get_style_embeddings self' style_id = (encoded_urls clip image_urls, self')
  /\ (forall other, other <> style_id ->
        style_cache self' !! other = style_cache self !! other).
Proof.
  unfold create_style_profile. rewrite (encode_all_spec self clip image_urls Hclip).
  cbn [app]. split; [reflexivity|]. split.
  - apply get_style_embeddings_cached. cbn [set_cache style_cache].
    apply lookup_insert_eq.
  - intros other Hother. cbn [set_cache style_cache]. now apply lookup_insert_ne.
Qed.

Lemma created_profile_is_returned_witness :
  let '(style_id, completed, self') :=
    create_style_profile mock_engine "9f1c2e7ab04d4c6f8a3e5b7d9c1f0e2a" 1700000000
      ["https://example.com/look1.jpg"] ["minimal"] None in
  fst (get_style_embeddings self' style_id) = [_mock_embedding].
Proof.
  pose proof (created_profile_is_returned mock_engine {| model := None |}
                "9f1c2e7ab04d4c6f8a3e5b7d9c1f0e2a" 1700000000
                ["https://example.com/look1.jpg"] ["minimal"] None eq_refl) as H.
  destruct (create_style_profile _ _ _ _ _ _) as [[style_id completed] self'].
  destruct H as (_ & -> & _). reflexivity.
Defined.

(** X15.  On any engine, initialized or not, creating a profile from an
    empty list of image URLs succeeds, and matching against the
    identifier it returns gives "No reference style found": the empty
    profile behaves as a missing reference. *)
Theorem empty_profile_matches_nothing
    (self : StyleEngine.t) (uuid_hex : string) (now : Z) (tags : list string)
    (description : option string) (frame : list Byte.byte)
    (segmentation_results : list SegmentationResult) :
  let '(style_id, completed, self') :=
    create_style_profile self uuid_hex now [] tags description in
  completed = true
  /\ match_style self' frame segmentation_results style_id = ([no_reference_style], self').
Proof.
  unfold create_style_profile. cbn [encode_all]. split; [reflexivity|].
  unfold match_style, match_style_body.
  rewrite (get_style_embeddings_cached _ _ []); [reflexivity|].
  cbn [set_cache style_cache]. apply lookup_insert_eq.
Qed.

(** X16.  [update_style_profile] succeeds exactly when the engine has a
    CLIP service or there is no URL to encode; a failed update leaves
    the engine as it was.  A successful one appends the embeddings of
    the new URLs to the profile's list, creating the profile when the
    identifier is unknown, and touches no other identifier. *)
Theorem update_style_profile_extends
    (self : StyleEngine.t) (style_id : string)
    (new_image_urls : list string) (new_tags : option (list string)) :
  let '(updated, self') := update_style_profile self style_id new_image_urls new_tags in
  (updated = true <-> clip_service self <> None \/ new_image_urls = [])
  /\ (updated = false -> self' = self)
  /\ (forall clip, clip_service self = Some clip ->
        style_cache self' !! style_id
        = Some (default [] (style_cache self !! style_id)
                ++ encoded_urls clip new_image_urls))
  /\ (clip_service self = None -> new_image_urls = [] ->
        style_cache self' !! style_id = Some (default [] (style_cache self !! style_id)))
  /\ (forall other, other <> style_id ->
        style_cache self' !! other = style_cache self !! other).
Proof.
  unfold update_style_profile.
  destruct (clip_service self) as [clip|] eqn:Hclip.
  - rewrite (encode_all_spec self clip new_image_urls Hclip). cbn [app].
    destruct (style_cache self !! style_id) as [embeddings|] eqn:Hcache; cbn [default];
      (split; [split; [intros _; left; discriminate|reflexivity]|]);
      (split; [discriminate|]);
      (split; [intros ? [= <-]; cbn [set_cache style_cache]; apply lookup_insert_eq|]);
      (split; [discriminate|]);
      intros other Hother; cbn [set_cache style_cache]; now apply lookup_insert_ne.
  - destruct new_image_urls as [|url rest].
    + cbn [encode_all].
      destruct (style_cache self !! style_id) as [embeddings|] eqn:Hcache; cbn [default];
        (split; [split; [intros _; now right|reflexivity]|]);
        (split; [discriminate|]);
        (split; [discriminate|]);
        (split; [intros _ _; cbn [set_cache style_cache]; rewrite ?app_nil_r;
                 apply lookup_insert_eq|]);
        intros other Hother; cbn [set_cache style_cache]; now apply lookup_insert_ne.
    + rewrite encode_all_uninitialized by (try assumption; discriminate).
      split; [split; [discriminate|intros [H|H]; [now elim H|discriminate]]|].
      split; [reflexivity|]. split; [discriminate|]. split; [discriminate|]. reflexivity.
Qed.

(** X17.  [delete_style_profile] always reports success, whether or not
    the identifier was cached; afterwards the identifier has no entry,
    the other entries are untouched, and deleting again changes
    nothing.  A later lookup of the deleted identifier does not fail:
    it returns the three mock references and caches them. *)
Theorem delete_style_profile_removes (self : StyleEngine.t) (style_id : string) :
  let '(deleted, self') := delete_style_profile self style_id in
  deleted = true
  /\ style_cache self' !! style_id = None
  /\ (forall other, other <> style_id ->
        style_cache self' !! other = style_cache self !! other)
  /\ delete_style_profile self' style_id = (true, self')
  /\ fst (get_style_embeddings self' style_id) = mock_references
  /\ style_cache (snd (get_style_embeddings self' style_id)) !! style_id
     = Some mock_references.
Proof.
  unfold delete_style_profile.
  destruct (style_cache self !! style_id) as [embeddings|] eqn:Hcache.
  - assert (Hgone : style_cache (set_cache self (delete style_id (style_cache self)))
                    !! style_id = None).
    { cbn [set_cache style_cache]. apply lookup_delete_eq. }
    split; [reflexivity|]. split; [exact Hgone|]. split.
    { intros other Hother. cbn [set_cache style_cache]. now apply lookup_delete_ne. }
    rewrite Hgone. split; [reflexivity|].
    unfold get_style_embeddings. rewrite Hgone. cbv zeta. cbn [fst snd].
    split; [reflexivity|]. cbn [set_cache style_cache]. apply lookup_insert_eq.
  - split; [reflexivity|]. split; [exact Hcache|]. split; [reflexivity|].
    rewrite Hcache. split; [reflexivity|].
    unfold get_style_embeddings. rewrite Hcache. cbv zeta. cbn [fst snd].
    split; [reflexivity|]. cbn [set_cache style_cache]. apply lookup_insert_eq.
Qed.

(** X18.  [get_style_embeddings] is a caching lookup: the list it
    returns is the entry of the identifier afterwards, a second call
    returns the same list and changes nothing, and no other identifier
    is touched.  For an identifier without an entry the list is the
    three mock references of 512 components each. *)
Theorem get_style_embeddings_caches (self : StyleEngine.t) (style_id : string) :
  let '(embeddings, self') := get_style_embeddings self style_id in
  style_cache self' !! style_id = Some embeddings
  /\ get_style_embeddings self' style_id = (embeddings, self')
  /\ (forall other, other <> style_id ->
        style_cache self' !! other = style_cache self !! other)
  /\ (style_cache self !! style_id = None ->
        embeddings = mock_references
        /\ Forall (fun embedding => length embedding = 512%nat) embeddings).
Proof.
  unfold get_style_embeddings.
  destruct (style_cache self !! style_id) as [embeddings|] eqn:Hcache.
  - split; [exact Hcache|]. rewrite Hcache. split; [reflexivity|].
    split; [reflexivity|discriminate].
  - cbv zeta. cbn [set_cache style_cache]. rewrite lookup_insert_eq.
    split; [reflexivity|]. split; [reflexivity|]. split.
    + intros other Hother. now apply lookup_insert_ne.
    + intros _. split; [reflexivity|]. unfold mock_references.
      repeat constructor; apply repeat_length.
Qed.

End StyleEngineCache.
(** ** style_engine.py: what [match_style] returns *)

Section StyleEngineMatching.

Import CLIPService StyleEngine.

Lemma encode_image_bytes clip frame :
  encode_image clip (InBytes frame) = _mock_embedding.
Proof. unfold encode_image. now destruct (model clip). Qed.

Lemma garment_style_step_class clip style_embeddings feedback seg_result seg_result' :
  seg_class seg_result = seg_class seg_result' ->
  garment_style_step clip style_embeddings feedback seg_result
  = garment_style_step clip style_embeddings feedback seg_result'.
Proof. unfold garment_style_step. now intros ->. Qed.

Lemma garment_style_match_classes clip style_embeddings frame frame' :
  forall segmentation_results segmentation_results',
    map seg_class segmentation_results = map seg_class segmentation_results' ->
    _analyze_garment_style_match clip frame segmentation_results style_embeddings
    = _analyze_garment_style_match clip frame' segmentation_results' style_embeddings.
Proof.
  unfold _analyze_garment_style_match. generalize (@nil FeedbackItem) as feedback.
  intros feedback segs. revert feedback.
  induction segs as [|seg rest IH]; intros feedback [|seg' rest'] Hclasses;
    try discriminate; [reflexivity|].
  cbn [map] in Hclasses. injection Hclasses as Hclass Hrest. cbn [fold_left].
  rewrite (garment_style_step_class _ _ _ seg seg' Hclass). now apply IH.
Qed.

Lemma garment_style_step_item clip style_embeddings feedback seg_result :
  exists item,
    garment_style_step clip style_embeddings feedback seg_result = feedback ++ [item]
    /\ style_item item.
Proof.
  unfold garment_style_step. cbv zeta.
  destruct (_ <? _)%float; [|destruct (_ <? _)%float];
    eexists; (split; [reflexivity|]); repeat split; cbn; auto.
Qed.

Lemma garment_style_match_items clip style_embeddings frame segmentation_results :
  length (_analyze_garment_style_match clip frame segmentation_results style_embeddings)
  = length segmentation_results
  /\ Forall style_item
            (_analyze_garment_style_match clip frame segmentation_results style_embeddings).
Proof.
  unfold _analyze_garment_style_match.
  enough (H : forall feedback,
             Forall style_item feedback ->
             length (fold_left (garment_style_step clip style_embeddings)
                       segmentation_results feedback)
             = (length feedback + length segmentation_results)%nat
             /\ Forall style_item
                  (fold_left (garment_style_step clip style_embeddings)
                     segmentation_results feedback))
    by (apply (H []); constructor).
  induction segmentation_results as [|seg rest IH]; intros feedback Hall; cbn [fold_left length].
  - split; [lia|exact Hall].
  - destruct (garment_style_step_item clip style_embeddings feedback seg)
      as (item & -> & Hitem).
    destruct (IH (feedback ++ [item])) as [Hlen Hitems].
    { apply Forall_app. split; [exact Hall|now constructor]. }
    split; [|exact Hitems]. rewrite Hlen, length_app. cbn [length]. lia.
Qed.

(** X19.  [match_style] never returns an empty list and never raises.
    Every item has type "style", is actionable and has a priority of
    the schema.  There is either a single item, or one overall item
    followed by one item per segmentation result; the latter is the
    case whenever the engine is initialized and the identifier has a
    non-empty list of references. *)
Theorem match_style_feedback_shape
    (self : StyleEngine.t) (frame : list Byte.byte)
    (segmentation_results : list SegmentationResult) (style_id : string) :
  let feedback := fst (match_style self frame segmentation_results style_id) in
  Forall style_item feedback
  /\ (length feedback = 1%nat \/ length feedback = S (length segmentation_results))
  /\ (forall clip reference reference_embeddings,
        clip_service self = Some clip ->
        style_cache self !! style_id = Some (reference :: reference_embeddings) ->
        length feedback = S (length segmentation_results)).
Proof.
  cbv zeta. unfold match_style, match_style_body.
  destruct (get_style_embeddings self style_id) as [style_embeddings self'] eqn:Hget.
  assert (Hclip' : clip_service self' = clip_service self).
  { unfold get_style_embeddings in Hget.
    destruct (style_cache self !! style_id); now injection Hget as _ <-. }
  destruct style_embeddings as [|reference reference_embeddings].
  { cbn [fst]. split; [|split].
    - constructor; [|constructor]. repeat split; cbn; auto.
    - now left.
    - intros clip r rs _ Hcache. rewrite (get_style_embeddings_cached _ _ _ Hcache) in Hget.
      discriminate. }
  unfold the_clip_service. rewrite Hclip'.
  destruct (clip_service self) as [clip|]; cbn [mbind result_bind].
  - cbv zeta. cbn [map].
    destruct (garment_style_match_items clip (reference :: reference_embeddings) frame
                segmentation_results) as [Hlen Hitems].
    assert (Hshape : forall message confidence priority,
               In priority priorities ->
               style_item (_create_style_feedback message confidence priority)).
    { intros message confidence priority Hin. now repeat split. }
    destruct (_ <? _)%float; [|destruct (_ <? _)%float];
      (destruct segmentation_results as [|seg rest]; cbn [fst app length];
       [ split; [constructor; [apply Hshape; cbn; auto|constructor]|];
         split; [now left|reflexivity]
       | rewrite Hlen; split; [constructor; [apply Hshape; cbn; auto|exact Hitems]|];
         split; [now right|reflexivity] ]).
  - cbn [fst]. split; [|split].
    + constructor; [|constructor]. repeat split; cbn; auto.
    + now left.
    + discriminate.
Qed.

(** X20.  On an engine that was never initialized, [match_style]
    answers "Style matching unavailable" for every identifier except
    those cached with an empty list.  The mock references cached by
    the lookup stay in the cache although the call failed. *)
Theorem match_style_uninitialized
    (self : StyleEngine.t) (frame : list Byte.byte)
    (segmentation_results : list SegmentationResult) (style_id : string)
    (Hclip : clip_service self = None)
    (Hreferences : style_cache self !! style_id <> Some []) :
  match_style self frame segmentation_results style_id
  = ([style_unavailable], snd (get_style_embeddings self style_id))
  /\ (style_cache self !! style_id = None ->
      style_cache (snd (match_style self frame segmentation_results style_id)) !! style_id
      = Some mock_references).
Proof.
  unfold match_style, match_style_body, get_style_embeddings.
  destruct (style_cache self !! style_id) as [[|reference reference_embeddings]|] eqn:Hcache;
    [congruence| |].
  - unfold the_clip_service. rewrite Hclip. cbn [mbind result_bind snd].
    split; [reflexivity|discriminate].
  - cbv zeta. unfold the_clip_service. cbn [set_cache clip_service]. rewrite Hclip.
    cbn [mbind result_bind snd]. split; [reflexivity|]. intros _.
    cbn [style_cache]. apply lookup_insert_eq.
Qed.

Lemma match_style_uninitialized_witness :
  fst (match_style __init__ [] sample_segmentation "casual") = [style_unavailable]
  /\ style_cache (snd (match_style __init__ [] sample_segmentation "casual")) !! "casual"
     = Some mock_references.
Proof.
  assert (Hreferences : style_cache __init__ !! "casual" <> Some []) by discriminate.
  destruct (match_style_uninitialized __init__ [] sample_segmentation "casual"
              eq_refl Hreferences) as [Hout Hcache].
  split; [now rewrite Hout|]. now apply Hcache.
Defined.

(** X21.  The result of [match_style] does not depend on the frame:
    the frame bytes only reach [encode_image], which answers with the
    mock embedding for a byte string.  Of the segmentation results
    only the classes matter. *)
Theorem match_style_ignores_frame
    (self : StyleEngine.t) (frame frame' : list Byte.byte)
    (segmentation_results segmentation_results' : list SegmentationResult)
    (style_id : string)
    (Hclasses : map seg_class segmentation_results = map seg_class segmentation_results') :
  match_style self frame segmentation_results style_id
  = match_style self frame' segmentation_results' style_id.
Proof.
  unfold match_style, match_style_body.
  destruct (get_style_embeddings self style_id) as [style_embeddings self'].
  destruct style_embeddings as [|reference reference_embeddings]; [reflexivity|].
  destruct (the_clip_service self') as [clip|]; cbn [mbind result_bind]; [|reflexivity].
  rewrite !encode_image_bytes.
  rewrite (garment_style_match_classes clip (reference :: reference_embeddings)
             frame frame' _ _ Hclasses).
  destruct segmentation_results, segmentation_results'; try discriminate; reflexivity.
Qed.

Lemma match_style_ignores_frame_witness :
  match_style mock_engine [] sample_segmentation "casual"
  = match_style mock_engine [Byte.x89; Byte.x50]
      [ {| seg_bbox := (0, 0, 1, 1)%Z; seg_class := "shirt"; seg_confidence := 0.5 |} ]
      "casual".
Proof. apply match_style_ignores_frame. reflexivity. Defined.

End StyleEngineMatching.
(** ** style_engine.py: matching without a CLIP model *)

Section StyleEngineMockMode.

Import CLIPService StyleEngine Binary64.

Lemma compute_image_similarity_mock clip embedding1 embedding2 :
  model clip = None ->
  compute_image_similarity clip embedding1 embedding2 = 0.75%float.
Proof. unfold compute_image_similarity. now intros ->. Qed.

Lemma similarities_mock clip embedding (embeddings : list Embedding) :
  model clip = None ->
  map (fun reference => compute_image_similarity clip embedding reference) embeddings
  = map (fun _ => 0.75%float) embeddings.
Proof.
  intros Hmodel. apply map_ext. intros reference.
  now apply compute_image_similarity_mock.
Qed.

Lemma py_max_mock {A} (references : list A) :
  py_max (0.75%float :: map (fun _ => 0.75%float) references) = 0.75%float.
Proof.
  cbn [py_max]. induction references as [|r rest IH]; [reflexivity|].
  cbn [map fold_left]. exact IH.
Qed.

Lemma garment_style_step_mock clip feedback seg_result :
  model clip = None ->
  garment_style_step clip mock_references feedback seg_result
  = feedback ++ [garment_mock_match seg_result].
Proof.
  intros Hmodel. unfold garment_style_step. cbv zeta.
  rewrite (similarities_mock clip _ _ Hmodel).
  unfold mock_references. cbn [map].
  replace (np_mean [0.75; 0.75; 0.75])%float with 0.75%float by (vm_compute; reflexivity).
  replace (0.8 <? 0.75)%float with false by reflexivity.
  replace (0.6 <? 0.75)%float with true by reflexivity.
  reflexivity.
Qed.

Lemma garment_style_match_mock clip frame segmentation_results :
  model clip = None ->
  _analyze_garment_style_match clip frame segmentation_results mock_references
  = map garment_mock_match segmentation_results.
Proof.
  intros Hmodel. unfold _analyze_garment_style_match.
  enough (H : forall feedback,
             fold_left (garment_style_step clip mock_references) segmentation_results feedback
             = feedback ++ map garment_mock_match segmentation_results)
    by apply (H []).
  induction segmentation_results as [|seg rest IH]; intros feedback; cbn [fold_left map].
  - now rewrite app_nil_r.
  - rewrite garment_style_step_mock by exact Hmodel. rewrite IH. now rewrite <- app_assoc.
Qed.

(** X22.  With a CLIP service that has no model loaded and the default
    threshold 0.7, every similarity is the mock 0.75.  The first item
    of [match_style] is then "Excellent style match" at 75.0%,
    whatever the frame and whatever non-empty references are cached;
    for an identifier without an entry the whole feedback is that item
    followed, for each segmentation result, by "The <class> works well
    with your reference style" at confidence 0.75. *)
Theorem match_style_without_model
    (self : StyleEngine.t) (clip : CLIPService.t) (frame : list Byte.byte)
    (segmentation_results : list SegmentationResult) (style_id : string)
    (Hclip : clip_service self = Some clip)
    (Hmodel : model clip = None)
    (Hthreshold : similarity_threshold self = 0.7%float) :
  (forall reference reference_embeddings,
     style_cache self !! style_id = Some (reference :: reference_embeddings) ->
     head (fst (match_style self frame segmentation_results style_id))
     = Some excellent_mock_match)
  /\ (style_cache self !! style_id = None ->
      fst (match_style self frame segmentation_results style_id)
      = excellent_mock_match :: map garment_mock_match segmentation_results).
Proof.
  split.
  - intros reference reference_embeddings Hcache.
    unfold match_style, match_style_body.
    rewrite (get_style_embeddings_cached _ _ _ Hcache).
    unfold the_clip_service. rewrite Hclip. cbn [mbind result_bind]. cbv zeta.
    rewrite (similarities_mock clip _ _ Hmodel). cbn [map].
    rewrite py_max_mock, Hthreshold.
    replace (0.7 <? 0.75)%float with true by reflexivity.
    replace (format_pct1 0.75) with "75.0%" by (vm_compute; reflexivity).
    now destruct segmentation_results.
  - intros Hcache. unfold match_style, match_style_body, get_style_embeddings.
    rewrite Hcache. cbv zeta. fold mock_references.
    unfold the_clip_service. cbn [set_cache clip_service similarity_threshold].
    rewrite Hclip. cbn [mbind result_bind].
    rewrite (similarities_mock clip _ _ Hmodel).
    rewrite (garment_style_match_mock clip frame segmentation_results Hmodel).
    unfold mock_references. cbn [map].
    replace (py_max [0.75; 0.75; 0.75])%float with 0.75%float by reflexivity.
    rewrite Hthreshold.
    replace (0.7 <? 0.75)%float with true by reflexivity.
    replace (format_pct1 0.75) with "75.0%" by (vm_compute; reflexivity).
    now destruct segmentation_results.
Qed.

Lemma match_style_without_model_witness :
  fst (match_style mock_engine [] sample_segmentation "casual")
  = [excellent_mock_match; garment_mock_match {| seg_bbox := (0, 0, 2, 2)%Z;
                                                 seg_class := "shirt";
                                                 seg_confidence := 0.87 |}].
Proof.
  apply (match_style_without_model mock_engine {| model := None |} [] sample_segmentation
           "casual" eq_refl eq_refl eq_refl).
  reflexivity.
Defined.

(** X23.  [compute_similarity] is [0.0] without references and on an
    engine without CLIP service; it never depends on the frame; and
    with a CLIP service that has no model loaded it lies in
    [[0, 1]] for up to [2^53] references. *)
Theorem compute_similarity_edges
    (self : StyleEngine.t) (frame : list Byte.byte) (style_embeddings : list Embedding) :
  (style_embeddings = [] -> compute_similarity self frame style_embeddings = 0.0%float)
  /\ (clip_service self = None ->
      compute_similarity self frame style_embeddings = 0.0%float)
  /\ (forall frame',
        compute_similarity self frame' style_embeddings
        = compute_similarity self frame style_embeddings)
  /\ (forall clip,
        clip_service self = Some clip -> model clip = None ->
        (Z.of_nat (length style_embeddings) <= 2 ^ 53)%Z ->
        in_unit (compute_similarity self frame style_embeddings)).
Proof.
  unfold compute_similarity, the_clip_service.
  split; [now intros ->|]. split; [intros ->; now destruct style_embeddings|].
  split.
  - intros frame'. destruct style_embeddings as [|reference references]; [reflexivity|].
    destruct (clip_service self) as [clip|]; [|reflexivity].
    unfold encode_image. now destruct (model clip).
  - intros clip -> Hmodel Hsize.
    destruct style_embeddings as [|reference references]; [split; reflexivity|].
    cbv zeta. rewrite (similarities_mock clip _ _ Hmodel). cbn [map].
    apply np_mean_in_unit; [discriminate| |].
    + cbn [length] in *. now rewrite length_map.
    + constructor; [vm_compute; discriminate|].
      apply List.Forall_forall. intros s Hs. apply in_map_iff in Hs as (_ & <- & _).
      vm_compute. discriminate.
Qed.

Lemma compute_similarity_edges_witness :
  compute_similarity mock_engine [] [] = 0.0%float
  /\ compute_similarity mock_engine [] mock_references = 0.75%float
  /\ in_unit (compute_similarity mock_engine [] mock_references).
Proof.
  destruct (compute_similarity_edges mock_engine [] []) as (Hempty & _).
  destruct (compute_similarity_edges mock_engine [] mock_references) as (_ & _ & _ & Hunit).
  split; [exact (Hempty eq_refl)|]. split; [vm_compute; reflexivity|].
  apply (Hunit {| model := None |}); [reflexivity|reflexivity|].
  vm_compute. discriminate.
Defined.

End StyleEngineMockMode.
(** ** clip_service.py: the most similar candidate *)

Section CLIPServiceSearch.

Import CLIPService StyleEngine Binary64.

Local Ltac sf_cases :=
  repeat match goal with
         | x : spec_float |- _ => destruct x
         | s : bool |- _ => destruct s
         end;
  cbn [SFcompare SFltb SFleb SFeqb] in *.

Local Ltac cmp_cases :=
  repeat match goal with
         | H : context [Z.compare ?a ?b] |- _ => destruct (Z.compare_spec a b)
         | |- context [Z.compare ?a ?b] => destruct (Z.compare_spec a b)
         | H : context [PosDef.Pos.compare_cont Eq ?a ?b] |- _ =>
             change (PosDef.Pos.compare_cont Eq a b) with (Pos.compare a b) in H;
             destruct (Pos.compare_spec a b)
         | |- context [PosDef.Pos.compare_cont Eq ?a ?b] =>
             change (PosDef.Pos.compare_cont Eq a b) with (Pos.compare a b);
             destruct (Pos.compare_spec a b)
         end;
  cbn [CompOpp] in *.

Lemma SFleb_false_SFltb (x y : spec_float) :
  SFeqb x x = true -> SFeqb y y = true -> SFleb x y = false -> SFltb y x = true.
Proof.
  unfold SFleb, SFltb, SFeqb. sf_cases; try easy; cmp_cases; try easy; lia.
Qed.

Lemma SFleb_nan (x y : spec_float) : SFeqb x x = false -> SFleb x y = false.
Proof.
  unfold SFleb, SFeqb. sf_cases; try easy; cmp_cases; try easy; lia.
Qed.

Lemma SFltb_SFleb (x y : spec_float) : SFltb x y = true -> SFleb x y = true.
Proof.
  unfold SFleb, SFltb. now destruct (SFcompare x y) as [[]|].
Qed.

Lemma SFleb_refl (x : spec_float) : SFeqb x x = true -> SFleb x x = true.
Proof.
  unfold SFleb, SFeqb. now destruct (SFcompare x x) as [[]|].
Qed.

Lemma is_nan_false x : is_nan x = false -> SFeqb (Prim2SF x) (Prim2SF x) = true.
Proof. unfold is_nan. rewrite FloatAxioms.eqb_spec. now destruct (SFeqb _ _). Qed.

Lemma leb_false_ltb (x y : float) :
  is_nan x = false -> is_nan y = false ->
  (x <=? y)%float = false -> (y <? x)%float = true.
Proof.
  intros Hx Hy. rewrite leb_spec, ltb_spec.
  apply SFleb_false_SFltb; now apply is_nan_false.
Qed.

Lemma leb_nan (x y : float) : is_nan x = true -> (x <=? y)%float = false.
Proof.
  unfold is_nan. rewrite FloatAxioms.eqb_spec, leb_spec. intros Hx.
  apply SFleb_nan. now destruct (SFeqb _ _).
Qed.

Lemma ltb_leb (x y : float) : (x <? y)%float = true -> (x <=? y)%float = true.
Proof. rewrite leb_spec, ltb_spec. apply SFltb_SFleb. Qed.

Lemma leb_refl (x : float) : is_nan x = false -> (x <=? x)%float = true.
Proof. intros Hx. rewrite leb_spec. now apply SFleb_refl, is_nan_false. Qed.

(** The scan of [np.argmax] after a prefix has been read: [mp] is the
    element of the prefix at [max_ind], no element of the prefix is
    above it, and those before [max_ind] are below it. *)
Lemma argmax_from_spec (rest : list float) :
  forall (prefix : list float) (mp : float) (max_ind : nat),
    (max_ind < length prefix)%nat ->
    nth max_ind prefix nan = mp ->
    is_nan mp = false ->
    Forall (fun s => (s <=? mp)%float = true) prefix ->
    Forall (fun s => (s <? mp)%float = true) (firstn max_ind prefix) ->
    let best := argmax_from mp max_ind (length prefix) rest in
    (best < length (prefix ++ rest))%nat
    /\ (Forall (fun s => is_nan s = false) rest ->
        Forall (fun s => (s <=? nth best (prefix ++ rest) nan)%float = true) (prefix ++ rest)
        /\ Forall (fun s => (s <? nth best (prefix ++ rest) nan)%float = true)
                  (firstn best (prefix ++ rest)))
    /\ (Exists (fun s => is_nan s = true) rest ->
        is_nan (nth best (prefix ++ rest) nan) = true).
Proof.
  induction rest as [|x rest IH]; intros prefix mp max_ind Hind Hmp Hnan Hle Hlt;
    cbn [argmax_from]; cbv zeta.
  - rewrite app_nil_r. split; [exact Hind|]. split.
    + intros _. rewrite Hmp. split; [exact Hle|exact Hlt].
    + intros Hex. now apply Exists_nil in Hex.
  - assert (Hsnoc : prefix ++ x :: rest = (prefix ++ [x]) ++ rest)
      by now rewrite <- app_assoc.
    assert (Hlen : length (prefix ++ [x]) = S (length prefix))
      by (rewrite length_app; cbn [length]; lia).
    destruct (x <=? mp)%float eqn:Hx; cbn [negb].
    + specialize (IH (prefix ++ [x]) mp max_ind).
      rewrite Hlen in IH. rewrite Hsnoc.
      destruct IH as (Hbound & Hmax & Hpoison).
      * lia.
      * rewrite app_nth1 by exact Hind. exact Hmp.
      * exact Hnan.
      * apply Forall_app. split; [exact Hle|now constructor].
      * rewrite firstn_app. replace (max_ind - length prefix)%nat with 0%nat by lia.
        cbn [firstn]. now rewrite app_nil_r.
      * split; [exact Hbound|]. split.
        -- intros Hall. apply Forall_cons_iff in Hall as [_ Hall]. now apply Hmax.
        -- intros Hex. apply Exists_cons in Hex as [Hex|Hex]; [|now apply Hpoison].
           rewrite (leb_nan x mp Hex) in Hx. discriminate.
    + destruct (is_nan x) eqn:Hxnan.
      * rewrite Hsnoc, app_nth1 by lia.
        rewrite app_nth2 by lia. rewrite Nat.sub_diag. cbn [nth].
        split; [rewrite length_app, Hlen; lia|]. split.
        -- intros Hall. apply Forall_cons_iff in Hall as [Hall _]. congruence.
        -- intros _. exact Hxnan.
      * pose proof (leb_false_ltb x mp Hxnan Hnan Hx) as Hgt.
        specialize (IH (prefix ++ [x]) x (length prefix)).
        rewrite Hlen in IH. rewrite Hsnoc.
        destruct IH as (Hbound & Hmax & Hpoison).
        -- lia.
        -- rewrite app_nth2 by lia. now rewrite Nat.sub_diag.
        -- exact Hxnan.
        -- apply Forall_app. split.
           ++ eapply Forall_impl; [exact Hle|]. intros s Hs.
              apply ltb_leb. exact (leb_ltb_trans _ _ _ Hs Hgt).
           ++ constructor; [now apply leb_refl|constructor].
        -- rewrite firstn_app, Nat.sub_diag, firstn_all. cbn [firstn]. rewrite app_nil_r.
           eapply Forall_impl; [exact Hle|]. intros s Hs.
           exact (leb_ltb_trans _ _ _ Hs Hgt).
        -- split; [exact Hbound|]. split.
           ++ intros Hall. apply Forall_cons_iff in Hall as [_ Hall]. now apply Hmax.
           ++ intros Hex. apply Exists_cons in Hex as [Hex|Hex]; [congruence|].
              now apply Hpoison.
Qed.

Lemma np_argmax_spec (x : float) (rest : list float) :
  exists best,
    np_argmax (x :: rest) = Some best
    /\ (best < length (x :: rest))%nat
    /\ (Forall (fun s => is_nan s = false) (x :: rest) ->
        Forall (fun s => (s <=? nth best (x :: rest) nan)%float = true) (x :: rest)
        /\ Forall (fun s => (s <? nth best (x :: rest) nan)%float = true)
                  (firstn best (x :: rest)))
    /\ (Exists (fun s => is_nan s = true) (x :: rest) ->
        is_nan (nth best (x :: rest) nan) = true).
Proof.
  cbn [np_argmax]. eexists. split; [reflexivity|].
  destruct (is_nan x) eqn:Hx.
  - split; [cbn [length]; lia|]. split.
    + intros Hall. apply Forall_cons_iff in Hall as [Hall _]. congruence.
    + intros _. exact Hx.
  - destruct (argmax_from_spec rest [x] x 0) as (Hbound & Hmax & Hpoison).
    + cbn [length]. lia.
    + reflexivity.
    + exact Hx.
    + constructor; [now apply leb_refl|constructor].
    + constructor.
    + cbn [length app] in *. split; [exact Hbound|]. split.
      * intros Hall. apply Forall_cons_iff in Hall as [_ Hall]. now apply Hmax.
      * intros Hex. apply Exists_cons in Hex as [Hex|Hex]; [congruence|].
        now apply Hpoison.
Qed.

(** X24.  With a model loaded and at least one candidate,
    [find_most_similar] returns one similarity per candidate and an
    index into them; the best similarity is the one at that index.
    When no similarity is NaN it is the largest, and the index is the
    first where it occurs; when one is NaN the best similarity is
    NaN. *)
Theorem find_most_similar_in_bounds
    (self : CLIPService.t) (query_embedding : Embedding)
    (candidate_embeddings : list Embedding) (loaded : CLIPModel)
    (Hmodel : model self = Some loaded)
    (Hcandidates : candidate_embeddings <> []) :
  let result := find_most_similar self query_embedding candidate_embeddings in
  let similarities := all_similarities result in
  let best := Z.to_nat (best_index result) in
  similarities
  = map (fun candidate => compute_image_similarity self query_embedding candidate)
        candidate_embeddings
  /\ (0 <= best_index result < Z.of_nat (length candidate_embeddings))%Z
  /\ best_similarity result = nth best similarities nan
  /\ (Forall (fun s => is_nan s = false) similarities ->
      Forall (fun s => (s <=? best_similarity result)%float = true) similarities
      /\ Forall (fun s => (s <? best_similarity result)%float = true)
                (firstn best similarities))
  /\ (Exists (fun s => is_nan s = true) similarities ->
      is_nan (best_similarity result) = true).
Proof.
  cbv zeta. unfold find_most_similar. rewrite Hmodel. cbv zeta.
  destruct candidate_embeddings as [|candidate candidates]; [congruence|].
  cbn [map].
  destruct (np_argmax_spec
              (compute_image_similarity self query_embedding candidate)
              (map (fun candidate => compute_image_similarity self query_embedding candidate)
                   candidates)) as (best & -> & Hbound & Hmax & Hpoison).
  cbn [all_similarities best_index best_similarity]. rewrite Nat2Z.id.
  split; [reflexivity|]. split.
  { cbn [length] in *. rewrite length_map in Hbound. lia. }
  split; [reflexivity|]. split; [exact Hmax|exact Hpoison].
Qed.

Lemma find_most_similar_in_bounds_witness :
  let result :=
    find_most_similar {| model := Some sample_model |} [1.0%float]
      [[0.2%float]; [0.9%float]; [0.5%float]; [0.9%float]] in
  best_index result = 1%Z
  /\ (0 <= best_index result < 4)%Z.
Proof.
  cbv zeta. split; [reflexivity|].
  assert (Hcandidates : [[0.2%float]; [0.9%float]; [0.5%float]; [0.9%float]] <> [])
    by discriminate.
  exact (proj1 (proj2 (find_most_similar_in_bounds
                         {| model := Some sample_model |} [1.0%float] _ sample_model
                         eq_refl Hcandidates))).
Defined.

End CLIPServiceSearch.
